(** * Event-listener binding and dispatch of the render3 runtime

    A shallow embedding of
    [packages/core/src/render3/instructions/listener.ts]:
    [findExistingListener], [listenerInternal] (with its two entry points
    [Δlistener] and [ΔcomponentHostSyntheticListener]),
    [executeListenerWithErrorHandling] and [wrapListener].

    The runtime keeps its data in JavaScript arrays and objects that are
    shared and mutated in place.  The embedding keeps them in explicit stores
    (an object heap, the views, the template views and the template nodes),
    threads the stores through a small state-and-exception monad, and records
    every call that leaves the file (renderer, DOM, output streams, dirty
    marking, error sink, user handlers) in a trace. *)

From Stdlib Require Import ZArith String List Lia Bool Ascii.
From stdpp Require Import base option list strings gmap.

Local Open Scope Z_scope.

(** ** JavaScript values *)

Module Js.

(** Object identities: positions in the heap. *)
Abbreviation loc := nat.

(** The values that the cleanup arrays, the view slots and the handler
    results hold.  Numbers are the integers (indices and flags; NaN is
    written [None] where a conversion can produce it). *)
Inductive JsVal :=
| VUndef
| VNull
| VBool (b : bool)
| VNum (n : Z)
| VStr (s : string)
| VRef (r : loc).

#[global] Instance JsVal_eq_dec : EqDecision JsVal.
Proof. solve_decision. Defined.

(** [a === b] *)
Definition strict_eq (a b : JsVal) : bool := bool_decide (a = b).

(** ToBoolean *)
Definition truthy (v : JsVal) : bool :=
  match v with
  | VUndef | VNull => false
  | VBool b => b
  | VNum n => negb (n =? 0)
  | VStr s => negb (String.eqb s "")
  | VRef _ => true
  end.

(** Decimal digits of a string, for the two places where ECMAScript reads a
    string as a number. *)
Definition digit_of (c : ascii) : option Z :=
  let n := Z.of_N (N_of_ascii c) in
  if (48 <=? n) && (n <=? 57) then Some (n - 48) else None.

Fixpoint digits_value (acc : Z) (s : string) : option Z :=
  match s with
  | EmptyString => Some acc
  | String c s' =>
      match digit_of c with
      | Some d => digits_value (10 * acc + d) s'
      | None => None
      end
  end.

(** ToNumber, [None] for NaN.  A string is read when it is empty or a run of
    decimal digits (other numeric notations are outside the model); an
    object converts through its default [toString], which is not numeric. *)
Definition to_number (v : JsVal) : option Z :=
  match v with
  | VUndef => None
  | VNull => Some 0
  | VBool b => Some (if b then 1 else 0)
  | VNum n => Some n
  | VStr s => digits_value 0 s
  | VRef _ => None
  end.

(** [n > v] for a number [n]: false when [v] converts to NaN. *)
Definition num_gt (n : Z) (v : JsVal) : bool :=
  match to_number v with
  | Some m => m <? n
  | None => false
  end.

(** A string that is an array index in canonical form. *)
Definition canonical_index (s : string) : option Z :=
  match s with
  | EmptyString => None
  | String c s' =>
      if Ascii.eqb c "0"%char && negb (String.eqb s' "") then None
      else digits_value 0 s
  end.

(** [a[i]] for a position [i]. *)
Definition array_at (a : list JsVal) (i : nat) : JsVal :=
  default VUndef (a !! i).

(** [a[k]] for a key [k] of any type: only an integer key (or its canonical
    string) names an element. *)
Definition array_get (a : list JsVal) (k : JsVal) : JsVal :=
  match k with
  | VNum n => if 0 <=? n then array_at a (Z.to_nat n) else VUndef
  | VStr s =>
      match canonical_index s with
      | Some n => array_at a (Z.to_nat n)
      | None => VUndef
      end
  | _ => VUndef
  end.

(** Thrown values. *)
Inductive JsError :=
| TypeError
| AssertionError
| Error (message : string)
| UserError (tag : nat).

#[global] Instance JsError_eq_dec : EqDecision JsError.
Proof. solve_decision. Defined.

(** How a call ends. *)
Inductive completion (A : Type) :=
| Normal (a : A)
| Throw (e : JsError).
Arguments Normal {A} a.
Arguments Throw {A} e.

End Js.
Export Js.

(** ** The coalescing lookup *)

Module Lookup.

(** [tCleanup[i] === eventName && tCleanup[i + 1] === tNodeIdx] *)
Definition entry_matches (tCleanup : list JsVal) (eventName : string)
    (tNodeIdx : Z) (i : nat) : bool :=
  strict_eq (array_at tCleanup i) (VStr eventName)
  && strict_eq (array_at tCleanup (i + 1)) (VNum tNodeIdx).

(** What [findExistingListener] returns once an entry has matched at [i]:
    [lCleanup.length > listenerIdxInLCleanup ?
     lCleanup[listenerIdxInLCleanup] : null], where [lCleanup] is
    [lView[CLEANUP]!] (reading the length of null is a TypeError). *)
Definition existing_at (tCleanup : list JsVal) (lCleanup : option (list JsVal))
    (i : nat) : completion JsVal :=
  match lCleanup with
  | None => Throw TypeError
  | Some lc =>
      let listenerIdxInLCleanup := array_at tCleanup (i + 2) in
      Normal (if num_gt (Z.of_nat (length lc)) listenerIdxInLCleanup
              then array_get lc listenerIdxInLCleanup
              else VNull)
  end.

(** The [for] loop of [findExistingListener] from position [i]; one unit of
    fuel per iteration.  An iteration that does not match performs the
    [i += 2] of its body and then the [i += 2] of the loop header.  The
    result is [None] when the fuel runs out. *)
Fixpoint findExistingListener_loop (fuel : nat) (tCleanup : list JsVal)
    (lCleanup : option (list JsVal)) (eventName : string) (tNodeIdx : Z)
    (i : nat) : option (completion JsVal) :=
  match fuel with
  | O => None
  | S fuel' =>
      if (Z.of_nat i <? Z.of_nat (length tCleanup) - 1) then
        if entry_matches tCleanup eventName tNodeIdx i then
          Some (existing_at tCleanup lCleanup i)
        else
          findExistingListener_loop fuel' tCleanup lCleanup eventName tNodeIdx
            (i + 2 + 2)
      else Some (Normal VNull)
  end.

(** The body of [findExistingListener] on the two arrays it reads:
    [tView.cleanup] (null or an array) and [lView[CLEANUP]].  The loop
    advances at every iteration, so the length of the array, and one more
    for the exit test, is fuel enough. *)
Definition findExistingListener_in (tCleanup lCleanup : option (list JsVal))
    (eventName : string) (tNodeIdx : Z) : option (completion JsVal) :=
  match tCleanup with
  | Some tc =>
      findExistingListener_loop (S (length tc)) tc lCleanup eventName tNodeIdx 0
  | None => Some (Normal VNull)
  end.

End Lookup.
Export Lookup.

(** ** Stores and call-outs *)

Module Runtime.

(** Native nodes and DOM events are opaque to this file. *)
Definition RNode := nat.
Definition Event := nat.

(** Modelled from the spec: the renderer in effect for a view, declared in
    interfaces/renderer as
    [Renderer3 = ObjectOrientedRenderer3 | ProceduralRenderer3]; the
    procedural one is the one that exposes [listen], which is what
    [isProceduralRenderer] tests. *)
Inductive Renderer3 :=
| ObjectOrientedRenderer3 (id : nat)
| ProceduralRenderer3 (id : nat).

Definition isProceduralRenderer (renderer : Renderer3) : bool :=
  match renderer with
  | ProceduralRenderer3 _ => true
  | ObjectOrientedRenderer3 _ => false
  end.

(** Modelled from the spec: the node kinds, an enumeration of
    interfaces/node.  The source names [Element], [Container] and
    [ElementContainer]; the spec sets text nodes apart from these; any
    further kind is [OtherNode]. *)
Inductive TNodeType :=
| Element
| Container
| ElementContainer
| Text
| OtherNode (tag : nat).

#[global] Instance TNodeType_eq_dec : EqDecision TNodeType.
Proof. solve_decision. Defined.

(** One output of a directive as [tNode.outputs[eventName]] lists it.  The
    source reads the array in strides of three slots,
    [props[i]] (the slot of the directive instance in the view) and
    [props[i + 2]] (the property that holds the output); a triple stands for
    one stride and [props.length] is three times the number of triples. *)
Record OutputAlias := {
  directiveIndex : Z;
  publicName : string;
  minifiedName : string
}.
Definition PropertyAliasValue := list OutputAlias.

(** [tNode.outputs : PropertyAliases | null | undefined].  [aliases] holds
    the own properties of the object; an event name that a plain object
    inherits from [Object.prototype] ([constructor], [toString], ...) is
    outside the model. *)
Inductive TNodeOutputs :=
| OutputsUndefined
| OutputsNull
| OutputsOf (aliases : gmap string PropertyAliasValue).

Record TNode := {
  index : Z;
  type : TNodeType;
  flags : Z;
  outputs : TNodeOutputs
}.

Record TView := {
  cleanup : option (list JsVal);
  firstTemplatePass : bool
}.

(** The header entries of an [LView] that this file uses, and the array
    itself ([slots], read as [lView[index]]). *)
Record LView := {
  TVIEW : nat;
  FLAGS : Z;
  RENDERER : Renderer3;
  CLEANUP : option (list JsVal);
  slots : list JsVal
}.

(** What [eventTargetResolver(native)] returns; [{}] is
    [{| name := None; target := None |}]. *)
Record ResolvedTarget := {
  name : option string;
  target : option RNode
}.
Definition GlobalTargetResolver := RNode -> ResolvedTarget.

(** First argument of [renderer.listen]: a target name or a node. *)
Inductive ListenTarget :=
| TargetName (s : string)
| TargetNode (n : RNode).

(** Heap objects.  A function of user code is its behaviour on an event,
    the value it returns or the error it throws; what else a handler does
    (to the application, or to the structures of the runtime) is outside the
    model.  A wrapped listener is the closure that [wrapListener] returns,
    with the four variables it captures (the node and the view by
    reference).  The other kinds are the closure [idxOrTargetGetter], the
    disposer that [renderer.listen] returns, the subscription that
    [subscribe] returns, an output stream, a directive instance with its
    properties, and any other object. *)
Inductive ObjKind :=
| UserFunction (body : Event -> completion JsVal)
| WrappedListener (tNode : nat) (lView : nat) (listenerFn : JsVal)
    (wrapWithPreventDefault : bool)
| TargetGetter (eventTargetResolver : GlobalTargetResolver) (tNodeIndex : Z)
| CleanupFn
| Subscription
| Observable
| Directive (constructorName : string) (props : gmap string JsVal)
| PlainObject.

(** An object and its [__ngNextListenerFn__] property. *)
Record Obj := {
  kind : ObjKind;
  ngNextListenerFn : JsVal
}.

(** Calls that leave this file, in the order they are made. *)
Inductive Effect :=
| RendererListen (renderer : Renderer3) (on : ListenTarget) (eventName : string)
    (listenerFn : JsVal)
| AddEventListener (on : RNode) (eventName : string) (listenerFn : JsVal)
    (useCapture : bool)
| Subscribe (output : loc) (listenerFn : JsVal)
| MarkViewDirty (view : nat)
| HandlerCall (fn : loc) (e : Event)
| HandleError (view : nat) (error : JsError)
| PreventDefault (e : Event)
| SetReturnValueFalse (e : Event).

(** The stores, the ambient current view and node ([getLView()],
    [getPreviousOrParentTNode()]), the trace, and [ngDevMode]: [None] when
    it is off, else its [rendererAddEventListener] counter. *)
Record State := {
  heap : list Obj;
  lviews : list LView;
  tviews : list TView;
  tnodes : list TNode;
  currentLView : nat;
  currentTNode : nat;
  ngDevMode : option nat;
  trace : list Effect
}.

(** Constants and accessors that the file imports and that are declared
    elsewhere in the runtime: the two flag bits [TNodeFlags.isComponent] and
    [LViewFlags.ManualOnPush]; the view that a component host owns; the
    native node of a node; the outputs of a node
    ([generatePropertyAliases(tNode, BindingDirection.Output)], null when it
    has none); and the renderer of a component. *)
Record Externals := {
  isComponent : Z;
  ManualOnPush : Z;
  getComponentViewByIndex : Z -> LView -> nat;
  getNativeByTNode : TNode -> LView -> RNode;
  generatePropertyAliases : TNode -> option (gmap string PropertyAliasValue);
  loadComponentRenderer : TNode -> LView -> Renderer3
}.

(** *** The monad: state, exceptions, and the two ways a run of the model
    can end without an answer. *)
Inductive Res (A : Type) :=
| Done (a : A) (s : State)
| Raised (e : JsError) (s : State)
| OutOfFuel
| Unmodelled.
Arguments Done {A} a s.
Arguments Raised {A} e s.
Arguments OutOfFuel {A}.
Arguments Unmodelled {A}.

Definition M (A : Type) := State -> Res A.

Definition ret {A} (a : A) : M A := fun s => Done a s.
Definition bind {A B} (c : M A) (k : A -> M B) : M B :=
  fun s =>
    match c s with
    | Done a s' => k a s'
    | Raised e s' => Raised e s'
    | OutOfFuel => OutOfFuel
    | Unmodelled => Unmodelled
    end.
Definition throw {A} (e : JsError) : M A := fun s => Raised e s.
Definition unmodelled {A} : M A := fun _ => Unmodelled.
Definition out_of_fuel {A} : M A := fun _ => OutOfFuel.

(** [try { c } catch (error) { h error }] *)
Definition try_catch {A} (c : M A) (h : JsError -> M A) : M A :=
  fun s =>
    match c s with
    | Raised e s' => h e s'
    | r => r
    end.

Definition gets {A} (f : State -> A) : M A := fun s => Done (f s) s.
Definition modify (f : State -> State) : M unit := fun s => Done tt (f s).
Definition of_option {A} (o : option A) : M A :=
  match o with
  | Some a => ret a
  | None => unmodelled
  end.
Definition when (b : bool) (c : M unit) : M unit := if b then c else ret tt.

End Runtime.
Export Runtime.

Declare Scope js_scope.
Delimit Scope js_scope with js.
Notation "x <- c ;; k" := (bind c (fun x => k))
  (at level 100, c at next level, right associativity) : js_scope.
Notation "c ;; k" := (bind c (fun _ => k))
  (at level 100, right associativity) : js_scope.
Local Open Scope js_scope.

(** ** Store accessors *)

Module Store.

Definition with_heap (h : list Obj) (s : State) : State :=
  {| heap := h; lviews := lviews s; tviews := tviews s; tnodes := tnodes s;
     currentLView := currentLView s; currentTNode := currentTNode s;
     ngDevMode := ngDevMode s; trace := trace s |}.
Definition with_lviews (l : list LView) (s : State) : State :=
  {| heap := heap s; lviews := l; tviews := tviews s; tnodes := tnodes s;
     currentLView := currentLView s; currentTNode := currentTNode s;
     ngDevMode := ngDevMode s; trace := trace s |}.
Definition with_tviews (l : list TView) (s : State) : State :=
  {| heap := heap s; lviews := lviews s; tviews := l; tnodes := tnodes s;
     currentLView := currentLView s; currentTNode := currentTNode s;
     ngDevMode := ngDevMode s; trace := trace s |}.
Definition with_tnodes (l : list TNode) (s : State) : State :=
  {| heap := heap s; lviews := lviews s; tviews := tviews s; tnodes := l;
     currentLView := currentLView s; currentTNode := currentTNode s;
     ngDevMode := ngDevMode s; trace := trace s |}.
Definition with_ngDevMode (d : option nat) (s : State) : State :=
  {| heap := heap s; lviews := lviews s; tviews := tviews s; tnodes := tnodes s;
     currentLView := currentLView s; currentTNode := currentTNode s;
     ngDevMode := d; trace := trace s |}.
Definition with_trace (t : list Effect) (s : State) : State :=
  {| heap := heap s; lviews := lviews s; tviews := tviews s; tnodes := tnodes s;
     currentLView := currentLView s; currentTNode := currentTNode s;
     ngDevMode := ngDevMode s; trace := t |}.

(** A call that leaves the file. *)
Definition emit (e : Effect) : M unit :=
  modify (fun s => with_trace (trace s ++ [e]) s).

(** A new object; its identity is the next free position of the heap. *)
Definition alloc (k : ObjKind) : M loc :=
  fun s => Done (length (heap s))
             (with_heap (heap s ++ [{| kind := k; ngNextListenerFn := VUndef |}]) s).

Definition readObj (r : loc) : M Obj := fun s => of_option (heap s !! r) s.
Definition readLView (id : nat) : M LView := fun s => of_option (lviews s !! id) s.
Definition readTView (id : nat) : M TView := fun s => of_option (tviews s !! id) s.
Definition readTNode (id : nat) : M TNode := fun s => of_option (tnodes s !! id) s.

Definition getLView : M nat := gets currentLView.
Definition getPreviousOrParentTNode : M nat := gets currentTNode.

Definition set_CLEANUP (c : option (list JsVal)) (v : LView) : LView :=
  {| TVIEW := TVIEW v; FLAGS := FLAGS v; RENDERER := RENDERER v; CLEANUP := c;
     slots := slots v |}.
Definition set_cleanup (c : option (list JsVal)) (t : TView) : TView :=
  {| cleanup := c; firstTemplatePass := firstTemplatePass t |}.
Definition set_outputs (o : TNodeOutputs) (n : TNode) : TNode :=
  {| index := index n; type := type n; flags := flags n; outputs := o |}.

Definition writeLView (id : nat) (v : LView) : M unit :=
  modify (fun s => with_lviews (<[id := v]> (lviews s)) s).
Definition writeTView (id : nat) (t : TView) : M unit :=
  modify (fun s => with_tviews (<[id := t]> (tviews s)) s).
Definition writeTNode (id : nat) (n : TNode) : M unit :=
  modify (fun s => with_tnodes (<[id := n]> (tnodes s)) s).

(** [v.__ngNextListenerFn__]: a TypeError on undefined and null, undefined
    on any other primitive. *)
Definition get_next (v : JsVal) : M JsVal :=
  match v with
  | VUndef | VNull => throw TypeError
  | VRef r => o <- readObj r ;; ret (ngNextListenerFn o)
  | _ => ret VUndef
  end.

(** [v.__ngNextListenerFn__ = x]: in a module (strict code) a TypeError on
    every value that is not an object. *)
Definition set_next (v x : JsVal) : M unit :=
  match v with
  | VRef r =>
      o <- readObj r ;;
      modify (fun s =>
        with_heap (<[r := {| kind := kind o; ngNextListenerFn := x |}]> (heap s)) s)
  | _ => throw TypeError
  end.

(** Modelled from the spec: [getCleanup(view)] of ./shared; the cleanup list
    of a view is created lazily on first use,
    [view[CLEANUP] || (view[CLEANUP] = [])].  The array stays in the view;
    the result is its current content. *)
Definition getCleanup (lView : nat) : M (list JsVal) :=
  v <- readLView lView ;;
  match CLEANUP v with
  | Some c => ret c
  | None => writeLView lView (set_CLEANUP (Some []) v) ;; ret []
  end.

(** [lCleanup.push(...)] on the array of the view. *)
Definition lCleanup_push (lView : nat) (items : list JsVal) : M unit :=
  v <- readLView lView ;;
  match CLEANUP v with
  | Some c => writeLView lView (set_CLEANUP (Some (c ++ items)) v)
  | None => unmodelled
  end.

(** [tCleanup && tCleanup.push(...)] on the array of the template view. *)
Definition tCleanup_push (tCleanup : bool) (tView : nat) (items : list JsVal) : M unit :=
  when tCleanup
    (t <- readTView tView ;;
     match cleanup t with
     | Some c => writeTView tView (set_cleanup (Some (c ++ items)) t)
     | None => unmodelled
     end).

(** [ngDevMode && ngDevMode.rendererAddEventListener++] *)
Definition count_rendererAddEventListener : M unit :=
  modify (fun s => with_ngDevMode (S <$> ngDevMode s) s).

Definition devMode : M bool := gets (fun s => bool_decide (is_Some (ngDevMode s))).

End Store.
Export Store.

(** ** Dispatch: [executeListenerWithErrorHandling] and [wrapListener] *)

Section Dispatch.

Variable X : Externals.

(** [try { return listenerFn(e); } catch (error) { handleError(lView, error);
    return false; }], over the meaning [call] of a call. *)
Definition executeListenerWithErrorHandling (call : JsVal -> Event -> M JsVal)
    (lView : nat) (listenerFn : JsVal) (e : Event) : M JsVal :=
  try_catch (call listenerFn e)
    (fun error => emit (HandleError lView error) ;; ret (VBool false)).

(** [while (nextListenerFn) { result = ...; nextListenerFn = ...; }], one unit
    of fuel per test of the condition. *)
Fixpoint walk_chain (call : JsVal -> Event -> M JsVal) (fuel : nat) (lView : nat)
    (e : Event) (nextListenerFn result : JsVal) : M JsVal :=
  match fuel with
  | O => out_of_fuel
  | S fuel' =>
      if truthy nextListenerFn then
        result' <- executeListenerWithErrorHandling call lView nextListenerFn e ;;
        nextListenerFn' <- get_next nextListenerFn ;;
        walk_chain call fuel' lView e nextListenerFn' result'
      else ret result
  end.

(** The closure that [wrapListener] returns, called on [e]; [self] is the
    closure itself, whose [__ngNextListenerFn__] heads the chain. *)
Definition wrapListenerIn_markDirtyAndPreventDefault
    (call : JsVal -> Event -> M JsVal) (fuel : nat) (self : loc)
    (tNode lView : nat) (listenerFn : JsVal) (wrapWithPreventDefault : bool)
    (e : Event) : M JsVal :=
  tn <- readTNode tNode ;;
  lv <- readLView lView ;;
  let startView :=
    if negb (Z.land (flags tn) (isComponent X) =? 0)
    then getComponentViewByIndex X (index tn) lv
    else lView in
  when (Z.land (FLAGS lv) (ManualOnPush X) =? 0) (emit (MarkViewDirty startView)) ;;
  result <- executeListenerWithErrorHandling call lView listenerFn e ;;
  nextListenerFn <- get_next (VRef self) ;;
  result <- walk_chain call fuel lView e nextListenerFn result ;;
  when (wrapWithPreventDefault && strict_eq result (VBool false))
    (emit (PreventDefault e) ;; emit (SetReturnValueFalse e)) ;;
  ret result.

(** [f(e)].  A user function reports its call and completes as its body
    says; a wrapped listener runs the closure above; calling a value that
    is not a function is a TypeError.  The bodies of the disposers and of
    the target getters lie outside the file. *)
Fixpoint invoke (fuel : nat) (f : JsVal) (e : Event) : M JsVal :=
  match fuel with
  | O => out_of_fuel
  | S fuel' =>
      match f with
      | VRef r =>
          o <- readObj r ;;
          match kind o with
          | UserFunction body =>
              emit (HandlerCall r e) ;;
              match body e with
              | Normal v => ret v
              | Throw error => throw error
              end
          | WrappedListener tNode lView listenerFn wrapWithPreventDefault =>
              wrapListenerIn_markDirtyAndPreventDefault (invoke fuel') fuel' r
                tNode lView listenerFn wrapWithPreventDefault e
          | TargetGetter _ _ | CleanupFn => unmodelled
          | Subscription | Observable | Directive _ _ | PlainObject => throw TypeError
          end
      | _ => throw TypeError
      end
  end.

(** [wrapListener]: a new closure over its four arguments. *)
Definition wrapListener (tNode lView : nat) (listenerFn : JsVal)
    (wrapWithPreventDefault : bool) : M JsVal :=
  r <- alloc (WrappedListener tNode lView listenerFn wrapWithPreventDefault) ;;
  ret (VRef r).

End Dispatch.

(** ** The binding installer: [listenerInternal] *)

Section Installer.

Variable X : Externals.

(** [assertNodeOfPossibleTypes] of ../node_assert, which is not part of this
    file; by its name and its use, it throws unless the type of the node is
    one of those listed. *)
Definition assertNodeOfPossibleTypes (tNode : TNode) (types : list TNodeType) : M unit :=
  if bool_decide (type tNode ∈ types) then ret tt else throw AssertionError.

(** [assertDataInRange] of ../../util/assert, which is not part of this file;
    by its name and its use, it throws unless [index < lView.length]. *)
Definition assertDataInRange (lView : LView) (index : Z) : M unit :=
  if index <? Z.of_nat (length (slots lView)) then ret tt else throw AssertionError.

(** [lView[index]] *)
Definition lview_at (lView : LView) (index : Z) : JsVal :=
  array_get (slots lView) (VNum index).

(** [findExistingListener(lView, eventName, tNodeIdx)] on the stores. *)
Definition findExistingListener (lView : nat) (eventName : string) (tNodeIdx : Z)
    : M JsVal :=
  lv <- readLView lView ;;
  tView <- readTView (TVIEW lv) ;;
  match findExistingListener_in (cleanup tView) (CLEANUP lv) eventName tNodeIdx with
  | Some (Normal v) => ret v
  | Some (Throw error) => throw error
  | None => out_of_fuel
  end.

(** [renderer.listen(target, eventName, listenerFn)]: the call, and the
    disposer that it returns. *)
Definition renderer_listen (renderer : Renderer3) (on : ListenTarget)
    (eventName : string) (listenerFn : JsVal) : M JsVal :=
  emit (RendererListen renderer on eventName listenerFn) ;;
  r <- alloc CleanupFn ;;
  ret (VRef r).

(** [eventTargetResolver ? eventTargetResolver(native) : {}] *)
Definition resolve (eventTargetResolver : option GlobalTargetResolver)
    (native : RNode) : ResolvedTarget :=
  match eventTargetResolver with
  | Some resolver => resolver native
  | None => {| name := None; target := None |}
  end.

(** [resolved.target || native] *)
Definition target_of (eventTargetResolver : option GlobalTargetResolver)
    (tn : TNode) (lv : LView) : RNode :=
  let native := getNativeByTNode X tn lv in
  default native (target (resolve eventTargetResolver native)).

(** [resolved.name || target] *)
Definition listen_on (eventTargetResolver : option GlobalTargetResolver)
    (tn : TNode) (lv : LView) : ListenTarget :=
  match name (resolve eventTargetResolver (getNativeByTNode X tn lv)) with
  | Some s =>
      if truthy (VStr s) then TargetName s
      else TargetNode (target_of eventTargetResolver tn lv)
  | None => TargetNode (target_of eventTargetResolver tn lv)
  end.

(** [loadRendererFn ? loadRendererFn(tNode, lView) : lView[RENDERER]] *)
Definition renderer_of (loadRendererFn : option (TNode -> LView -> Renderer3))
    (tn : TNode) (lv : LView) : Renderer3 :=
  match loadRendererFn with
  | Some load => load tn lv
  | None => RENDERER lv
  end.

(** The block guarded by [tNode.type === TNodeType.Element].  The source
    assigns to its parameter [listenerFn] there; the result is the value of
    [listenerFn] when the block ends. *)
Definition addNativeListener (lView tNode tView : nat) (tCleanup : bool)
    (eventName : string) (listenerFn : JsVal) (useCapture : bool)
    (eventTargetResolver : option GlobalTargetResolver)
    (loadRendererFn : option (TNode -> LView -> Renderer3)) : M JsVal :=
  tn <- readTNode tNode ;;
  lv <- readLView lView ;;
  let target := target_of eventTargetResolver tn lv in
  let renderer := renderer_of loadRendererFn tn lv in
  lCleanup <- getCleanup lView ;;
  let lCleanupIndex := Z.of_nat (length lCleanup) in
  idxOrTargetGetter <-
    match eventTargetResolver with
    | Some resolver => r <- alloc (TargetGetter resolver (index tn)) ;; ret (VRef r)
    | None => ret (VNum (index tn))
    end ;;
  if isProceduralRenderer renderer then
    existingListener <-
      match eventTargetResolver with
      | Some _ => ret VNull
      | None => findExistingListener lView eventName (index tn)
      end ;;
    if negb (strict_eq existingListener VNull) then
      (* Attach a new listener at the head of the coalesced listeners list. *)
      next <- get_next existingListener ;;
      set_next listenerFn next ;;
      set_next existingListener listenerFn ;;
      ret listenerFn
    else
      listenerFn' <- wrapListener tNode lView listenerFn false ;;
      cleanupFn <-
        renderer_listen renderer (listen_on eventTargetResolver tn lv) eventName
          listenerFn' ;;
      count_rendererAddEventListener ;;
      lCleanup_push lView [listenerFn'; cleanupFn] ;;
      tCleanup_push tCleanup tView
        [VStr eventName; idxOrTargetGetter; VNum lCleanupIndex; VNum (lCleanupIndex + 1)] ;;
      ret listenerFn'
  else
    listenerFn' <- wrapListener tNode lView listenerFn true ;;
    emit (AddEventListener target eventName listenerFn' useCapture) ;;
    count_rendererAddEventListener ;;
    lCleanup_push lView [listenerFn'] ;;
    tCleanup_push tCleanup tView
      [VStr eventName; idxOrTargetGetter; VNum lCleanupIndex; VBool useCapture] ;;
    ret listenerFn'.

(** [directiveInstance[minifiedName]]: a TypeError on undefined and null; the
    properties of a directive instance are its [props]; no other own
    property is modelled. *)
Definition get_prop (v : JsVal) (p : string) : M JsVal :=
  match v with
  | VUndef | VNull => throw TypeError
  | VRef r =>
      o <- readObj r ;;
      match kind o with
      | Directive _ props => ret (default VUndef (props !! p))
      | _ => ret VUndef
      end
  | _ => ret VUndef
  end.

(** Modelled from the spec: [isObservable] of ../../util/lang; a directive
    output is a subscribable stream, an object that exposes [subscribe]:
    [!!obj && typeof obj.subscribe === 'function']. *)
Definition isObservable (v : JsVal) : M bool :=
  match v with
  | VRef r =>
      o <- readObj r ;;
      ret match kind o with Observable => true | _ => false end
  | _ => ret false
  end.

(** [directiveInstance.constructor.name], for a directive instance. *)
Definition constructor_name (v : JsVal) : M string :=
  match v with
  | VRef r =>
      o <- readObj r ;;
      match kind o with
      | Directive c _ => ret c
      | _ => unmodelled
      end
  | _ => unmodelled
  end.

(** [output.subscribe(listenerFn)]: the call and the subscription that it
    returns; a TypeError when [output] has no such method. *)
Definition subscribe (output listenerFn : JsVal) : M JsVal :=
  obs <- isObservable output ;;
  match output with
  | VRef r =>
      if (obs : bool) then
        emit (Subscribe r listenerFn) ;;
        s <- alloc Subscription ;;
        ret (VRef s)
      else throw TypeError
  | _ => throw TypeError
  end.

Definition output_not_initialized (minifiedName constructorName : string) : string :=
  ("@Output " ++ minifiedName ++ " not initialized in '" ++ constructorName ++ "'.")%string.

(** The loop over [props], one triple per iteration. *)
Fixpoint subscribeOutputs (lView tView : nat) (tCleanup : bool) (eventName : string)
    (tNodeIndex : Z) (listenerFn : JsVal) (props : PropertyAliasValue) : M unit :=
  match props with
  | [] => ret tt
  | p :: props' =>
      let index := directiveIndex p in
      lv <- readLView lView ;;
      dev <- devMode ;;
      when dev (assertDataInRange lv index) ;;
      let minifiedName := minifiedName p in
      let directiveInstance := lview_at lv index in
      output <- get_prop directiveInstance minifiedName ;;
      observable <- isObservable output ;;
      (if dev && negb observable then
         c <- constructor_name directiveInstance ;;
         throw (Error (output_not_initialized minifiedName c))
       else ret tt) ;;
      subscription <- subscribe output listenerFn ;;
      lCleanup <- getCleanup lView ;;
      let idx := Z.of_nat (length lCleanup) in
      lCleanup_push lView [listenerFn; subscription] ;;
      tCleanup_push tCleanup tView
        [VStr eventName; VNum tNodeIndex; VNum idx; VNum (- (idx + 1))] ;;
      subscribeOutputs lView tView tCleanup eventName tNodeIndex listenerFn props'
  end.

(** The part of [listenerInternal] under "subscribe to directive outputs":
    the outputs of the node are computed once and kept on the node. *)
Definition subscribeToOutputs (lView tNode tView : nat) (tCleanup : bool)
    (eventName : string) (listenerFn : JsVal) : M unit :=
  tn <- readTNode tNode ;;
  when (match outputs tn with OutputsUndefined => true | _ => false end)
    (writeTNode tNode
       (set_outputs
          match generatePropertyAliases X tn with
          | Some aliases => OutputsOf aliases
          | None => OutputsNull
          end tn)) ;;
  tn <- readTNode tNode ;;
  match outputs tn with
  | OutputsOf aliases =>
      match aliases !! eventName with
      | Some (p :: props') =>
          getCleanup lView ;;
          subscribeOutputs lView tView tCleanup eventName (index tn) listenerFn
            (p :: props')
      | _ => ret tt
      end
  | _ => ret tt
  end.

Definition listenerInternal (eventName : string) (listenerFn : loc)
    (useCapture : bool) (eventTargetResolver : option GlobalTargetResolver)
    (loadRendererFn : option (TNode -> LView -> Renderer3)) : M unit :=
  lView <- getLView ;;
  tNode <- getPreviousOrParentTNode ;;
  lv <- readLView lView ;;
  let tView := TVIEW lv in
  tv <- readTView tView ;;
  let firstTemplatePass := firstTemplatePass tv in
  (* tCleanup = firstTemplatePass && (tView.cleanup || (tView.cleanup = [])) *)
  when (firstTemplatePass && negb (bool_decide (is_Some (cleanup tv))))
    (writeTView tView (set_cleanup (Some []) tv)) ;;
  let tCleanup := firstTemplatePass in
  tn <- readTNode tNode ;;
  dev <- devMode ;;
  when dev (assertNodeOfPossibleTypes tn [Element; Container; ElementContainer]) ;;
  (* add native event listener - applicable to elements only *)
  listenerFn <-
    (if bool_decide (type tn = Element) then
       addNativeListener lView tNode tView tCleanup eventName (VRef listenerFn)
         useCapture eventTargetResolver loadRendererFn
     else ret (VRef listenerFn)) ;;
  subscribeToOutputs lView tNode tView tCleanup eventName listenerFn.

(** The two instructions of the generated code; [useCapture] defaults to
    false. *)
Definition Δlistener (eventName : string) (listenerFn : loc)
    (useCapture : option bool) (eventTargetResolver : option GlobalTargetResolver)
    : M unit :=
  listenerInternal eventName listenerFn (default false useCapture)
    eventTargetResolver None.


End Installer.

(** ** Vocabulary of the properties *)

Module Spec.

(** A bound handler: the identity of a user function and its behaviour. *)
Abbreviation Handler := (loc * (Event -> completion JsVal))%type.

(** The coalesced chain that starts at the value [v]: user functions linked
    through [__ngNextListenerFn__] up to a value that ends the [while] loop. *)
Inductive handler_chain (h : list Obj) : JsVal -> list Handler -> Prop :=
| chain_end v :
    truthy v = false ->
    handler_chain h v []
| chain_link r body next rest :
    h !! r = Some {| kind := UserFunction body; ngNextListenerFn := next |} ->
    handler_chain h next rest ->
    handler_chain h (VRef r) ((r, body) :: rest).

(** What one handler contributes to a dispatch of [e] in the view [lView]:
    its result (false when it throws) and its calls. *)
Definition handler_result (e : Event) (hd : Handler) : JsVal :=
  match hd.2 e with
  | Normal v => v
  | Throw _ => VBool false
  end.

Definition handler_events (lView : nat) (e : Event) (hd : Handler) : list Effect :=
  HandlerCall hd.1 e ::
  match hd.2 e with
  | Normal _ => []
  | Throw error => [HandleError lView error]
  end.

(** The result of the handler invoked last. *)
Definition last_result (e : Event) (init : JsVal) (hs : list Handler) : JsVal :=
  match last hs with
  | Some hd => handler_result e hd
  | None => init
  end.

(** Projections of a trace. *)
Definition calls_of (t : list Effect) : list loc :=
  omap (fun ev => match ev with HandlerCall r _ => Some r | _ => None end) t.

Definition marks_of (t : list Effect) : list nat :=
  omap (fun ev => match ev with MarkViewDirty v => Some v | _ => None end) t.

Definition is_native (ev : Effect) : bool :=
  match ev with
  | RendererListen _ _ _ _ | AddEventListener _ _ _ _ => true
  | _ => false
  end.

Definition is_listen (ev : Effect) : bool :=
  match ev with
  | RendererListen _ _ _ _ => true
  | _ => false
  end.

Definition is_subscribe (ev : Effect) : bool :=
  match ev with
  | Subscribe _ _ => true
  | _ => false
  end.


(** The wrapped listener [w] of the state [s]: the closure over the node
    [tNode] and the view [lView] that wraps the user handler [first], with
    the user handlers [rest] coalesced onto it. *)
Record wrapped_listener (s : State) (w : loc) (tNode lView : nat) (tn : TNode)
    (lv : LView) (wrapWithPreventDefault : bool) (first : Handler)
    (rest : list Handler) : Prop := {
  wl_closure : exists next,
    heap s !! w
    = Some {| kind := WrappedListener tNode lView (VRef first.1) wrapWithPreventDefault;
              ngNextListenerFn := next |}
    /\ handler_chain (heap s) next rest;
  wl_first : exists next,
    heap s !! first.1
    = Some {| kind := UserFunction first.2; ngNextListenerFn := next |};
  wl_tNode : tnodes s !! tNode = Some tn;
  wl_lView : lviews s !! lView = Some lv
}.

(** The two tests of the closure, on the node and on the view it captured. *)
Definition is_component_host (X : Externals) (tn : TNode) : bool :=
  negb (Z.land (flags tn) (isComponent X) =? 0).

Definition manual_on_push (X : Externals) (lv : LView) : bool :=
  negb (Z.land (FLAGS lv) (ManualOnPush X) =? 0).

(** The calls of one dispatch, in order. *)
Definition dispatch_marks (X : Externals) (lView : nat) (tn : TNode) (lv : LView)
    : list Effect :=
  if manual_on_push X lv then []
  else [MarkViewDirty (if is_component_host X tn
                       then getComponentViewByIndex X (index tn) lv
                       else lView)].

Definition dispatch_suppression (wrapWithPreventDefault : bool) (result : JsVal)
    (e : Event) : list Effect :=
  if wrapWithPreventDefault && strict_eq result (VBool false)
  then [PreventDefault e; SetReturnValueFalse e]
  else [].

Definition dispatch_trace (X : Externals) (lView : nat) (tn : TNode) (lv : LView)
    (wrapWithPreventDefault : bool) (e : Event) (hs : list Handler) : list Effect :=
  dispatch_marks X lView tn lv
  ++ flat_map (handler_events lView e) hs
  ++ dispatch_suppression wrapWithPreventDefault (last_result e VUndef hs) e.

(** The closure [idxOrTargetGetter] that an install with a target resolver
    creates, and the value of [idxOrTargetGetter] for a heap [h] at the start
    of the install. *)
Definition getter_objects (eventTargetResolver : option GlobalTargetResolver)
    (tn : TNode) : list Obj :=
  match eventTargetResolver with
  | Some resolver =>
      [{| kind := TargetGetter resolver (index tn); ngNextListenerFn := VUndef |}]
  | None => []
  end.

Definition idx_or_getter (eventTargetResolver : option GlobalTargetResolver)
    (tn : TNode) (h : list Obj) : JsVal :=
  match eventTargetResolver with
  | Some _ => VRef (length h)
  | None => VNum (index tn)
  end.

(** The template views after [tCleanup && tCleanup.push(items)]. *)
Definition tviews_pushed (tCleanup : bool) (tView : nat) (tv : TView)
    (items : list JsVal) (tvs : list TView) : list TView :=
  if tCleanup
  then <[tView := set_cleanup (Some (default [] (cleanup tv) ++ items)) tv]> tvs
  else tvs.

(** The alias [p] names the stream [o] in the view [lv]: [lView[index]] is
    a directive instance with constructor [c], and its property
    [minifiedName] is the observable object [o]. *)
Definition observable_at (h : list Obj) (lv : LView) (p : OutputAlias)
    (c : string) (o : loc) : Prop :=
  exists d props,
    lview_at lv (directiveIndex p) = VRef d
    /\ kind <$> h !! d = Some (Directive c props)
    /\ props !! minifiedName p = Some (VRef o)
    /\ kind <$> h !! o = Some Observable.

(** The alias [p] names the value [v], which is no stream: [v] is not an
    object with a [subscribe] method. *)
Definition not_observable_at (h : list Obj) (lv : LView) (p : OutputAlias)
    (c : string) (v : JsVal) : Prop :=
  exists d props,
    lview_at lv (directiveIndex p) = VRef d
    /\ kind <$> h !! d = Some (Directive c props)
    /\ default VUndef (props !! minifiedName p) = v
    /\ match v with
       | VRef o => exists k, kind <$> h !! o = Some k /\ k <> Observable
       | _ => True
       end.

(** The state after one output [o] has been subscribed with [listenerFn]:
    the call, the subscription object, and the cleanup entries of the view
    and of the template. *)
Definition subscribed (lView tView : nat) (tCleanup : bool) (eventName : string)
    (tNodeIndex : Z) (listenerFn : JsVal) (s : State) (o : loc) : State :=
  match lviews s !! lView, tviews s !! tView with
  | Some lv, Some tv =>
      let lCleanup := default [] (CLEANUP lv) in
      let idx := Z.of_nat (length lCleanup) in
      with_tviews
        (tviews_pushed tCleanup tView tv
           [VStr eventName; VNum tNodeIndex; VNum idx; VNum (- (idx + 1))] (tviews s))
      (with_lviews
         (<[lView := set_CLEANUP
                       (Some (lCleanup ++ [listenerFn; VRef (length (heap s))])) lv]>
            (lviews s))
      (with_heap (heap s ++ [{| kind := Subscription; ngNextListenerFn := VUndef |}])
      (with_trace (trace s ++ [Subscribe o listenerFn]) s)))
  | _, _ => s
  end.

(** What a turn of the loop over the outputs needs of the state, and keeps:
    the view (with its slots) and the template view, with its cleanup array
    in the first template pass. *)
Definition loop_ready (lView tView : nat) (tCleanup : bool) (s : State)
    (slots0 : list JsVal) : Prop :=
  exists lv tv,
    lviews s !! lView = Some lv /\ slots lv = slots0
    /\ tviews s !! tView = Some tv
    /\ (tCleanup = true -> is_Some (cleanup tv)).

(** The alias [p] names the stream [o] in a view with the slots [slots0]. *)
Definition stream_in (h : list Obj) (slots0 : list JsVal) (p : OutputAlias)
    (o : loc) : Prop :=
  exists lv c, slots lv = slots0 /\ observable_at h lv p c o.

(** The node once its outputs have been computed, and the outputs it then
    lists for an event name. *)
Definition outputs_cached (X : Externals) (tn : TNode) : TNode :=
  match outputs tn with
  | OutputsUndefined =>
      set_outputs
        match generatePropertyAliases X tn with
        | Some aliases => OutputsOf aliases
        | None => OutputsNull
        end tn
  | _ => tn
  end.

Definition props_for (X : Externals) (tn : TNode) (eventName : string)
    : PropertyAliasValue :=
  match outputs (outputs_cached X tn) with
  | OutputsOf aliases => default [] (aliases !! eventName)
  | _ => []
  end.

(** The state once [tView.cleanup] exists in the first template pass. *)
Definition tCleanup_ready (tView : nat) (tv : TView) (s : State) : State :=
  if firstTemplatePass tv && negb (bool_decide (is_Some (cleanup tv)))
  then with_tviews (<[tView := set_cleanup (Some []) tv]> (tviews s)) s
  else s.

Definition tv_ready (tv : TView) : TView :=
  if firstTemplatePass tv && negb (bool_decide (is_Some (cleanup tv)))
  then set_cleanup (Some []) tv
  else tv.

(** [stepwise R c]: whenever the run of [c] ends, by returning or by
    throwing, the state it ends in is related by [R] to the state it began
    in. *)
Definition stepwise {A} (R : State -> State -> Prop) (c : M A) : Prop :=
  forall s,
    match c s with
    | Done _ s' | Raised _ s' => R s s'
    | OutOfFuel | Unmodelled => True
    end.

(** What the subscription of outputs may change: the heap grows, and the only
    calls are calls of [subscribe]. *)
Definition outputs_frame (s s' : State) : Prop :=
  (exists h', heap s' = heap s ++ h')
  /\ (exists t, trace s' = trace s ++ t /\ forallb is_subscribe t = true).

(** What an install keeps: the nodes and the ambient view and node, the
    kind of every object, every view up to its cleanup array, every template
    view up to its cleanup array (which stays once it exists), and whether
    [ngDevMode] is on. *)
Definition same_view (lv lv' : LView) : Prop :=
  TVIEW lv' = TVIEW lv /\ FLAGS lv' = FLAGS lv /\ RENDERER lv' = RENDERER lv
  /\ slots lv' = slots lv.

Definition same_template (tv tv' : TView) : Prop :=
  firstTemplatePass tv' = firstTemplatePass tv
  /\ (is_Some (cleanup tv) -> is_Some (cleanup tv')).

Definition install_frame (s s' : State) : Prop :=
  tnodes s' = tnodes s
  /\ currentLView s' = currentLView s
  /\ currentTNode s' = currentTNode s
  /\ (is_Some (ngDevMode s') <-> is_Some (ngDevMode s))
  /\ (forall r k, kind <$> heap s !! r = Some k -> kind <$> heap s' !! r = Some k)
  /\ (forall i lv, lviews s !! i = Some lv ->
                  exists lv', lviews s' !! i = Some lv' /\ same_view lv lv')
  /\ (forall i tv, tviews s !! i = Some tv ->
                  exists tv', tviews s' !! i = Some tv' /\ same_template tv tv').

(** The loop over the outputs of the node [tn] for the event, once the
    native step has left [fn] in [listenerFn]. *)
Definition outputs_step (X : Externals) (lView tView : nat) (tCleanup : bool)
    (tn : TNode) (eventName : string) (fn : JsVal) : M unit :=
  match props_for X tn eventName with
  | [] => ret tt
  | props =>
      getCleanup lView ;;
      subscribeOutputs lView tView tCleanup eventName (index tn) fn props
  end.

(** The native step of [listenerInternal]: the block for an element, and
    nothing on any other node. *)
Definition native_step (X : Externals) (lView tNode tView : nat) (tCleanup : bool)
    (tn : TNode) (eventName : string) (listenerFn : loc) (useCapture : bool)
    (eventTargetResolver : option GlobalTargetResolver)
    (loadRendererFn : option (TNode -> LView -> Renderer3)) : M JsVal :=
  if bool_decide (type tn = Element) then
    addNativeListener X lView tNode tView tCleanup eventName (VRef listenerFn)
      useCapture eventTargetResolver loadRendererFn
  else ret (VRef listenerFn).

(** The cleanup entries of the view for the subscriptions [subs] of the
    listener [fn]. *)
Definition output_cleanup (fn : JsVal) (subs : list loc) : list JsVal :=
  flat_map (fun sub => [fn; VRef sub]) subs.

Definition subscription_object : Obj :=
  {| kind := Subscription; ngNextListenerFn := VUndef |}.

(** [r] is a user function with the behaviour [body]. *)
Definition is_user (h : list Obj) (hd : Handler) : Prop :=
  exists next, h !! hd.1 = Some {| kind := UserFunction hd.2; ngNextListenerFn := next |}.

(** The handlers [hs] bound one after the other with [Δlistener], with no
    capture flag and no target resolver. *)
Fixpoint bind_all (X : Externals) (eventName : string) (hs : list loc) : M unit :=
  match hs with
  | [] => ret tt
  | h :: hs' => Δlistener X eventName h None None ;; bind_all X eventName hs'
  end.

(** The ground on which handlers coalesce: the current node is an element of
    a view with a procedural renderer, in the first template pass; no output
    of the node is bound to the event; and the cleanup array of the template
    is made of blocks of four slots, none of which is yet an entry for this
    event on this node. *)
Record coalescing_ground (X : Externals) (s : State) (eventName : string)
    (lv : LView) (tv : TView) (tn : TNode) : Prop := {
  cg_lView : lviews s !! currentLView s = Some lv;
  cg_tView : tviews s !! TVIEW lv = Some tv;
  cg_tNode : tnodes s !! currentTNode s = Some tn;
  cg_element : type tn = Element;
  cg_procedural : isProceduralRenderer (RENDERER lv) = true;
  cg_first_pass : firstTemplatePass tv = true;
  cg_no_output : props_for X tn eventName = [];
  cg_blocks : exists k, length (default [] (cleanup tv)) = (4 * k)%nat;
  cg_unbound : forall k,
    entry_matches (default [] (cleanup tv)) eventName (index tn) (4 * k) = false
}.

(** The state after the first handler [h] has been bound on that ground:
    the closure (at the end of the heap) and its disposer, the call of
    [renderer.listen], and the cleanup entries. *)
Definition after_first_bind (X : Externals) (s : State) (eventName : string)
    (lv : LView) (tv : TView) (tn : TNode) (h : loc) : State :=
  let w := length (heap s) in
  let lCleanup := default [] (CLEANUP lv) in
  let tCleanup := default [] (cleanup tv) in
  {| heap := heap s
             ++ [{| kind := WrappedListener (currentTNode s) (currentLView s) (VRef h) false;
                    ngNextListenerFn := VUndef |};
                 {| kind := CleanupFn; ngNextListenerFn := VUndef |}];
     lviews := <[currentLView s := set_CLEANUP (Some (lCleanup ++ [VRef w; VRef (S w)])) lv]>
                 (lviews s);
     tviews := <[TVIEW lv :=
                   set_cleanup
                     (Some (tCleanup
                            ++ [VStr eventName; VNum (index tn);
                                VNum (Z.of_nat (length lCleanup));
                                VNum (Z.of_nat (length lCleanup) + 1)])) tv]>
                 (tviews s);
     tnodes := <[currentTNode s := outputs_cached X tn]> (tnodes s);
     currentLView := currentLView s;
     currentTNode := currentTNode s;
     ngDevMode := S <$> ngDevMode s;
     trace := trace s
              ++ [RendererListen (RENDERER lv) (TargetNode (getNativeByTNode X tn lv))
                    eventName (VRef w)] |}.

(** The state in which a run ended, if it ended. *)
Definition final_state {A} (r : Res A) : option State :=
  match r with
  | Done _ s | Raised _ s => Some s
  | OutOfFuel | Unmodelled => None
  end.

(** The error with which a run ended, if it ended by throwing. *)
Definition thrown {A} (r : Res A) : option JsError :=
  match r with
  | Raised error _ => Some error
  | _ => None
  end.

(** [never_throws c]: no run of [c] ends by throwing. *)
Definition never_throws {A} (c : M A) : Prop := forall s, thrown (c s) = None.

(** The calls that a dispatch makes: the dirty mark, the handlers, the error
    sink and the suppression of the default action. *)
Definition is_dispatch_call (ev : Effect) : bool :=
  match ev with
  | MarkViewDirty _ | HandlerCall _ _ | HandleError _ _
  | PreventDefault _ | SetReturnValueFalse _ => true
  | _ => false
  end.

(** From [s] to [s'] the trace has grown by calls of a dispatch only. *)
Definition only_calls (s s' : State) : Prop :=
  exists t, trace s' = trace s ++ t /\ forallb is_dispatch_call t = true.

(** The state after an install that has given a new closure to
    [renderer.listen], on an element none of whose outputs is bound to the
    event. *)
Definition after_listen (X : Externals) (s : State) (eventName : string)
    (lv : LView) (tv : TView) (tn : TNode) (listenerFn : loc)
    (eventTargetResolver : option GlobalTargetResolver)
    (loadRendererFn : option (TNode -> LView -> Renderer3)) : State :=
  let getter := getter_objects eventTargetResolver tn in
  let w := (length (heap s) + length getter)%nat in
  let lCleanup := default [] (CLEANUP lv) in
  {| heap := heap s ++ getter
             ++ [{| kind := WrappedListener (currentTNode s) (currentLView s)
                              (VRef listenerFn) false;
                    ngNextListenerFn := VUndef |};
                 {| kind := CleanupFn; ngNextListenerFn := VUndef |}];
     lviews := <[currentLView s := set_CLEANUP (Some (lCleanup ++ [VRef w; VRef (S w)])) lv]>
                 (lviews s);
     tviews := if firstTemplatePass tv
               then <[TVIEW lv :=
                        set_cleanup
                          (Some (default [] (cleanup tv)
                                 ++ [VStr eventName;
                                     idx_or_getter eventTargetResolver tn (heap s);
                                     VNum (Z.of_nat (length lCleanup));
                                     VNum (Z.of_nat (length lCleanup) + 1)])) tv]>
                      (tviews s)
               else tviews s;
     tnodes := <[currentTNode s := outputs_cached X tn]> (tnodes s);
     currentLView := currentLView s;
     currentTNode := currentTNode s;
     ngDevMode := S <$> ngDevMode s;
     trace := trace s
              ++ [RendererListen (renderer_of loadRendererFn tn lv)
                    (listen_on X eventTargetResolver tn lv) eventName (VRef w)] |}.

(** The state after an install that has attached a new closure with
    [addEventListener], on an element none of whose outputs is bound to the
    event. *)
Definition after_direct (X : Externals) (s : State) (eventName : string)
    (lv : LView) (tv : TView) (tn : TNode) (listenerFn : loc) (useCapture : bool)
    (eventTargetResolver : option GlobalTargetResolver) : State :=
  let getter := getter_objects eventTargetResolver tn in
  let w := (length (heap s) + length getter)%nat in
  let lCleanup := default [] (CLEANUP lv) in
  {| heap := heap s ++ getter
             ++ [{| kind := WrappedListener (currentTNode s) (currentLView s)
                              (VRef listenerFn) true;
                    ngNextListenerFn := VUndef |}];
     lviews := <[currentLView s := set_CLEANUP (Some (lCleanup ++ [VRef w])) lv]>
                 (lviews s);
     tviews := if firstTemplatePass tv
               then <[TVIEW lv :=
                        set_cleanup
                          (Some (default [] (cleanup tv)
                                 ++ [VStr eventName;
                                     idx_or_getter eventTargetResolver tn (heap s);
                                     VNum (Z.of_nat (length lCleanup));
                                     VBool useCapture])) tv]>
                      (tviews s)
               else tviews s;
     tnodes := <[currentTNode s := outputs_cached X tn]> (tnodes s);
     currentLView := currentLView s;
     currentTNode := currentTNode s;
     ngDevMode := S <$> ngDevMode s;
     trace := trace s
              ++ [AddEventListener (target_of X eventTargetResolver tn lv) eventName
                    (VRef w) useCapture] |}.

(** The ground on which nothing coalesces: the current node is an element of
    a view without a procedural renderer, and no output of the node is bound
    to the event. *)
Record direct_ground (X : Externals) (s : State) (eventName : string)
    (lv : LView) (tv : TView) (tn : TNode) : Prop := {
  dg_lView : lviews s !! currentLView s = Some lv;
  dg_tView : tviews s !! TVIEW lv = Some tv;
  dg_tNode : tnodes s !! currentTNode s = Some tn;
  dg_element : type tn = Element;
  dg_direct : isProceduralRenderer (RENDERER lv) = false;
  dg_no_output : props_for X tn eventName = []
}.

(** The closure that wraps [h] for [addEventListener], with nothing chained
    behind it, and the call that attaches the closure [w]. *)
Definition direct_closure (tNode lView : nat) (h : loc) : Obj :=
  {| kind := WrappedListener tNode lView (VRef h) true; ngNextListenerFn := VUndef |}.

Definition attached (eventName : string) (ev : Effect) (w : loc) : Prop :=
  exists on, ev = AddEventListener on eventName (VRef w) false.

(** A later view of a template whose first pass is over, at the point of its
    creation where the first pass recorded a listener for the event on the
    node: the entry is the first that matches, at block [k] of an array
    [tCleanup], and the index it records is the next free position of the
    cleanup array of this view. *)
Record replay_ground (X : Externals) (s : State) (eventName : string)
    (lv : LView) (tv : TView) (tn : TNode) (tCleanup : list JsVal) (k : nat) : Prop := {
  rg_lView : lviews s !! currentLView s = Some lv;
  rg_tView : tviews s !! TVIEW lv = Some tv;
  rg_tNode : tnodes s !! currentTNode s = Some tn;
  rg_element : type tn = Element;
  rg_procedural : isProceduralRenderer (RENDERER lv) = true;
  rg_later_pass : firstTemplatePass tv = false;
  rg_no_output : props_for X tn eventName = [];
  rg_cleanup : cleanup tv = Some tCleanup;
  rg_entry : entry_matches tCleanup eventName (index tn) (4 * k) = true;
  rg_first : forall k', (k' < k)%nat ->
    entry_matches tCleanup eventName (index tn) (4 * k') = false;
  rg_index :
    array_at tCleanup (4 * k + 2) = VNum (Z.of_nat (length (default [] (CLEANUP lv))))
}.

(** The state of that later view after the handler [h1] has been bound:
    the closure, its disposer and the call of [renderer.listen], with the
    template left as it was. *)
Definition after_replay (X : Externals) (s : State) (eventName : string)
    (lv : LView) (tn : TNode) (h1 : loc) : State :=
  let w := length (heap s) in
  let lCleanup := default [] (CLEANUP lv) in
  {| heap := heap s
             ++ [{| kind := WrappedListener (currentTNode s) (currentLView s) (VRef h1) false;
                    ngNextListenerFn := VUndef |};
                 {| kind := CleanupFn; ngNextListenerFn := VUndef |}];
     lviews := <[currentLView s := set_CLEANUP (Some (lCleanup ++ [VRef w; VRef (S w)])) lv]>
                 (lviews s);
     tviews := tviews s;
     tnodes := <[currentTNode s := outputs_cached X tn]> (tnodes s);
     currentLView := currentLView s;
     currentTNode := currentTNode s;
     ngDevMode := S <$> ngDevMode s;
     trace := trace s
              ++ [RendererListen (RENDERER lv) (TargetNode (getNativeByTNode X tn lv))
                    eventName (VRef w)] |}.

(** The counter of [ngDevMode] has advanced by the number of native
    registrations that the trace has grown by. *)
Definition counts_native (s s' : State) : Prop :=
  exists t,
    trace s' = trace s ++ t
    /\ ngDevMode s'
       = (fun n => (n + length (List.filter is_native t))%nat) <$> ngDevMode s.

(** What an install on the view [lView] of the template [tView] does to the
    cleanup arrays: it may append to the array of the view and, when
    [tCleanup] is set, to the array of the template; an array that exists
    stays; and it writes no other view or template, and nothing else of
    these two. *)
Definition cleanup_grows (lView tView : nat) (tCleanup : bool) (s s' : State) : Prop :=
  (forall i lv, lviews s !! i = Some lv ->
     exists lv', lviews s' !! i = Some lv' /\ same_view lv lv'
       /\ default [] (CLEANUP lv) `prefix_of` default [] (CLEANUP lv')
       /\ (i <> lView -> lv' = lv))
  /\ (forall i tv, tviews s !! i = Some tv ->
        exists tv', tviews s' !! i = Some tv'
          /\ firstTemplatePass tv' = firstTemplatePass tv
          /\ default [] (cleanup tv) `prefix_of` default [] (cleanup tv')
          /\ (is_Some (cleanup tv) -> is_Some (cleanup tv'))
          /\ (i <> tView -> tv' = tv))
  /\ (tCleanup = false -> tviews s' = tviews s).

(** The nodes are as they were. *)
Definition same_nodes (s s' : State) : Prop := tnodes s' = tnodes s.

(** The entries that the subscriptions of [n] outputs add to the cleanup
    array of the template, the first of them for the position [base] of the
    cleanup array of the view: event name, node index, position of the
    listener, and minus the position of its subscription. *)
Fixpoint output_entries (eventName : string) (tNodeIndex : Z) (n : nat) (base : Z)
    : list JsVal :=
  match n with
  | O => []
  | S n' =>
      [VStr eventName; VNum tNodeIndex; VNum base; VNum (- (base + 1))]
      ++ output_entries eventName tNodeIndex n' (base + 2)
  end.

End Spec.
Export Spec.

(** ** Sample views *)

Module Sample.

(** The two flag bits, and accessors for a view whose node [n] has the
    native node [n] and whose component view is the view 1. *)
Definition X0 : Externals :=
  {| isComponent := 1;
     ManualOnPush := 16;
     getComponentViewByIndex := fun _ _ => 1%nat;
     getNativeByTNode := fun tn _ => Z.to_nat (index tn);
     generatePropertyAliases := fun _ => None;
     loadComponentRenderer := fun _ lv => RENDERER lv |}.

Definition returns (v : JsVal) : Event -> completion JsVal := fun _ => Normal v.
Definition throws (tag : nat) : Event -> completion JsVal := fun _ => Throw (UserError tag).

Definition function (body : Event -> completion JsVal) : Obj :=
  {| kind := UserFunction body; ngNextListenerFn := VUndef |}.
Definition object (k : ObjKind) : Obj := {| kind := k; ngNextListenerFn := VUndef |}.

Definition button : TNode :=
  {| index := 20; type := Element; flags := 0; outputs := OutputsNull |}.
Definition anchor : TNode :=
  {| index := 20; type := Container; flags := 0; outputs := OutputsNull |}.

Definition view (renderer : Renderer3) (slots0 : list JsVal) : LView :=
  {| TVIEW := 0; FLAGS := 0; RENDERER := renderer; CLEANUP := None; slots := slots0 |}.
Definition template : TView := {| cleanup := None; firstTemplatePass := true |}.

Definition state (h : list Obj) (lv : LView) (tv : TView) (tn : TNode)
    (dev : option nat) : State :=
  {| heap := h; lviews := [lv]; tviews := [tv]; tnodes := [tn];
     currentLView := 0; currentTNode := 0; ngDevMode := dev; trace := [] |}.

(** Three handlers H1, H2, H3 (objects 0, 1, 2) and a button in a new view
    with a procedural renderer. *)
Definition handlers : list Obj :=
  [function (returns VUndef); function (returns VUndef); function (returns VUndef)].
Definition fresh : State :=
  state handlers (view (ProceduralRenderer3 0) []) template button None.

(** The same view without a procedural renderer. *)
Definition fresh_dom : State :=
  state handlers (view (ObjectOrientedRenderer3 0) []) template button None.

(** The same on a container node. *)
Definition on_container : State :=
  state handlers (view (ProceduralRenderer3 0) []) template anchor None.

(** The same button in a view that has registered one destroy hook before:
    the hook (object 3) and its position in the cleanup array of the view
    fill a block of two slots in the cleanup array of the template, and the
    context of the hook (object 4) one slot in that of the view. *)
Definition with_destroy_hook : State :=
  state (handlers ++ [function (returns VUndef); object PlainObject])
    {| TVIEW := 0; FLAGS := 0; RENDERER := ProceduralRenderer3 0;
       CLEANUP := Some [VRef 4%nat]; slots := [] |}
    {| cleanup := Some [VRef 3%nat; VNum 0]; firstTemplatePass := true |}
    button None.

(** A button with a directive (object 1, in slot 0 of the view) whose
    property [clk] is the output [click]: an event emitter (object 2) in
    [with_output], nothing in [with_missing_output]. *)
Definition click_alias : OutputAlias :=
  {| directiveIndex := 0; publicName := "click"; minifiedName := "clk" |}.
Definition directed (tn : TNode) : TNode :=
  {| index := index tn; type := type tn; flags := flags tn;
     outputs := OutputsOf {[ "click"%string := [click_alias] ]} |}.

Definition with_output : State :=
  state [function (returns VUndef);
         object (Directive "ClickDirective" {[ "clk"%string := VRef 2%nat ]});
         object Observable]
    (view (ProceduralRenderer3 0) [VRef 1%nat]) template (directed button) None.

Definition with_missing_output (dev : option nat) : State :=
  state [function (returns VUndef); object (Directive "ClickDirective" ∅)]
    (view (ProceduralRenderer3 0) [VRef 1%nat]) template (directed button) dev.

(** A listener attached directly (object 2) that wraps H1 (object 0, which
    returns true), with H2 (object 1, which throws) chained behind it. *)
Definition bound : State :=
  state [function (returns (VBool true));
         function (throws 1);
         {| kind := WrappedListener 0 0 (VRef 0%nat) true;
            ngNextListenerFn := VRef 1%nat |}]
    (view (ObjectOrientedRenderer3 0) []) template button None.

(** [on_container] after an install: the cleanup array of the template
    exists, and nothing else has changed. *)
Definition container_after : State :=
  state handlers (view (ProceduralRenderer3 0) [])
    {| cleanup := Some []; firstTemplatePass := true |} anchor None.

(** The same view under [ngDevMode], its counter at 0. *)
Definition fresh_dev : State :=
  state handlers (view (ProceduralRenderer3 0) []) template button (Some 0%nat).

(** A later view of the same template, once the first pass has recorded a
    click listener on the button. *)
Definition later_view : State :=
  state handlers (view (ProceduralRenderer3 0) [])
    {| cleanup := Some [VStr "click"; VNum 20; VNum 0; VNum 1];
       firstTemplatePass := false |}
    button None.

(** A resolver for the global target [document]. *)
Definition on_document : GlobalTargetResolver :=
  fun _ => {| name := Some "document"%string; target := None |}.




(** [with_output] with a second handler H2 (object 3). *)
Definition with_output_two : State :=
  state [function (returns VUndef);
         object (Directive "ClickDirective" {[ "clk"%string := VRef 2%nat ]});
         object Observable;
         function (returns VUndef)]
    (view (ProceduralRenderer3 0) [VRef 1%nat]) template (directed button) None.

End Sample.

(** * Properties *)

(** ** The coalescing lookup *)

Section LookupFacts.

Variables (tCleanup : list JsVal) (lCleanup : option (list JsVal)).
Variables (eventName : string) (tNodeIdx : Z).

Lemma entry_matches_in_range i :
  entry_matches tCleanup eventName tNodeIdx i = true ->
  (i + 1 < length tCleanup)%nat.
Proof.
  unfold entry_matches, strict_eq, array_at.
  intros H. apply andb_true_iff in H as [_ H].
  apply bool_decide_eq_true in H.
  destruct (tCleanup !! (i + 1)%nat) eqn:E; [|discriminate].
  by apply lookup_lt_Some in E.
Qed.

(** The loop started at a multiple of four only ever tests multiples of
    four: with no match there, it runs off the end of the array. *)
Lemma loop_without_match fuel : forall m,
  (forall k, (m <= k)%nat -> entry_matches tCleanup eventName tNodeIdx (4 * k) = false) ->
  (0 < fuel)%nat ->
  (length tCleanup + 4 <= 4 * m + 4 * fuel)%nat ->
  findExistingListener_loop fuel tCleanup lCleanup eventName tNodeIdx (4 * m)
  = Some (Normal VNull).
Proof.
  induction fuel as [|fuel IH]; intros m Hno Hpos Hfuel; [lia|].
  cbn [findExistingListener_loop].
  destruct (Z.of_nat (4 * m) <? Z.of_nat (length tCleanup) - 1) eqn:Hlt; [|done].
  rewrite (Hno m) by lia.
  replace (4 * m + 2 + 2)%nat with (4 * S m)%nat by lia.
  apply Z.ltb_lt in Hlt.
  apply IH; [intros k Hk; apply Hno; lia | lia | lia].
Qed.

(** It stops at the first multiple of four that matches. *)
Lemma loop_first_match fuel : forall m k,
  (m <= k)%nat ->
  entry_matches tCleanup eventName tNodeIdx (4 * k) = true ->
  (forall k', (m <= k')%nat -> (k' < k)%nat ->
              entry_matches tCleanup eventName tNodeIdx (4 * k') = false) ->
  (k < m + fuel)%nat ->
  findExistingListener_loop fuel tCleanup lCleanup eventName tNodeIdx (4 * m)
  = Some (existing_at tCleanup lCleanup (4 * k)).
Proof.
  induction fuel as [|fuel IH]; intros m k Hmk Hk Hno Hfuel; [lia|].
  cbn [findExistingListener_loop].
  pose proof (entry_matches_in_range _ Hk) as Hrange.
  destruct (Z.of_nat (4 * m) <? Z.of_nat (length tCleanup) - 1) eqn:Hlt;
    [|apply Z.ltb_ge in Hlt; lia].
  destruct (decide (m = k)) as [->|Hne].
  - by rewrite Hk.
  - rewrite (Hno m) by lia.
    replace (4 * m + 2 + 2)%nat with (4 * S m)%nat by lia.
    apply IH; [lia | done | intros k' ? ?; apply Hno; lia | lia].
Qed.

(** The loop always ends within the fuel [findExistingListener_in] gives. *)
Lemma loop_total fuel : forall i,
  (0 < fuel)%nat ->
  (length tCleanup + 4 <= i + 4 * fuel)%nat ->
  is_Some (findExistingListener_loop fuel tCleanup lCleanup eventName tNodeIdx i).
Proof.
  induction fuel as [|fuel IH]; intros i Hpos Hfuel; [lia|].
  cbn [findExistingListener_loop].
  destruct (Z.of_nat i <? Z.of_nat (length tCleanup) - 1) eqn:Hlt; [|by eexists].
  destruct (entry_matches tCleanup eventName tNodeIdx i); [by eexists|].
  apply Z.ltb_lt in Hlt.
  apply IH; lia.
Qed.

End LookupFacts.

Lemma findExistingListener_in_total tCleanup lCleanup eventName tNodeIdx :
  is_Some (findExistingListener_in tCleanup lCleanup eventName tNodeIdx).
Proof.
  destruct tCleanup as [tc|]; cbn [findExistingListener_in]; [|by eexists].
  apply loop_total; lia.
Qed.

(** C10. [findExistingListener] compares the pair (event name, node index)
    only at positions of the template cleanup array that are multiples of
    four, since every entry that does not match moves it four slots on,
    whether the entry has two slots or four.  So (1) when no multiple of four
    matches, the answer is null, whatever lies at the other positions: a
    listener entry that begins elsewhere is never found; (2) the answer is read
    off the first multiple of four that matches; and (3) when the index
    recorded there is not yet populated in the cleanup array of this view, the
    answer is null. *)
Theorem C10_lookup_strides_by_four (tCleanup lCleanup : list JsVal)
    (eventName : string) (tNodeIdx : Z) :
  ((forall k, entry_matches tCleanup eventName tNodeIdx (4 * k) = false) ->
   findExistingListener_in (Some tCleanup) (Some lCleanup) eventName tNodeIdx
   = Some (Normal VNull))
  /\ (forall k,
        entry_matches tCleanup eventName tNodeIdx (4 * k) = true ->
        (forall k', (k' < k)%nat ->
                    entry_matches tCleanup eventName tNodeIdx (4 * k') = false) ->
        findExistingListener_in (Some tCleanup) (Some lCleanup) eventName tNodeIdx
        = Some (existing_at tCleanup (Some lCleanup) (4 * k)))
  /\ (forall k n,
        entry_matches tCleanup eventName tNodeIdx (4 * k) = true ->
        (forall k', (k' < k)%nat ->
                    entry_matches tCleanup eventName tNodeIdx (4 * k') = false) ->
        array_at tCleanup (4 * k + 2) = VNum n ->
        Z.of_nat (length lCleanup) <= n ->
        findExistingListener_in (Some tCleanup) (Some lCleanup) eventName tNodeIdx
        = Some (Normal VNull)).
Proof.
  assert (Hfirst : forall k,
    entry_matches tCleanup eventName tNodeIdx (4 * k) = true ->
    (forall k', (k' < k)%nat ->
                entry_matches tCleanup eventName tNodeIdx (4 * k') = false) ->
    findExistingListener_in (Some tCleanup) (Some lCleanup) eventName tNodeIdx
    = Some (existing_at tCleanup (Some lCleanup) (4 * k))).
  { intros k Hk Hno. cbn [findExistingListener_in].
    pose proof (entry_matches_in_range _ _ _ _ Hk).
    apply (loop_first_match _ _ _ _ _ 0 k); [lia | done | intros; apply Hno; lia | lia]. }
  split; [|split].
  - intros Hno. cbn [findExistingListener_in].
    apply (loop_without_match _ _ _ _ _ 0); [intros; apply Hno | lia | lia].
  - exact Hfirst.
  - intros k n Hk Hno Hidx Hlen. rewrite (Hfirst k Hk Hno).
    unfold existing_at. rewrite Hidx. unfold num_gt. cbn [to_number].
    destruct (n <? Z.of_nat (length lCleanup)) eqn:Hlt; [|done].
    apply Z.ltb_lt in Hlt. lia.
Qed.

(** ** Dispatch through a wrapped listener *)

Section DispatchFacts.

Variable X : Externals.

Lemma with_trace_trace t s : trace (with_trace t s) = t.
Proof. done. Qed.

(** One user handler under error isolation. *)
Lemma execute_user_handler fuel lView r body next e s :
  heap s !! r = Some {| kind := UserFunction body; ngNextListenerFn := next |} ->
  executeListenerWithErrorHandling (invoke X (S fuel)) lView (VRef r) e s
  = Done (handler_result e (r, body))
      (with_trace (trace s ++ handler_events lView e (r, body)) s).
Proof.
  intros Hr.
  unfold executeListenerWithErrorHandling, try_catch, handler_result, handler_events.
  cbn [invoke]. unfold bind at 1, readObj. rewrite Hr. cbn.
  unfold with_trace. cbn.
  destruct (body e); cbn; [done|].
  unfold ret. by rewrite <- app_assoc.
Qed.

(** The [while] loop over a chain of user handlers. *)
Lemma walk_chain_spec k lView e h next chain :
  handler_chain h next chain ->
  forall fuel s result,
    heap s = h ->
    (length chain < fuel)%nat ->
    walk_chain (invoke X (S k)) fuel lView e next result s
    = Done (last_result e result chain)
        (with_trace (trace s ++ flat_map (handler_events lView e) chain) s).
Proof.
  induction 1 as [v Hv | r body next rest Hr Hrest IH];
    intros fuel s result Hheap Hfuel.
  - destruct fuel; [cbn in Hfuel; lia|].
    cbn. rewrite Hv. unfold ret, with_trace. rewrite app_nil_r. by destruct s.
  - destruct fuel; [cbn in Hfuel; lia|].
    cbn [walk_chain truthy]. unfold bind at 1.
    rewrite (execute_user_handler k lView r body next e s) by (by rewrite Hheap).
    unfold bind at 1. cbn [get_next]. unfold bind at 1, readObj.
    cbn [heap with_trace]. rewrite Hheap, Hr. cbn [of_option ret].
    rewrite (IH fuel _ (handler_result e (r, body))); [|done|cbn in Hfuel; lia].
    f_equal.
    + unfold last_result. cbn [last]. destruct rest as [|hd rest']; [done|].
      destruct (proj2 (last_is_Some (hd :: rest'))) as [x Hx]; [done|].
      cbn [last] in *. by rewrite Hx.
    + unfold with_trace. cbn. by rewrite <- app_assoc.
Qed.

(** One dispatch through a wrapped listener: it returns, with the result of
    the handler invoked last, and its calls are the dirty mark, then each
    handler (with its error, if it throws), then the suppression. *)
Lemma dispatch_spec s w tNode lView tn lv pd first rest e fuel :
  wrapped_listener s w tNode lView tn lv pd first rest ->
  (length rest + 2 <= fuel)%nat ->
  invoke X fuel (VRef w) e s
  = Done (last_result e VUndef (first :: rest))
      (with_trace (trace s ++ dispatch_trace X lView tn lv pd e (first :: rest)) s).
Proof.
  intros [[next [Hw Hchain]] [next1 Hfirst] Htn Hlv] Hfuel.
  destruct fuel as [|[|k]]; [lia | lia |].
  cbn [invoke]. unfold bind at 1, readObj. rewrite Hw. cbn [of_option ret kind].
  unfold wrapListenerIn_markDirtyAndPreventDefault.
  unfold bind at 1, readTNode. rewrite Htn. cbn [of_option ret].
  unfold bind at 1, readLView. rewrite Hlv. cbn [of_option ret].
  set (marks := dispatch_marks X lView tn lv).
  assert (Hmark :
    when (Z.land (FLAGS lv) (ManualOnPush X) =? 0)
      (emit (MarkViewDirty (if negb (Z.land (flags tn) (isComponent X) =? 0)
                            then getComponentViewByIndex X (index tn) lv
                            else lView))) s
    = Done tt (with_trace (trace s ++ marks) s)).
  { subst marks. unfold dispatch_marks, manual_on_push, is_component_host, when.
    destruct (Z.land (FLAGS lv) (ManualOnPush X) =? 0); cbn; [done|].
    unfold ret, with_trace. rewrite app_nil_r. by destruct s. }
  unfold bind at 1. rewrite Hmark. clear Hmark.
  unfold bind at 1.
  destruct first as [h0 body0]. cbn [fst snd] in *.
  rewrite (execute_user_handler k lView h0 body0 next1 e) by done.
  unfold bind at 1. cbn [get_next]. unfold bind at 1, readObj.
  cbn [heap with_trace]. rewrite Hw. cbn [of_option ret ngNextListenerFn].
  unfold bind at 1.
  rewrite (walk_chain_spec k lView e (heap s) next rest Hchain); [|done|lia].
  cbn [trace with_trace].
  set (result := last_result e (handler_result e (h0, body0)) rest).
  assert (Hres : last_result e VUndef ((h0, body0) :: rest) = result).
  { subst result. unfold last_result. cbn [last].
    destruct rest as [|hd rest']; [done|].
    destruct (proj2 (last_is_Some (hd :: rest'))) as [x Hx]; [done|].
    cbn [last] in *. by rewrite Hx. }
  unfold dispatch_trace. rewrite Hres. unfold dispatch_suppression.
  unfold when, bind at 1.
  destruct (pd && strict_eq result (VBool false)); cbn;
    unfold ret, with_trace; cbn; f_equal; f_equal;
    rewrite <- ?app_assoc; cbn; by rewrite ?app_nil_r.
Qed.

End DispatchFacts.

(** ** Running the store accessors *)

Section StoreFacts.

Lemma bind_done {A B} (c : M A) (k : A -> M B) s a s' :
  c s = Done a s' -> bind c k s = k a s'.
Proof. unfold bind. by intros ->. Qed.

Lemma bind_raised {A B} (c : M A) (k : A -> M B) s e s' :
  c s = Raised e s' -> bind c k s = Raised e s'.
Proof. unfold bind. by intros ->. Qed.

Lemma readLView_done s id v :
  lviews s !! id = Some v -> readLView id s = Done v s.
Proof. unfold readLView. by intros ->. Qed.

Lemma readTView_done s id v :
  tviews s !! id = Some v -> readTView id s = Done v s.
Proof. unfold readTView. by intros ->. Qed.

Lemma readTNode_done s id v :
  tnodes s !! id = Some v -> readTNode id s = Done v s.
Proof. unfold readTNode. by intros ->. Qed.

Lemma readObj_done s r o :
  heap s !! r = Some o -> readObj r s = Done o s.
Proof. unfold readObj. by intros ->. Qed.

Lemma set_CLEANUP_same v c : CLEANUP v = Some c -> set_CLEANUP (Some c) v = v.
Proof. destruct v; cbn; by intros ->. Qed.

Lemma with_lviews_same s : with_lviews (lviews s) s = s.
Proof. by destruct s. Qed.

(** [getCleanup] leaves an array in the view and returns its content. *)
Lemma getCleanup_done s id v :
  lviews s !! id = Some v ->
  getCleanup id s
  = Done (default [] (CLEANUP v))
      (with_lviews (<[id := set_CLEANUP (Some (default [] (CLEANUP v))) v]> (lviews s)) s).
Proof.
  intros Hv. unfold getCleanup.
  rewrite (bind_done _ _ _ _ _ (readLView_done _ _ _ Hv)).
  destruct (CLEANUP v) as [c|] eqn:Hc; simpl.
  - rewrite (set_CLEANUP_same _ _ Hc), (list_insert_id _ _ _ Hv).
    by rewrite with_lviews_same.
  - done.
Qed.

Lemma lCleanup_push_done s id v c items :
  lviews s !! id = Some v ->
  CLEANUP v = Some c ->
  lCleanup_push id items s
  = Done tt (with_lviews (<[id := set_CLEANUP (Some (c ++ items)) v]> (lviews s)) s).
Proof.
  intros Hv Hc. unfold lCleanup_push.
  rewrite (bind_done _ _ _ _ _ (readLView_done _ _ _ Hv)). by rewrite Hc.
Qed.

Lemma tCleanup_push_done s id t c items :
  tviews s !! id = Some t ->
  cleanup t = Some c ->
  tCleanup_push true id items s
  = Done tt (with_tviews (<[id := set_cleanup (Some (c ++ items)) t]> (tviews s)) s).
Proof.
  intros Ht Hc. unfold tCleanup_push, when.
  rewrite (bind_done _ _ _ _ _ (readTView_done _ _ _ Ht)). by rewrite Hc.
Qed.

Lemma tCleanup_push_skip s id items : tCleanup_push false id items s = Done tt s.
Proof. done. Qed.

Lemma emit_done ev s : emit ev s = Done tt (with_trace (trace s ++ [ev]) s).
Proof. done. Qed.

Lemma count_done s :
  count_rendererAddEventListener s = Done tt (with_ngDevMode (S <$> ngDevMode s) s).
Proof. done. Qed.

Lemma wrapListener_done tNode lView listenerFn pd s :
  wrapListener tNode lView listenerFn pd s
  = Done (VRef (length (heap s)))
      (with_heap (heap s ++ [{| kind := WrappedListener tNode lView listenerFn pd;
                                ngNextListenerFn := VUndef |}]) s).
Proof. done. Qed.

Lemma renderer_listen_done renderer on eventName listenerFn s :
  renderer_listen renderer on eventName listenerFn s
  = Done (VRef (length (heap s)))
      (with_heap (heap s ++ [{| kind := CleanupFn; ngNextListenerFn := VUndef |}])
         (with_trace (trace s ++ [RendererListen renderer on eventName listenerFn]) s)).
Proof. done. Qed.

Lemma get_next_done s r o :
  heap s !! r = Some o -> get_next (VRef r) s = Done (ngNextListenerFn o) s.
Proof. intros Hr. cbn [get_next]. by rewrite (bind_done _ _ _ _ _ (readObj_done _ _ _ Hr)). Qed.

Lemma set_next_done s r o x :
  heap s !! r = Some o ->
  set_next (VRef r) x s
  = Done tt (with_heap (<[r := {| kind := kind o; ngNextListenerFn := x |}]> (heap s)) s).
Proof. intros Hr. cbn [set_next]. by rewrite (bind_done _ _ _ _ _ (readObj_done _ _ _ Hr)). Qed.

End StoreFacts.

Ltac run_with lem := erewrite bind_done; [| apply lem]; cbv beta.

(** ** The native step of an install *)

Section NativeFacts.

Variable X : Externals.

Variables (s : State) (lView tNode tView : nat) (tn : TNode) (lv : LView) (tv : TView).
Variables (tCleanup : bool) (eventName : string) (listenerFn : JsVal)
  (useCapture : bool) (eventTargetResolver : option GlobalTargetResolver)
  (loadRendererFn : option (TNode -> LView -> Renderer3)).

Hypothesis Htn : tnodes s !! tNode = Some tn.
Hypothesis Hlv : lviews s !! lView = Some lv.
Hypothesis Htv : tviews s !! tView = Some tv.
Hypothesis Htc : tCleanup = true -> is_Some (cleanup tv).

Let lCleanup := default [] (CLEANUP lv).
Let w := (length (heap s) + length (getter_objects eventTargetResolver tn))%nat.

(** The state when the branches on the renderer are reached. *)
Let s1 : State :=
  with_lviews (<[lView := set_CLEANUP (Some lCleanup) lv]> (lviews s))
    (with_heap (heap s ++ getter_objects eventTargetResolver tn) s).

Lemma lookup_s1 : lviews s1 !! lView = Some (set_CLEANUP (Some lCleanup) lv).
Proof. apply list_lookup_insert_eq. by eapply lookup_lt_Some. Qed.

Lemma length_heap_s1 : length (heap s1) = w.
Proof. subst s1 w. cbn. by rewrite length_app. Qed.

Ltac native_start :=
  unfold addNativeListener;
  rewrite (bind_done _ _ _ _ _ (readTNode_done _ _ _ Htn));
  rewrite (bind_done _ _ _ _ _ (readLView_done _ _ _ Hlv));
  rewrite (bind_done _ _ _ _ _ (getCleanup_done _ _ _ Hlv));
  fold lCleanup;
  match goal with
  | |- bind ?c _ _ = _ =>
      rewrite (bind_done c _ _ (idx_or_getter eventTargetResolver tn (heap s)) s1)
  end;
  [| subst s1; destruct eventTargetResolver; cbn;
     [done | unfold ret, with_heap, with_lviews; cbn; by rewrite app_nil_r]].

Ltac native_finish :=
  destruct tCleanup;
  [ destruct (Htc eq_refl) as [c Hc];
    erewrite bind_done; [| by eapply tCleanup_push_done; [exact Htv | exact Hc] ];
    unfold ret, tviews_pushed; rewrite Hc
  | rewrite (bind_done _ _ _ _ _ (tCleanup_push_skip _ _ _));
    unfold ret, tviews_pushed ];
  f_equal; subst s1;
  unfold with_trace, with_ngDevMode, with_tviews, with_lviews, with_heap;
  cbn; rewrite list_insert_insert_eq, <- !app_assoc; done.

(** Without a procedural renderer: the handler is wrapped with the default
    action suppressed on a false result, and attached to the target. *)
Lemma addNativeListener_direct :
  isProceduralRenderer (renderer_of loadRendererFn tn lv) = false ->
  addNativeListener X lView tNode tView tCleanup eventName listenerFn useCapture
    eventTargetResolver loadRendererFn s
  = Done (VRef w)
      (with_trace
         (trace s ++ [AddEventListener (target_of X eventTargetResolver tn lv)
                        eventName (VRef w) useCapture])
      (with_ngDevMode (S <$> ngDevMode s)
      (with_tviews
         (tviews_pushed tCleanup tView tv
            [VStr eventName; idx_or_getter eventTargetResolver tn (heap s);
             VNum (Z.of_nat (length lCleanup)); VBool useCapture] (tviews s))
      (with_lviews
         (<[lView := set_CLEANUP (Some (lCleanup ++ [VRef w])) lv]> (lviews s))
      (with_heap
         (heap s ++ getter_objects eventTargetResolver tn
          ++ [{| kind := WrappedListener tNode lView listenerFn true;
                 ngNextListenerFn := VUndef |}]) s))))).
Proof.
  intros Hdirect. native_start. rewrite Hdirect.
  run_with wrapListener_done. rewrite length_heap_s1.
  run_with emit_done. run_with count_done.
  erewrite bind_done; [| by eapply lCleanup_push_done; [apply lookup_s1|] ].
  native_finish.
Qed.

Lemma findExistingListener_run v :
  TVIEW lv = tView ->
  findExistingListener_in (cleanup tv) (Some lCleanup) eventName (index tn)
  = Some (Normal v) ->
  findExistingListener lView eventName (index tn) s1 = Done v s1.
Proof.
  intros HtView Hfind. unfold findExistingListener.
  rewrite (bind_done _ _ _ _ _ (readLView_done _ _ _ lookup_s1)).
  cbn [TVIEW set_CLEANUP]. rewrite HtView.
  rewrite (bind_done _ _ _ _ _ (readTView_done s1 _ _ Htv)).
  cbn [CLEANUP set_CLEANUP]. by rewrite Hfind.
Qed.

(** With a procedural renderer and nothing to coalesce onto: the handler is
    wrapped, without suppression, and given to [renderer.listen]. *)
Lemma addNativeListener_listen :
  isProceduralRenderer (renderer_of loadRendererFn tn lv) = true ->
  TVIEW lv = tView ->
  (eventTargetResolver = None ->
   findExistingListener_in (cleanup tv) (Some lCleanup) eventName (index tn)
   = Some (Normal VNull)) ->
  addNativeListener X lView tNode tView tCleanup eventName listenerFn useCapture
    eventTargetResolver loadRendererFn s
  = Done (VRef w)
      (with_trace
         (trace s ++ [RendererListen (renderer_of loadRendererFn tn lv)
                        (listen_on X eventTargetResolver tn lv) eventName (VRef w)])
      (with_ngDevMode (S <$> ngDevMode s)
      (with_tviews
         (tviews_pushed tCleanup tView tv
            [VStr eventName; idx_or_getter eventTargetResolver tn (heap s);
             VNum (Z.of_nat (length lCleanup));
             VNum (Z.of_nat (length lCleanup) + 1)] (tviews s))
      (with_lviews
         (<[lView := set_CLEANUP (Some (lCleanup ++ [VRef w; VRef (S w)])) lv]>
            (lviews s))
      (with_heap
         (heap s ++ getter_objects eventTargetResolver tn
          ++ [{| kind := WrappedListener tNode lView listenerFn false;
                 ngNextListenerFn := VUndef |};
              {| kind := CleanupFn; ngNextListenerFn := VUndef |}]) s))))).
Proof.
  intros Hproc HtView Hfresh. native_start. rewrite Hproc.
  match goal with
  | |- bind ?c _ _ = _ => rewrite (bind_done c _ _ VNull s1)
  end.
  2:{ pose proof (findExistingListener_run VNull HtView) as Hrun.
      destruct eventTargetResolver; [done | by apply Hrun, Hfresh]. }
  change (strict_eq VNull VNull) with true. cbn [negb].
  run_with wrapListener_done. rewrite length_heap_s1.
  run_with renderer_listen_done.
  cbn [heap with_heap with_trace]. rewrite length_app, length_heap_s1.
  cbn [length]. replace (w + 1)%nat with (S w) by lia.
  run_with count_done.
  erewrite bind_done; [| by eapply lCleanup_push_done; [apply lookup_s1|] ].
  native_finish.
Qed.

(** With a procedural renderer, no target resolver, and a listener [r] that
    the lookup finds: the new handler [f] is linked after [r], ahead of what
    was chained there, and nothing is registered. *)
Lemma addNativeListener_coalesce r f o_r o_f :
  isProceduralRenderer (renderer_of loadRendererFn tn lv) = true ->
  TVIEW lv = tView ->
  eventTargetResolver = None ->
  listenerFn = VRef f ->
  findExistingListener_in (cleanup tv) (Some lCleanup) eventName (index tn)
  = Some (Normal (VRef r)) ->
  heap s !! r = Some o_r ->
  heap s !! f = Some o_f ->
  addNativeListener X lView tNode tView tCleanup eventName listenerFn useCapture
    eventTargetResolver loadRendererFn s
  = Done (VRef f)
      (with_lviews (<[lView := set_CLEANUP (Some lCleanup) lv]> (lviews s))
      (with_heap
         (<[r := {| kind := kind o_r; ngNextListenerFn := VRef f |}]>
            (<[f := {| kind := kind o_f; ngNextListenerFn := ngNextListenerFn o_r |}]>
               (heap s))) s)).
Proof.
  intros Hproc HtView Hres Hfn Hfound Hr Hf. native_start. rewrite Hproc.
  assert (Hs1 : heap s1 = heap s).
  { subst s1. cbn. rewrite Hres. cbn. by rewrite app_nil_r. }
  match goal with
  | |- bind ?c _ _ = _ => rewrite (bind_done c _ _ (VRef r) s1)
  end.
  2:{ rewrite Hres. by apply findExistingListener_run. }
  change (strict_eq (VRef r) VNull) with false. cbn [negb].
  erewrite bind_done; [| by apply (get_next_done s1 r o_r); rewrite Hs1 ].
  rewrite Hfn.
  erewrite bind_done; [| by apply (set_next_done s1 f o_f); rewrite Hs1 ].
  assert (Hr' : exists o,
    <[f := {| kind := kind o_f; ngNextListenerFn := ngNextListenerFn o_r |}]> (heap s1) !! r
    = Some o /\ kind o = kind o_r).
  { rewrite Hs1. destruct (decide (f = r)) as [->|Hne].
    - rewrite list_lookup_insert_eq by (by eapply lookup_lt_Some).
      eexists; split; [done|]. cbn. congruence.
    - rewrite list_lookup_insert_ne by done. eauto. }
  destruct Hr' as [o [Ho Hk]].
  erewrite bind_done; [| by eapply set_next_done ].
  unfold ret. f_equal. rewrite Hk.
  subst s1. unfold with_lviews, with_heap. cbn. rewrite Hres. cbn.
  by rewrite app_nil_r.
Qed.

End NativeFacts.

(** ** The output subscriptions of an install *)

Section OutputFacts.

Variable X : Externals.

Lemma lview_at_in_range lv index d :
  lview_at lv index = VRef d -> (index <? Z.of_nat (length (slots lv))) = true.
Proof.
  unfold lview_at, array_get, array_at.
  destruct (0 <=? index) eqn:Hpos; [|done].
  destruct (slots lv !! Z.to_nat index) eqn:Hl; [|done].
  intros _. apply lookup_lt_Some in Hl. apply Z.leb_le in Hpos. apply Z.ltb_lt. lia.
Qed.

Lemma devMode_done s : devMode s = Done (bool_decide (is_Some (ngDevMode s))) s.
Proof. done. Qed.

Lemma kind_lookup (h : list Obj) r k :
  kind <$> h !! r = Some k -> exists o, h !! r = Some o /\ kind o = k.
Proof. destruct (h !! r) as [o|]; cbn; [|done]. intros [= <-]. eauto. Qed.

Lemma get_prop_directive s d c props p :
  kind <$> heap s !! d = Some (Directive c props) ->
  get_prop (VRef d) p s = Done (default VUndef (props !! p)) s.
Proof.
  intros Hd. destruct (kind_lookup _ _ _ Hd) as (o & Ho & Hk).
  cbn [get_prop]. rewrite (bind_done _ _ _ _ _ (readObj_done _ _ _ Ho)).
  by rewrite Hk.
Qed.

Lemma isObservable_true s o :
  kind <$> heap s !! o = Some Observable -> isObservable (VRef o) s = Done true s.
Proof.
  intros Ho. destruct (kind_lookup _ _ _ Ho) as (oo & Hoo & Hk).
  cbn [isObservable]. rewrite (bind_done _ _ _ _ _ (readObj_done _ _ _ Hoo)).
  by rewrite Hk.
Qed.

Lemma subscribe_done s o listenerFn :
  kind <$> heap s !! o = Some Observable ->
  subscribe (VRef o) listenerFn s
  = Done (VRef (length (heap s)))
      (with_heap (heap s ++ [{| kind := Subscription; ngNextListenerFn := VUndef |}])
         (with_trace (trace s ++ [Subscribe o listenerFn]) s)).
Proof.
  intros Ho. unfold subscribe.
  by rewrite (bind_done _ _ _ _ _ (isObservable_true _ _ Ho)).
Qed.

(** One turn of the loop on an output that is a stream. *)
Lemma subscribeOutputs_step s lView tView lv tv tCleanup eventName tNodeIndex
    listenerFn p props c o :
  lviews s !! lView = Some lv ->
  tviews s !! tView = Some tv ->
  (tCleanup = true -> is_Some (cleanup tv)) ->
  observable_at (heap s) lv p c o ->
  subscribeOutputs lView tView tCleanup eventName tNodeIndex listenerFn (p :: props) s
  = subscribeOutputs lView tView tCleanup eventName tNodeIndex listenerFn props
      (subscribed lView tView tCleanup eventName tNodeIndex listenerFn s o).
Proof.
  intros Hlv Htv Htc (d & dprops & Hd & Hdk & Hp & Hok).
  unfold subscribed. rewrite Hlv, Htv.
  cbn [subscribeOutputs].
  rewrite (bind_done _ _ _ _ _ (readLView_done _ _ _ Hlv)).
  rewrite (bind_done _ _ _ _ _ (devMode_done _)).
  erewrite (bind_done (when _ _)); cycle 1.
  { unfold when, assertDataInRange. rewrite (lview_at_in_range _ _ _ Hd).
    by destruct (bool_decide _). }
  rewrite Hd.
  rewrite (bind_done _ _ _ _ _ (get_prop_directive _ _ _ _ _ Hdk)), Hp.
  change (default VUndef (Some (VRef o))) with (VRef o).
  rewrite (bind_done _ _ _ _ _ (isObservable_true _ _ Hok)).
  rewrite andb_false_r.
  erewrite (bind_done (ret tt)); [|reflexivity].
  rewrite (bind_done _ _ _ _ _ (subscribe_done _ _ _ Hok)).
  erewrite bind_done; [| by apply getCleanup_done ].
  erewrite bind_done; cycle 1.
  { eapply lCleanup_push_done;
      [cbn; apply list_lookup_insert_eq; by eapply lookup_lt_Some | reflexivity]. }
  assert (Heq : forall items,
    tCleanup_push tCleanup tView items
      (with_lviews
         (<[lView := set_CLEANUP
              (Some (default [] (CLEANUP lv) ++ [listenerFn; VRef (length (heap s))]))
              (set_CLEANUP (Some (default [] (CLEANUP lv))) lv)]>
            (lviews
               (with_lviews
                  (<[lView := set_CLEANUP (Some (default [] (CLEANUP lv))) lv]>
                     (lviews
                        (with_heap
                           (heap s ++ [{| kind := Subscription; ngNextListenerFn := VUndef |}])
                           (with_trace (trace s ++ [Subscribe o listenerFn]) s))))
                  (with_heap
                     (heap s ++ [{| kind := Subscription; ngNextListenerFn := VUndef |}])
                     (with_trace (trace s ++ [Subscribe o listenerFn]) s)))))
         (with_lviews
            (<[lView := set_CLEANUP (Some (default [] (CLEANUP lv))) lv]>
               (lviews
                  (with_heap
                     (heap s ++ [{| kind := Subscription; ngNextListenerFn := VUndef |}])
                     (with_trace (trace s ++ [Subscribe o listenerFn]) s))))
            (with_heap
               (heap s ++ [{| kind := Subscription; ngNextListenerFn := VUndef |}])
               (with_trace (trace s ++ [Subscribe o listenerFn]) s))))
    = Done tt
        (with_tviews (tviews_pushed tCleanup tView tv items (tviews s))
        (with_lviews
           (<[lView := set_CLEANUP
                (Some (default [] (CLEANUP lv) ++ [listenerFn; VRef (length (heap s))])) lv]>
              (lviews s))
        (with_heap (heap s ++ [{| kind := Subscription; ngNextListenerFn := VUndef |}])
        (with_trace (trace s ++ [Subscribe o listenerFn]) s))))).
  { intros items. destruct tCleanup.
    - destruct (Htc eq_refl) as [tc Htcv].
      erewrite tCleanup_push_done; [| cbn; exact Htv | exact Htcv].
      unfold tviews_pushed. rewrite Htcv. f_equal.
      unfold with_tviews, with_lviews, with_heap, with_trace. cbn.
      by rewrite list_insert_insert_eq.
    - rewrite tCleanup_push_skip. f_equal.
      unfold tviews_pushed, with_tviews, with_lviews, with_heap, with_trace. cbn.
      by rewrite list_insert_insert_eq. }
  erewrite bind_done; [| apply Heq ].
  done.
Qed.

(** One turn of the loop on an output that is no stream: the descriptive
    error under [ngDevMode], the TypeError of the call of [subscribe]
    otherwise; nothing is subscribed. *)
Lemma subscribeOutputs_misconfigured s lView tView lv tCleanup eventName tNodeIndex
    listenerFn p props c v :
  lviews s !! lView = Some lv ->
  not_observable_at (heap s) lv p c v ->
  subscribeOutputs lView tView tCleanup eventName tNodeIndex listenerFn (p :: props) s
  = Raised (if bool_decide (is_Some (ngDevMode s))
            then Error (output_not_initialized (minifiedName p) c)
            else TypeError) s.
Proof.
  intros Hlv (d & dprops & Hd & Hdk & Hp & Hv).
  cbn [subscribeOutputs].
  rewrite (bind_done _ _ _ _ _ (readLView_done _ _ _ Hlv)).
  rewrite (bind_done _ _ _ _ _ (devMode_done _)).
  erewrite (bind_done (when _ _)); cycle 1.
  { unfold when, assertDataInRange. rewrite (lview_at_in_range _ _ _ Hd).
    by destruct (bool_decide _). }
  rewrite Hd.
  rewrite (bind_done _ _ _ _ _ (get_prop_directive _ _ _ _ _ Hdk)), Hp.
  assert (Hobs : isObservable v s = Done false s).
  { destruct v as [| | | | |o]; try done.
    destruct Hv as (k & Hk & Hne). destruct (kind_lookup _ _ _ Hk) as (oo & Hoo & Hkk).
    cbn [isObservable]. rewrite (bind_done _ _ _ _ _ (readObj_done _ _ _ Hoo)).
    rewrite Hkk. by destruct k. }
  rewrite (bind_done _ _ _ _ _ Hobs). cbn [negb]. rewrite andb_true_r.
  destruct (bool_decide (is_Some (ngDevMode s))).
  - destruct (kind_lookup _ _ _ Hdk) as (od & Hod & Hodk).
    apply bind_raised.
    assert (Hc : constructor_name (VRef d) s = Done c s).
    { cbn [constructor_name]. rewrite (bind_done _ _ _ _ _ (readObj_done _ _ _ Hod)).
      by rewrite Hodk. }
    by rewrite (bind_done _ _ _ _ _ Hc).
  - erewrite (bind_done (ret tt)); [|reflexivity].
    apply bind_raised. unfold subscribe.
    rewrite (bind_done _ _ _ _ _ Hobs). by destruct v.
Qed.

Section Loop.

Variables (lView tView : nat) (tCleanup : bool) (eventName : string)
  (tNodeIndex : Z) (listenerFn : JsVal).

Lemma subscribed_ready s slots0 o :
  loop_ready lView tView tCleanup s slots0 ->
  loop_ready lView tView tCleanup
    (subscribed lView tView tCleanup eventName tNodeIndex listenerFn s o) slots0.
Proof.
  intros (lv & tv & Hlv & Hslots & Htv & Htc).
  unfold subscribed, tviews_pushed. rewrite Hlv, Htv.
  destruct tCleanup; eexists _, _; cbn;
    (split; [apply list_lookup_insert_eq; by eapply lookup_lt_Some|]);
    (split; [exact Hslots|]).
  - split; [apply list_lookup_insert_eq; by eapply lookup_lt_Some|]. by eexists.
  - split; [exact Htv | exact Htc].
Qed.

Lemma subscribed_heap s slots0 o :
  loop_ready lView tView tCleanup s slots0 ->
  heap (subscribed lView tView tCleanup eventName tNodeIndex listenerFn s o)
  = heap s ++ [{| kind := Subscription; ngNextListenerFn := VUndef |}].
Proof.
  intros (lv & tv & Hlv & Hslots & Htv & Htc). unfold subscribed. by rewrite Hlv, Htv.
Qed.

Lemma subscribed_trace s slots0 o :
  loop_ready lView tView tCleanup s slots0 ->
  trace (subscribed lView tView tCleanup eventName tNodeIndex listenerFn s o)
  = trace s ++ [Subscribe o listenerFn].
Proof.
  intros (lv & tv & Hlv & Hslots & Htv & Htc). unfold subscribed. by rewrite Hlv, Htv.
Qed.

Lemma observable_at_slots h lv lv' p c o :
  slots lv = slots lv' -> observable_at h lv p c o -> observable_at h lv' p c o.
Proof.
  intros Hs (d & dprops & Hd & Hrest). exists d, dprops.
  split; [|done]. unfold lview_at in *. by rewrite <- Hs.
Qed.

Lemma stream_in_grows h h' slots0 p o :
  stream_in h slots0 p o -> stream_in (h ++ h') slots0 p o.
Proof.
  intros (lv & c & Hs & d & dprops & Hd & Hdk & Hp & Hok).
  exists lv, c. split; [done|]. exists d, dprops.
  destruct (kind_lookup _ _ _ Hdk) as (od & Hod & Hodk).
  destruct (kind_lookup _ _ _ Hok) as (oo & Hoo & Hook).
  repeat split; try done.
  - by rewrite (lookup_app_l_Some _ _ _ _ Hod); cbn; rewrite Hodk.
  - by rewrite (lookup_app_l_Some _ _ _ _ Hoo); cbn; rewrite Hook.
Qed.

(** The loop over outputs that are all streams: it ends, one turn per
    output. *)
Lemma subscribeOutputs_extended h0 slots0 props os :
  Forall2 (stream_in h0 slots0) props os ->
  forall s h',
    heap s = h0 ++ h' ->
    loop_ready lView tView tCleanup s slots0 ->
    subscribeOutputs lView tView tCleanup eventName tNodeIndex listenerFn props s
    = Done tt
        (foldl (subscribed lView tView tCleanup eventName tNodeIndex listenerFn) s os).
Proof.
  induction 1 as [|p o props os Hp Hall IH]; intros s h' Hheap Hready; [done|].
  pose proof Hready as (lv & tv & Hlv & Hslots & Htv & Htc).
  apply (stream_in_grows _ h') in Hp. rewrite <- Hheap in Hp.
  destruct Hp as (lv0 & c & Hs0 & Hobs).
  erewrite subscribeOutputs_step; [| exact Hlv | exact Htv | exact Htc | ].
  2:{ eapply observable_at_slots; [|exact Hobs]. congruence. }
  cbn [foldl]. eapply IH.
  - erewrite subscribed_heap by exact Hready. rewrite Hheap, <- app_assoc. done.
  - by apply subscribed_ready.
Qed.

Lemma subscribeOutputs_all props os s slots0 :
  loop_ready lView tView tCleanup s slots0 ->
  Forall2 (stream_in (heap s) slots0) props os ->
  subscribeOutputs lView tView tCleanup eventName tNodeIndex listenerFn props s
  = Done tt
      (foldl (subscribed lView tView tCleanup eventName tNodeIndex listenerFn) s os).
Proof.
  intros Hready Hall.
  eapply (subscribeOutputs_extended _ _ _ _ Hall s []); [by rewrite app_nil_r | done].
Qed.

(** The loop up to the first output that is no stream: the outputs before
    it are subscribed, and the loop ends there with the error. *)
Lemma subscribeOutputs_stops props os p c v props' s slots0 lv :
  loop_ready lView tView tCleanup s slots0 ->
  slots lv = slots0 ->
  Forall2 (stream_in (heap s) slots0) props os ->
  not_observable_at (heap s) lv p c v ->
  subscribeOutputs lView tView tCleanup eventName tNodeIndex listenerFn
    (props ++ p :: props') s
  = Raised (if bool_decide (is_Some (ngDevMode s))
            then Error (output_not_initialized (minifiedName p) c)
            else TypeError)
      (foldl (subscribed lView tView tCleanup eventName tNodeIndex listenerFn) s os).
Proof.
  intros Hready Hslots Hall Hbad.
  assert (Hgen : forall s1 h',
    heap s1 = heap s ++ h' ->
    ngDevMode s1 = ngDevMode s ->
    loop_ready lView tView tCleanup s1 slots0 ->
    subscribeOutputs lView tView tCleanup eventName tNodeIndex listenerFn
      (props ++ p :: props') s1
    = Raised (if bool_decide (is_Some (ngDevMode s))
              then Error (output_not_initialized (minifiedName p) c)
              else TypeError)
        (foldl (subscribed lView tView tCleanup eventName tNodeIndex listenerFn) s1 os)).
  { clear Hready. induction Hall as [|q o props os Hq Hall IH];
      intros s1 h' Hheap Hdev Hready.
    - cbn [app foldl].
      destruct Hready as (lv1 & tv1 & Hlv1 & Hslots1 & _).
      rewrite <- Hdev.
      eapply subscribeOutputs_misconfigured; [exact Hlv1|].
      destruct Hbad as (d & dprops & Hd & Hdk & Hp & Hv).
      exists d, dprops. rewrite Hheap.
      destruct (kind_lookup _ _ _ Hdk) as (od & Hod & Hodk).
      split; [unfold lview_at in *; congruence|].
      split; [by rewrite (lookup_app_l_Some _ _ _ _ Hod); cbn; rewrite Hodk|].
      split; [done|].
      destruct v as [| | | | |ov]; try done.
      destruct Hv as (k & Hk & Hne). exists k. split; [|done].
      destruct (kind_lookup _ _ _ Hk) as (oo & Hoo & Hkk).
      by rewrite (lookup_app_l_Some _ _ _ _ Hoo); cbn; rewrite Hkk.
    - pose proof Hready as (lv1 & tv1 & Hlv1 & Hslots1 & Htv1 & Htc1).
      apply (stream_in_grows _ h') in Hq. rewrite <- Hheap in Hq.
      destruct Hq as (lv0 & c0 & Hs0 & Hobs).
      cbn [app].
      erewrite subscribeOutputs_step; [| exact Hlv1 | exact Htv1 | exact Htc1 | ].
      2:{ eapply observable_at_slots; [|exact Hobs]. congruence. }
      cbn [foldl]. eapply IH.
      + erewrite subscribed_heap by exact Hready. rewrite Hheap, <- app_assoc. done.
      + rewrite <- Hdev. unfold subscribed. rewrite Hlv1, Htv1. done.
      + by apply subscribed_ready. }
  apply (Hgen s []); [by rewrite app_nil_r | done | done].
Qed.

End Loop.

End OutputFacts.

(** ** The parts of [listenerInternal] *)

Section InstallFacts.

Variable X : Externals.

Lemma with_tnodes_same s : with_tnodes (tnodes s) s = s.
Proof. by destruct s. Qed.

Lemma subscribeToOutputs_run s lView tNode tView tCleanup eventName listenerFn tn :
  tnodes s !! tNode = Some tn ->
  subscribeToOutputs X lView tNode tView tCleanup eventName listenerFn s
  = match props_for X tn eventName with
    | [] => ret tt
    | props =>
        getCleanup lView ;;
        subscribeOutputs lView tView tCleanup eventName (index tn) listenerFn props
    end (with_tnodes (<[tNode := outputs_cached X tn]> (tnodes s)) s).
Proof.
  intros Htn. unfold subscribeToOutputs.
  rewrite (bind_done _ _ _ _ _ (readTNode_done _ _ _ Htn)).
  assert (Hlt : (tNode < length (tnodes s))%nat) by (by eapply lookup_lt_Some).
  unfold props_for, outputs_cached.
  destruct (outputs tn) as [| |aliases] eqn:Hout; cbn [when].
  - unfold writeTNode, modify. unfold bind at 1.
    erewrite bind_done; cycle 1.
    { apply readTNode_done. cbn. by apply list_lookup_insert_eq. }
    cbn [outputs set_outputs index].
    destruct (generatePropertyAliases X tn) as [aliases|]; [|done].
    by destruct (aliases !! eventName) as [[|p props]|].
  - rewrite (bind_done _ _ _ _ _ (eq_refl : ret tt s = Done tt s)).
    rewrite (bind_done _ _ _ _ _ (readTNode_done _ _ _ Htn)).
    rewrite Hout, (list_insert_id _ _ _ Htn), with_tnodes_same. done.
  - rewrite (bind_done _ _ _ _ _ (eq_refl : ret tt s = Done tt s)).
    rewrite (bind_done _ _ _ _ _ (readTNode_done _ _ _ Htn)).
    rewrite Hout, (list_insert_id _ _ _ Htn), with_tnodes_same.
    by destruct (aliases !! eventName) as [[|p props]|].
Qed.

Lemma tCleanup_ready_lookup s tView tv :
  tviews s !! tView = Some tv ->
  tviews (tCleanup_ready tView tv s) !! tView = Some (tv_ready tv)
  /\ (firstTemplatePass tv = true -> is_Some (cleanup (tv_ready tv))).
Proof.
  intros Htv. unfold tCleanup_ready, tv_ready.
  destruct (firstTemplatePass tv) eqn:Hfirst; cbn [andb].
  - destruct (cleanup tv) as [c|] eqn:Hc.
    + rewrite bool_decide_eq_true_2 by (by eexists). cbn. rewrite Hc. split; [done|eauto].
    + rewrite bool_decide_eq_false_2 by (by intros [? ?]). cbn.
      split; [apply list_lookup_insert_eq; by eapply lookup_lt_Some | eauto].
  - split; [done|]. discriminate.
Qed.

(** [listenerInternal] up to its two parts: the cleanup array of the
    template, the assertion on the kind of the node, then the native step
    (for an element only) and the outputs. *)
Lemma listenerInternal_run s eventName listenerFn useCapture eventTargetResolver
    loadRendererFn lv tv tn :
  lviews s !! currentLView s = Some lv ->
  tviews s !! TVIEW lv = Some tv ->
  tnodes s !! currentTNode s = Some tn ->
  listenerInternal X eventName listenerFn useCapture eventTargetResolver
    loadRendererFn s
  = (when (bool_decide (is_Some (ngDevMode s)))
       (assertNodeOfPossibleTypes tn [Element; Container; ElementContainer]) ;;
     fn <- (if bool_decide (type tn = Element)
            then addNativeListener X (currentLView s) (currentTNode s) (TVIEW lv)
                   (firstTemplatePass tv) eventName (VRef listenerFn) useCapture
                   eventTargetResolver loadRendererFn
            else ret (VRef listenerFn)) ;;
     subscribeToOutputs X (currentLView s) (currentTNode s) (TVIEW lv)
       (firstTemplatePass tv) eventName fn)
      (tCleanup_ready (TVIEW lv) tv s).
Proof.
  intros Hlv Htv Htn. unfold listenerInternal.
  rewrite (bind_done _ _ _ _ _ (eq_refl : getLView s = Done (currentLView s) s)).
  rewrite (bind_done _ _ _ _ _
             (eq_refl : getPreviousOrParentTNode s = Done (currentTNode s) s)).
  rewrite (bind_done _ _ _ _ _ (readLView_done _ _ _ Hlv)).
  rewrite (bind_done _ _ _ _ _ (readTView_done _ _ _ Htv)).
  erewrite bind_done with (s' := tCleanup_ready (TVIEW lv) tv s); cycle 1.
  { unfold tCleanup_ready, when.
    by destruct (firstTemplatePass tv && negb (bool_decide (is_Some (cleanup tv)))). }
  assert (Htn' : tnodes (tCleanup_ready (TVIEW lv) tv s) !! currentTNode s = Some tn).
  { unfold tCleanup_ready.
    by destruct (firstTemplatePass tv && negb (bool_decide (is_Some (cleanup tv)))). }
  rewrite (bind_done _ _ _ _ _ (readTNode_done _ _ _ Htn')).
  rewrite (bind_done _ _ _ _ _ (devMode_done _)).
  assert (Hdev : ngDevMode (tCleanup_ready (TVIEW lv) tv s) = ngDevMode s).
  { unfold tCleanup_ready.
    by destruct (firstTemplatePass tv && negb (bool_decide (is_Some (cleanup tv)))). }
  by rewrite Hdev.
Qed.

End InstallFacts.

(** ** What a run keeps *)

Section Stepwise.

Context (R : State -> State -> Prop) `{!Reflexive R} `{!Transitive R}.

Lemma stepwise_ret {A} (a : A) : stepwise R (ret a).
Proof. intros s. cbn. reflexivity. Qed.

Lemma stepwise_throw {A} e : stepwise R (@throw A e).
Proof. intros s. cbn. reflexivity. Qed.

Lemma stepwise_unmodelled {A} : stepwise R (@unmodelled A).
Proof. by intros s. Qed.

Lemma stepwise_out_of_fuel {A} : stepwise R (@out_of_fuel A).
Proof. by intros s. Qed.

Lemma stepwise_bind {A B} (c : M A) (k : A -> M B) :
  stepwise R c -> (forall a, stepwise R (k a)) -> stepwise R (bind c k).
Proof.
  intros Hc Hk s. unfold bind. specialize (Hc s).
  destruct (c s) as [a s1|e s1| |]; try done.
  specialize (Hk a s1). destruct (k a s1); try done; by etrans.
Qed.

Lemma stepwise_gets {A} (f : State -> A) : stepwise R (gets f).
Proof. intros s. cbn. reflexivity. Qed.

Lemma stepwise_of_option {A} (o : option A) : stepwise R (of_option o).
Proof. destruct o; [apply stepwise_ret | apply stepwise_unmodelled]. Qed.

Lemma stepwise_read {A} (f : State -> option A) :
  stepwise R (fun s => of_option (f s) s).
Proof. intros s. destruct (f s); cbn; [reflexivity | done]. Qed.

Lemma stepwise_when b (c : M unit) : stepwise R c -> stepwise R (when b c).
Proof. destruct b; [done | intros _; apply stepwise_ret]. Qed.

Lemma stepwise_modify (f : State -> State) :
  (forall s, R s (f s)) -> stepwise R (modify f).
Proof. intros Hf s. apply Hf. Qed.

Lemma stepwise_try_catch {A} (c : M A) (h : JsError -> M A) :
  stepwise R c -> (forall e, stepwise R (h e)) -> stepwise R (try_catch c h).
Proof.
  intros Hc Hh s. unfold try_catch. specialize (Hc s).
  destruct (c s) as [a s1|e s1| |]; try done.
  specialize (Hh e s1). destruct (h e s1); try done; by etrans.
Qed.

End Stepwise.

Ltac stepwise_step :=
  lazymatch goal with
  | |- stepwise ?R (ret _) => apply (stepwise_ret R)
  | |- stepwise ?R (throw _) => apply (stepwise_throw R)
  | |- stepwise ?R unmodelled => apply (stepwise_unmodelled R)
  | |- stepwise ?R out_of_fuel => apply (stepwise_out_of_fuel R)
  | |- stepwise ?R (gets _) => apply (stepwise_gets R)
  | |- stepwise ?R (of_option _) => apply (stepwise_of_option R)
  | |- stepwise ?R (fun s => of_option _ s) => apply (stepwise_read R)
  | |- stepwise ?R (when _ _) => apply (stepwise_when R)
  | |- stepwise ?R (bind _ _) => apply (stepwise_bind R); [| intros ?]
  | |- stepwise ?R (try_catch _ _) => apply (stepwise_try_catch R); [| intros ?]
  | |- stepwise _ (match ?x with _ => _ end) => destruct x
  end.

Ltac stepwise_go := repeat stepwise_step.

(** *** The subscription of outputs only subscribes *)

Section OutputsFrame.

Variable X : Externals.

#[global] Instance outputs_frame_refl : Reflexive outputs_frame.
Proof.
  intros s. split; [exists []; by rewrite app_nil_r|].
  exists []. by rewrite app_nil_r.
Qed.

#[global] Instance outputs_frame_trans : Transitive outputs_frame.
Proof.
  intros s1 s2 s3 [[h1 Hh1] (t1 & Ht1 & Hs1)] [[h2 Hh2] (t2 & Ht2 & Hs2)].
  split.
  - exists (h1 ++ h2). by rewrite Hh2, Hh1, app_assoc.
  - exists (t1 ++ t2). rewrite Ht2, Ht1, app_assoc. split; [done|].
    rewrite forallb_app. by rewrite Hs1, Hs2.
Qed.

Lemma outputs_frame_same s s' :
  heap s' = heap s -> trace s' = trace s -> outputs_frame s s'.
Proof.
  intros Hh Ht. unfold outputs_frame. rewrite Hh, Ht.
  split; [|exists []; split; [|done]]; [exists []|]; by rewrite app_nil_r.
Qed.

Ltac frame_modify :=
  apply (stepwise_modify outputs_frame); intros; apply outputs_frame_same; reflexivity.

Lemma outputs_frame_getCleanup lView : stepwise outputs_frame (getCleanup lView).
Proof. unfold getCleanup, readLView, writeLView. stepwise_go; frame_modify. Qed.

Lemma outputs_frame_lCleanup_push lView items :
  stepwise outputs_frame (lCleanup_push lView items).
Proof. unfold lCleanup_push, readLView, writeLView. stepwise_go; frame_modify. Qed.

Lemma outputs_frame_tCleanup_push tCleanup tView items :
  stepwise outputs_frame (tCleanup_push tCleanup tView items).
Proof. unfold tCleanup_push, readTView, writeTView. stepwise_go; frame_modify. Qed.

Lemma outputs_frame_subscribe output listenerFn :
  stepwise outputs_frame (subscribe output listenerFn).
Proof.
  unfold subscribe, isObservable, readObj. stepwise_go.
  - intros s. cbn. split; [exists []; by rewrite app_nil_r|]. by eexists.
  - intros s. cbn. split; [by eexists|]. exists []. by rewrite app_nil_r.
Qed.

Lemma outputs_frame_subscribeOutputs lView tView tCleanup eventName tNodeIndex
    listenerFn props :
  stepwise outputs_frame
    (subscribeOutputs lView tView tCleanup eventName tNodeIndex listenerFn props).
Proof.
  induction props as [|p props IH]; cbn [subscribeOutputs]; [stepwise_step|].
  unfold readLView, devMode, assertDataInRange, get_prop, isObservable,
    constructor_name, readObj.
  stepwise_go;
    first [ apply outputs_frame_subscribe | apply outputs_frame_getCleanup
          | apply outputs_frame_lCleanup_push | apply outputs_frame_tCleanup_push
          | apply IH ].
Qed.

Lemma outputs_frame_subscribeToOutputs lView tNode tView tCleanup eventName listenerFn :
  stepwise outputs_frame
    (subscribeToOutputs X lView tNode tView tCleanup eventName listenerFn).
Proof.
  unfold subscribeToOutputs, readTNode, writeTNode.
  stepwise_go;
    first [ frame_modify | apply outputs_frame_getCleanup
          | apply outputs_frame_subscribeOutputs ].
Qed.

End OutputsFrame.

(** *** The native step keeps the stores in shape *)

Section InstallFrame.

Variable X : Externals.

#[global] Instance same_view_refl : Reflexive same_view.
Proof. by intros lv. Qed.

#[global] Instance same_template_refl : Reflexive same_template.
Proof. by intros tv. Qed.

#[global] Instance install_frame_refl : Reflexive install_frame.
Proof.
  intros s. repeat split; try done.
  - intros i lv Hlv. by exists lv.
  - intros i tv Htv. by exists tv.
Qed.

#[global] Instance install_frame_trans : Transitive install_frame.
Proof.
  intros s1 s2 s3 (Hn1 & Hl1 & Ht1 & Hd1 & Hk1 & Hv1 & Htv1)
    (Hn2 & Hl2 & Ht2 & Hd2 & Hk2 & Hv2 & Htv2).
  split; [congruence|]. split; [congruence|]. split; [congruence|].
  split; [by rewrite Hd2|]. split; [eauto|]. split.
  - intros i lv Hlv. destruct (Hv1 i lv Hlv) as (lv' & Hlv' & H1 & H2 & H3 & H4).
    destruct (Hv2 i lv' Hlv') as (lv'' & Hlv'' & H1' & H2' & H3' & H4').
    exists lv''. split; [done|]. repeat split; congruence.
  - intros i tv Htv. destruct (Htv1 i tv Htv) as (tv' & Htv' & H1 & H2).
    destruct (Htv2 i tv' Htv') as (tv'' & Htv'' & H1' & H2').
    exists tv''. split; [done|]. split; [congruence | eauto].
Qed.

Lemma frame_trace t s : install_frame s (with_trace t s).
Proof.
  repeat split; try done; cbn.
  - intros i lv Hlv. by exists lv.
  - intros i tv Htv. by exists tv.
Qed.

Lemma frame_ngDevMode s : install_frame s (with_ngDevMode (S <$> ngDevMode s) s).
Proof.
  repeat split; try done; cbn.
  - intros [n Hn]. destruct (ngDevMode s); [by eexists | done].
  - intros [n Hn]. rewrite Hn. by eexists.
  - intros i lv Hlv. by exists lv.
  - intros i tv Htv. by exists tv.
Qed.

Lemma frame_heap_app h' s : install_frame s (with_heap (heap s ++ h') s).
Proof.
  repeat split; try done; cbn.
  - intros r k Hk. destruct (heap s !! r) as [o|] eqn:Ho; [|done].
    by rewrite (lookup_app_l_Some _ _ _ _ Ho).
  - intros i lv Hlv. by exists lv.
  - intros i tv Htv. by exists tv.
Qed.

Lemma frame_heap_set r o x s :
  heap s !! r = Some o ->
  install_frame s
    (with_heap (<[r := {| kind := kind o; ngNextListenerFn := x |}]> (heap s)) s).
Proof.
  intros Hr. repeat split; try done; cbn.
  - intros r' k Hk. destruct (decide (r = r')) as [<-|Hne].
    + rewrite list_lookup_insert_eq by (by eapply lookup_lt_Some).
      rewrite Hr in Hk. done.
    + by rewrite list_lookup_insert_ne.
  - intros i lv Hlv. by exists lv.
  - intros i tv Htv. by exists tv.
Qed.

Lemma frame_lviews id v c s :
  lviews s !! id = Some v ->
  install_frame s (with_lviews (<[id := set_CLEANUP c v]> (lviews s)) s).
Proof.
  intros Hv. repeat split; try done; cbn.
  - intros i lv Hlv. destruct (decide (id = i)) as [<-|Hne].
    + rewrite list_lookup_insert_eq by (by eapply lookup_lt_Some).
      eexists; split; [done|]. rewrite Hv in Hlv. by injection Hlv as <-.
    + rewrite list_lookup_insert_ne by done. by exists lv.
  - intros i tv Htv. by exists tv.
Qed.

Lemma frame_tviews id t c s :
  tviews s !! id = Some t ->
  (is_Some (cleanup t) -> is_Some c) ->
  install_frame s (with_tviews (<[id := set_cleanup c t]> (tviews s)) s).
Proof.
  intros Ht Hc. repeat split; try done; cbn.
  - intros i lv Hlv. by exists lv.
  - intros i tv Htv. destruct (decide (id = i)) as [<-|Hne].
    + rewrite list_lookup_insert_eq by (by eapply lookup_lt_Some).
      eexists; split; [done|]. rewrite Ht in Htv. injection Htv as <-. by split.
    + rewrite list_lookup_insert_ne by done. by exists tv.
Qed.

Lemma install_frame_getCleanup lView : stepwise install_frame (getCleanup lView).
Proof.
  intros s. unfold getCleanup, bind, readLView.
  destruct (lviews s !! lView) as [v|] eqn:Hv; cbn; [|done].
  destruct (CLEANUP v); cbn; [reflexivity | by apply frame_lviews].
Qed.

Lemma install_frame_lCleanup_push lView items :
  stepwise install_frame (lCleanup_push lView items).
Proof.
  intros s. unfold lCleanup_push, bind, readLView.
  destruct (lviews s !! lView) as [v|] eqn:Hv; cbn; [|done].
  destruct (CLEANUP v); cbn; [by apply frame_lviews | done].
Qed.

Lemma install_frame_tCleanup_push tCleanup tView items :
  stepwise install_frame (tCleanup_push tCleanup tView items).
Proof.
  intros s. unfold tCleanup_push, when, bind, readTView.
  destruct tCleanup; cbn; [|reflexivity].
  destruct (tviews s !! tView) as [t|] eqn:Ht; cbn; [|done].
  destruct (cleanup t); cbn; [|done]. apply frame_tviews; [done | by eexists].
Qed.

Lemma install_frame_get_next v : stepwise install_frame (get_next v).
Proof. unfold get_next, readObj. destruct v; stepwise_go. Qed.

Lemma install_frame_set_next v x : stepwise install_frame (set_next v x).
Proof.
  destruct v; cbn [set_next]; try (by stepwise_step).
  intros s. unfold bind, readObj.
  destruct (heap s !! r) as [o|] eqn:Ho; cbn; [|done]. by apply frame_heap_set.
Qed.

Lemma install_frame_alloc k : stepwise install_frame (alloc k).
Proof. intros s. apply frame_heap_app. Qed.

Lemma install_frame_emit ev : stepwise install_frame (emit ev).
Proof. intros s. apply frame_trace. Qed.

Lemma install_frame_count : stepwise install_frame count_rendererAddEventListener.
Proof. intros s. apply frame_ngDevMode. Qed.

Lemma install_frame_findExistingListener lView eventName tNodeIdx :
  stepwise install_frame (findExistingListener lView eventName tNodeIdx).
Proof. unfold findExistingListener, readLView, readTView. stepwise_go. Qed.

Lemma install_frame_addNativeListener lView tNode tView tCleanup eventName listenerFn
    useCapture eventTargetResolver loadRendererFn :
  stepwise install_frame
    (addNativeListener X lView tNode tView tCleanup eventName listenerFn useCapture
       eventTargetResolver loadRendererFn).
Proof.
  unfold addNativeListener, wrapListener, renderer_listen, readTNode, readLView.
  stepwise_go;
    first [ apply install_frame_getCleanup | apply install_frame_alloc
          | apply install_frame_findExistingListener | apply install_frame_get_next
          | apply install_frame_set_next | apply install_frame_emit
          | apply install_frame_count | apply install_frame_lCleanup_push
          | apply install_frame_tCleanup_push ].
Qed.

End InstallFrame.

(** ** The claims on dispatch *)

Section DispatchClaims.

Variable X : Externals.

Lemma calls_of_app t1 t2 : calls_of (t1 ++ t2) = calls_of t1 ++ calls_of t2.
Proof. apply omap_app. Qed.

Lemma marks_of_app t1 t2 : marks_of (t1 ++ t2) = marks_of t1 ++ marks_of t2.
Proof. apply omap_app. Qed.

Lemma calls_of_handlers lView e (hs : list Handler) :
  calls_of (flat_map (handler_events lView e) hs) = hs.*1.
Proof.
  induction hs as [|[r body] hs IH]; [done|].
  cbn [flat_map]. rewrite calls_of_app, IH. unfold handler_events. cbn.
  by destruct (body e).
Qed.

Lemma marks_of_handlers lView e (hs : list Handler) :
  marks_of (flat_map (handler_events lView e) hs) = [].
Proof.
  induction hs as [|[r body] hs IH]; [done|].
  cbn [flat_map]. rewrite marks_of_app, IH. unfold handler_events. cbn.
  by destruct (body e).
Qed.


Lemma calls_of_marks lView tn lv : calls_of (dispatch_marks X lView tn lv) = [].
Proof. unfold dispatch_marks. by destruct (manual_on_push X lv). Qed.

Lemma calls_of_suppression pd result e : calls_of (dispatch_suppression pd result e) = [].
Proof. unfold dispatch_suppression. by destruct (pd && strict_eq result (VBool false)). Qed.

Lemma marks_of_suppression pd result e : marks_of (dispatch_suppression pd result e) = [].
Proof. unfold dispatch_suppression. by destruct (pd && strict_eq result (VBool false)). Qed.

(** C3. A dispatch through a wrapped listener marks one view dirty, the
    view of the component when the node is a component host and the
    enclosing view otherwise; and it marks no view when the enclosing view
    carries the flag of manual change detection. *)
Theorem C3_dirty_mark_target s w tNode lView tn lv pd (first : Handler)
    (rest : list Handler) e fuel :
  wrapped_listener s w tNode lView tn lv pd first rest ->
  (length rest + 2 <= fuel)%nat ->
  exists result t,
    invoke X fuel (VRef w) e s = Done result (with_trace (trace s ++ t) s)
    /\ marks_of t =
       if negb (Z.land (FLAGS lv) (ManualOnPush X) =? 0) then []
       else if negb (Z.land (flags tn) (isComponent X) =? 0)
            then [getComponentViewByIndex X (index tn) lv]
            else [lView].
Proof.
  intros Hw Hfuel. eexists _, _. split; [by eapply dispatch_spec|].
  unfold dispatch_trace. rewrite !marks_of_app, marks_of_handlers, marks_of_suppression.
  rewrite !app_nil_r. unfold dispatch_marks, manual_on_push, is_component_host.
  destruct (Z.land (FLAGS lv) (ManualOnPush X) =? 0); cbn [negb]; [|done].
  by destruct (Z.land (flags tn) (isComponent X) =? 0).
Qed.

(** C7. When the dirty mark applies, it is the first call of the dispatch:
    every bound handler, the wrapped one and the chained ones, is invoked
    after it, and no view is marked after a handler has run. *)
Theorem C7_mark_precedes_handlers s w tNode lView tn lv pd (first : Handler)
    (rest : list Handler) e fuel :
  wrapped_listener s w tNode lView tn lv pd first rest ->
  (length rest + 2 <= fuel)%nat ->
  Z.land (FLAGS lv) (ManualOnPush X) = 0 ->
  exists result startView t,
    invoke X fuel (VRef w) e s
    = Done result (with_trace (trace s ++ MarkViewDirty startView :: t) s)
    /\ calls_of t = (first :: rest).*1
    /\ marks_of t = [].
Proof.
  intros Hw Hfuel Hflag.
  rewrite (dispatch_spec X _ _ _ _ _ _ _ _ _ e fuel Hw Hfuel).
  unfold dispatch_trace, dispatch_marks, manual_on_push. rewrite Hflag. cbn [Z.eqb negb].
  eexists _, _, _. split; [done|]. split.
  - by rewrite calls_of_app, calls_of_handlers, calls_of_suppression, app_nil_r.
  - by rewrite marks_of_app, marks_of_handlers, marks_of_suppression.
Qed.

Lemma handler_events_split lView e (hs : list Handler) hd error :
  hd ∈ hs ->
  hd.2 e = Throw error ->
  exists t1 t2,
    flat_map (handler_events lView e) hs
    = t1 ++ HandlerCall hd.1 e :: HandleError lView error :: t2.
Proof.
  intros Hin Hthrow. apply list_elem_of_split in Hin as (l1 & l2 & ->).
  rewrite flat_map_app. cbn [flat_map]. unfold handler_events at 2. rewrite Hthrow.
  eexists _, _. cbn. done.
Qed.

(** C4. A handler of the chain that throws does not end the dispatch: its
    error goes to the error sink of the view, right after its call; every
    handler bound is still invoked; the wrapped listener returns, and what
    it returns is the result of the handler invoked last, false if that one
    threw. *)
Theorem C4_throwing_handler_is_isolated s w tNode lView tn lv pd (first : Handler)
    (rest : list Handler) e fuel :
  wrapped_listener s w tNode lView tn lv pd first rest ->
  (length rest + 2 <= fuel)%nat ->
  exists result t,
    invoke X fuel (VRef w) e s = Done result (with_trace (trace s ++ t) s)
    /\ calls_of t = (first :: rest).*1
    /\ (forall hd error,
          hd ∈ first :: rest ->
          hd.2 e = Throw error ->
          exists t1 t2, t = t1 ++ HandlerCall hd.1 e :: HandleError lView error :: t2)
    /\ (exists hd,
          last (first :: rest) = Some hd
          /\ result = match hd.2 e with
                      | Normal v => v
                      | Throw _ => VBool false
                      end).
Proof.
  intros Hw Hfuel.
  rewrite (dispatch_spec X _ _ _ _ _ _ _ _ _ e fuel Hw Hfuel).
  eexists _, _. split; [done|]. split; [|split].
  - unfold dispatch_trace.
    by rewrite !calls_of_app, calls_of_marks, calls_of_handlers, calls_of_suppression,
      app_nil_r.
  - intros hd error Hin Hthrow.
    destruct (handler_events_split lView e _ hd error Hin Hthrow) as (t1 & t2 & Hsplit).
    unfold dispatch_trace. rewrite Hsplit.
    exists (dispatch_marks X lView tn lv ++ t1), (t2 ++ dispatch_suppression pd
      (last_result e VUndef (first :: rest)) e).
    by rewrite <- !app_assoc.
  - unfold last_result.
    destruct (proj2 (last_is_Some (first :: rest))) as [hd Hhd]; [done|].
    exists hd. by rewrite Hhd.
Qed.

End DispatchClaims.

(** ** [listenerInternal] on an element and on another node *)

Section InstallCases.

Variable X : Externals.

Variables (s : State) (lv : LView) (tv : TView) (tn : TNode).
Variables (eventName : string) (listenerFn : loc) (useCapture : bool)
  (eventTargetResolver : option GlobalTargetResolver)
  (loadRendererFn : option (TNode -> LView -> Renderer3)).

Hypothesis Hlv : lviews s !! currentLView s = Some lv.
Hypothesis Htv : tviews s !! TVIEW lv = Some tv.
Hypothesis Htn : tnodes s !! currentTNode s = Some tn.

Let s0 := tCleanup_ready (TVIEW lv) tv s.

Lemma tCleanup_ready_same :
  heap s0 = heap s /\ trace s0 = trace s /\ lviews s0 = lviews s
  /\ tnodes s0 = tnodes s /\ ngDevMode s0 = ngDevMode s
  /\ currentLView s0 = currentLView s /\ currentTNode s0 = currentTNode s.
Proof.
  subst s0. unfold tCleanup_ready.
  by destruct (firstTemplatePass tv && negb (bool_decide (is_Some (cleanup tv)))).
Qed.

Lemma listenerInternal_element fn s1 :
  type tn = Element ->
  addNativeListener X (currentLView s) (currentTNode s) (TVIEW lv)
    (firstTemplatePass tv) eventName (VRef listenerFn) useCapture
    eventTargetResolver loadRendererFn s0 = Done fn s1 ->
  listenerInternal X eventName listenerFn useCapture eventTargetResolver
    loadRendererFn s
  = outputs_step X (currentLView s) (TVIEW lv) (firstTemplatePass tv) tn eventName fn
      (with_tnodes (<[currentTNode s := outputs_cached X tn]> (tnodes s1)) s1).
Proof.
  intros Htype Hnative.
  rewrite (listenerInternal_run X _ _ _ _ _ _ _ _ _ Hlv Htv Htn). fold s0.
  erewrite bind_done; cycle 1.
  { unfold when, assertNodeOfPossibleTypes. rewrite Htype.
    destruct (bool_decide (is_Some (ngDevMode s))); reflexivity. }
  rewrite Htype, bool_decide_eq_true_2 by done.
  rewrite (bind_done _ _ _ _ _ Hnative).
  pose proof (install_frame_addNativeListener X (currentLView s) (currentTNode s)
                (TVIEW lv) (firstTemplatePass tv) eventName (VRef listenerFn)
                useCapture eventTargetResolver loadRendererFn s0) as Hframe.
  rewrite Hnative in Hframe. destruct Hframe as (Hnodes & _).
  destruct tCleanup_ready_same as (_ & _ & _ & Hnodes0 & _).
  apply subscribeToOutputs_run. by rewrite Hnodes, Hnodes0.
Qed.

Lemma listenerInternal_other_node :
  type tn <> Element ->
  (ngDevMode s = None \/ type tn ∈ [Container; ElementContainer]) ->
  listenerInternal X eventName listenerFn useCapture eventTargetResolver
    loadRendererFn s
  = outputs_step X (currentLView s) (TVIEW lv) (firstTemplatePass tv) tn eventName
      (VRef listenerFn)
      (with_tnodes (<[currentTNode s := outputs_cached X tn]> (tnodes s0)) s0).
Proof.
  intros Htype Hassert.
  rewrite (listenerInternal_run X _ _ _ _ _ _ _ _ _ Hlv Htv Htn). fold s0.
  erewrite bind_done; cycle 1.
  { unfold when, assertNodeOfPossibleTypes. destruct Hassert as [Hdev|Hin].
    - rewrite Hdev. reflexivity.
    - destruct (bool_decide (is_Some (ngDevMode s))); [|reflexivity].
      rewrite bool_decide_eq_true_2 by (by apply list_elem_of_further).
      reflexivity. }
  rewrite bool_decide_eq_false_2 by done.
  erewrite bind_done; [|reflexivity].
  destruct tCleanup_ready_same as (_ & _ & _ & Hnodes0 & _).
  apply subscribeToOutputs_run. by rewrite Hnodes0.
Qed.

Lemma listenerInternal_rejected_node :
  is_Some (ngDevMode s) ->
  type tn ∉ [Element; Container; ElementContainer] ->
  listenerInternal X eventName listenerFn useCapture eventTargetResolver
    loadRendererFn s
  = Raised AssertionError s0.
Proof.
  intros Hdev Htype.
  rewrite (listenerInternal_run X _ _ _ _ _ _ _ _ _ Hlv Htv Htn). fold s0.
  apply bind_raised. unfold when, assertNodeOfPossibleTypes.
  by rewrite (bool_decide_eq_true_2 _ Hdev), (bool_decide_eq_false_2 _ Htype).
Qed.

End InstallCases.

(** ** Installs that attach a native listener *)

Section NativeInstalls.

Variable X : Externals.

Variables (s : State) (lv : LView) (tv : TView) (tn : TNode).
Variables (eventName : string) (listenerFn : loc) (useCapture : bool)
  (eventTargetResolver : option GlobalTargetResolver)
  (loadRendererFn : option (TNode -> LView -> Renderer3)).

Hypothesis Hlv : lviews s !! currentLView s = Some lv.
Hypothesis Htv : tviews s !! TVIEW lv = Some tv.
Hypothesis Htn : tnodes s !! currentTNode s = Some tn.
Hypothesis Htype : type tn = Element.
Hypothesis Hnone : props_for X tn eventName = [].

Lemma lookup_new_object (h g : list Obj) (o : Obj) (rest : list Obj) :
  (h ++ g ++ o :: rest) !! (length h + length g)%nat = Some o.
Proof. rewrite app_assoc, <- length_app. apply list_lookup_middle. done. Qed.

(** On an element, without a procedural renderer and with no output bound
    to the event: one call of [addEventListener], with a new closure that
    suppresses the default action. *)
Lemma install_direct :
  isProceduralRenderer (renderer_of loadRendererFn tn lv) = false ->
  exists w s',
    listenerInternal X eventName listenerFn useCapture eventTargetResolver
      loadRendererFn s = Done tt s'
    /\ trace s' = trace s ++ [AddEventListener (target_of X eventTargetResolver tn lv)
                                eventName (VRef w) useCapture]
    /\ kind <$> heap s' !! w
       = Some (WrappedListener (currentTNode s) (currentLView s) (VRef listenerFn) true).
Proof.
  intros Hdirect.
  destruct (tCleanup_ready_same s lv tv) as (Hh & Ht & Hl & Hn & Hd & Hcl & Hct).
  destruct (tCleanup_ready_lookup s _ _ Htv) as [Htv0 Htc0].
  eexists _, _.
  erewrite listenerInternal_element; [| done | done | done | done |].
  2:{ apply (addNativeListener_direct X (tCleanup_ready (TVIEW lv) tv s)
               (currentLView s) (currentTNode s) (TVIEW lv) tn lv (tv_ready tv));
      [by rewrite Hn | by rewrite Hl | done | done | done]. }
  unfold outputs_step. rewrite Hnone.
  split; [reflexivity|]. cbn [trace heap with_tnodes with_trace with_ngDevMode
    with_tviews with_lviews with_heap ret].
  rewrite Ht, Hh. split; [done|].
  by rewrite lookup_new_object.
Qed.

(** On an element, with a procedural renderer and nothing to coalesce onto:
    one call of [renderer.listen], with a new closure that does not
    suppress. *)
Lemma install_listen :
  isProceduralRenderer (renderer_of loadRendererFn tn lv) = true ->
  (eventTargetResolver = None ->
   findExistingListener_in (cleanup (tv_ready tv)) (Some (default [] (CLEANUP lv)))
     eventName (index tn) = Some (Normal VNull)) ->
  exists w s',
    listenerInternal X eventName listenerFn useCapture eventTargetResolver
      loadRendererFn s = Done tt s'
    /\ trace s' = trace s ++ [RendererListen (renderer_of loadRendererFn tn lv)
                                (listen_on X eventTargetResolver tn lv)
                                eventName (VRef w)]
    /\ kind <$> heap s' !! w
       = Some (WrappedListener (currentTNode s) (currentLView s) (VRef listenerFn) false).
Proof.
  intros Hproc Hfresh.
  destruct (tCleanup_ready_same s lv tv) as (Hh & Ht & Hl & Hn & Hd & Hcl & Hct).
  destruct (tCleanup_ready_lookup s _ _ Htv) as [Htv0 Htc0].
  eexists _, _.
  erewrite listenerInternal_element; [| done | done | done | done |].
  2:{ apply (addNativeListener_listen X (tCleanup_ready (TVIEW lv) tv s)
               (currentLView s) (currentTNode s) (TVIEW lv) tn lv (tv_ready tv));
      [by rewrite Hn | by rewrite Hl | done | done | done | done | done]. }
  unfold outputs_step. rewrite Hnone.
  split; [reflexivity|]. cbn [trace heap with_tnodes with_trace with_ngDevMode
    with_tviews with_lviews with_heap ret].
  rewrite Ht, Hh. split; [done|].
  by rewrite lookup_new_object.
Qed.


End NativeInstalls.

(** ** The claim on the default action *)

Section SuppressionClaim.

Variable X : Externals.



End SuppressionClaim.

(** ** The claim on the kind of the node *)

Section NodeKindClaim.

Variable X : Externals.

Lemma outputs_frame_outputs_step lView tView tCleanup tn eventName fn :
  stepwise outputs_frame (outputs_step X lView tView tCleanup tn eventName fn).
Proof.
  unfold outputs_step. destruct (props_for X tn eventName); [stepwise_step|].
  stepwise_step; [apply outputs_frame_getCleanup | apply outputs_frame_subscribeOutputs].
Qed.

(** C9 (amended). The native target is resolved and a native listener is
    attached only when the current node is an element.  On any other node,
    a container or an element container included, an install makes no call
    of [renderer.listen] or [addEventListener] and links no handler: all it
    may do is subscribe to outputs.  On an element with no output bound to
    the event, an install that has nothing to coalesce onto makes exactly
    one such call. *)
Theorem C9_native_listener_on_elements_only :
  (forall s lv tv tn eventName listenerFn useCapture eventTargetResolver
      loadRendererFn s',
      lviews s !! currentLView s = Some lv ->
      tviews s !! TVIEW lv = Some tv ->
      tnodes s !! currentTNode s = Some tn ->
      type tn <> Element ->
      final_state (listenerInternal X eventName listenerFn useCapture
                     eventTargetResolver loadRendererFn s) = Some s' ->
      (exists t, trace s' = trace s ++ t /\ forallb is_subscribe t = true)
      /\ (exists h', heap s' = heap s ++ h'))
  /\ (forall s lv tv tn eventName listenerFn useCapture eventTargetResolver
        loadRendererFn,
        lviews s !! currentLView s = Some lv ->
        tviews s !! TVIEW lv = Some tv ->
        tnodes s !! currentTNode s = Some tn ->
        type tn ∈ [Container; ElementContainer] ->
        props_for X tn eventName = [] ->
        exists s',
          listenerInternal X eventName listenerFn useCapture eventTargetResolver
            loadRendererFn s = Done tt s'
          /\ trace s' = trace s /\ heap s' = heap s)
  /\ (forall s lv tv tn eventName listenerFn useCapture eventTargetResolver
        loadRendererFn,
        lviews s !! currentLView s = Some lv ->
        tviews s !! TVIEW lv = Some tv ->
        tnodes s !! currentTNode s = Some tn ->
        type tn = Element ->
        props_for X tn eventName = [] ->
        (isProceduralRenderer (renderer_of loadRendererFn tn lv) = true ->
         eventTargetResolver = None ->
         findExistingListener_in (cleanup (tv_ready tv)) (Some (default [] (CLEANUP lv)))
           eventName (index tn) = Some (Normal VNull)) ->
        exists s' ev,
          listenerInternal X eventName listenerFn useCapture eventTargetResolver
            loadRendererFn s = Done tt s'
          /\ trace s' = trace s ++ [ev] /\ is_native ev = true).
Proof.
  split; [|split].
  - intros s lv tv tn eventName listenerFn useCapture eventTargetResolver
      loadRendererFn s' Hlv Htv Htn Htype Hfinal.
    destruct (tCleanup_ready_same s lv tv) as (Hh & Ht & Hl & Hn & Hd & Hcl & Hct).
    assert (Hcases : (is_Some (ngDevMode s) /\
                        type tn ∉ [Element; Container; ElementContainer])
                     \/ (ngDevMode s = None \/ type tn ∈ [Container; ElementContainer])).
    { destruct (ngDevMode s) as [n|]; [|by right; left].
      destruct (decide (type tn ∈ [Element; Container; ElementContainer])) as [Hin|Hout].
      - right. right. apply elem_of_cons in Hin as [Hel|Hin]; [done|done].
      - left. split; [by eexists | done]. }
    destruct Hcases as [[Hdev Hout]|Hok].
    + rewrite (listenerInternal_rejected_node X s lv tv tn _ _ _ _ _ Hlv Htv Htn Hdev Hout)
        in Hfinal.
      cbn in Hfinal. injection Hfinal as <-. rewrite Ht, Hh.
      split; [exists [] | exists []]; by rewrite app_nil_r.
    + rewrite (listenerInternal_other_node X s lv tv tn _ _ _ _ _ Hlv Htv Htn Htype Hok)
        in Hfinal.
      pose proof (outputs_frame_outputs_step (currentLView s) (TVIEW lv)
                    (firstTemplatePass tv) tn eventName (VRef listenerFn)
                    (with_tnodes (<[currentTNode s := outputs_cached X tn]>
                                    (tnodes (tCleanup_ready (TVIEW lv) tv s)))
                       (tCleanup_ready (TVIEW lv) tv s))) as Hframe.
      destruct (outputs_step _ _ _ _ _ _ _ _) as [a s1|e s1| |]; try done;
        cbn in Hfinal; injection Hfinal as <-;
        destruct Hframe as [Hheap Htrace]; cbn in Hheap, Htrace;
        rewrite Hh in Hheap; rewrite Ht in Htrace; done.
  - intros s lv tv tn eventName listenerFn useCapture eventTargetResolver
      loadRendererFn Hlv Htv Htn Htype Hnone.
    destruct (tCleanup_ready_same s lv tv) as (Hh & Ht & Hl & Hn & Hd & Hcl & Hct).
    eexists. erewrite listenerInternal_other_node; [| done | done | done | | by right].
    2:{ intros Hel. rewrite Hel in Htype.
        apply elem_of_cons in Htype as [?|Htype]; [done|].
        apply elem_of_cons in Htype as [?|Htype]; [done|]. by apply elem_of_nil in Htype. }
    unfold outputs_step. rewrite Hnone. split; [reflexivity|]. by cbn.
  - intros s lv tv tn eventName listenerFn useCapture eventTargetResolver
      loadRendererFn Hlv Htv Htn Htype Hnone Hfresh.
    destruct (isProceduralRenderer (renderer_of loadRendererFn tn lv)) eqn:Hproc.
    + destruct (install_listen X s lv tv tn eventName listenerFn useCapture
                  eventTargetResolver loadRendererFn Hlv Htv Htn Htype Hnone Hproc)
        as (w & s' & Hrun & Htrace & _); [by apply Hfresh|].
      by eexists _, _.
    + destruct (install_direct X s lv tv tn eventName listenerFn useCapture
                  eventTargetResolver loadRendererFn Hlv Htv Htn Htype Hnone Hproc)
        as (w & s' & Hrun & Htrace & _).
      by eexists _, _.
Qed.

End NodeKindClaim.

(** ** The claims on outputs *)

Section OutputClaims.

Variable X : Externals.

Section Folded.

Variables (lView tView : nat) (tCleanup : bool) (eventName : string)
  (tNodeIndex : Z) (fn : JsVal).

Let step := subscribed lView tView tCleanup eventName tNodeIndex fn.

(** The state after the loop has subscribed the outputs [os]. *)
Lemma foldl_subscribed os : forall s slots0 lv,
  loop_ready lView tView tCleanup s slots0 ->
  lviews s !! lView = Some lv ->
  loop_ready lView tView tCleanup (foldl step s os) slots0
  /\ trace (foldl step s os) = trace s ++ map (fun o => Subscribe o fn) os
  /\ heap (foldl step s os) = heap s ++ replicate (length os) subscription_object
  /\ ngDevMode (foldl step s os) = ngDevMode s
  /\ exists lv',
       lviews (foldl step s os) !! lView = Some lv'
       /\ default [] (CLEANUP lv')
          = default [] (CLEANUP lv)
            ++ output_cleanup fn (seq (length (heap s)) (length os)).
Proof.
  induction os as [|o os IH]; intros s slots0 lv Hready Hlv.
  - cbn [foldl length map replicate]. rewrite !app_nil_r.
    split; [done|]. split; [done|]. split; [done|]. split; [done|].
    by exists lv.
  - cbn [foldl].
    pose proof (subscribed_ready lView tView tCleanup eventName tNodeIndex fn
                  s slots0 o Hready) as Hready'.
    pose proof Hready as (lv0 & tv0 & Hlv0 & Hslots0 & Htv0 & Htc0).
    assert (lv0 = lv) as -> by congruence.
    assert (Hlv1 : lviews (step s o) !! lView
                   = Some (set_CLEANUP
                             (Some (default [] (CLEANUP lv) ++ [fn; VRef (length (heap s))]))
                             lv)).
    { subst step. unfold subscribed. rewrite Hlv, Htv0. cbn.
      apply list_lookup_insert_eq. by eapply lookup_lt_Some. }
    destruct (IH (step s o) slots0 _ Hready' Hlv1)
      as (Hr & Ht & Hh & Hd & lv' & Hlv' & Hc).
    assert (Hheap1 : heap (step s o) = heap s ++ [subscription_object]).
    { subst step. by eapply subscribed_heap. }
    assert (Htrace1 : trace (step s o) = trace s ++ [Subscribe o fn]).
    { subst step. by eapply subscribed_trace. }
    split; [done|]. split; [by rewrite Ht, Htrace1, <- app_assoc|].
    split; [by rewrite Hh, Hheap1, <- app_assoc|].
    split.
    { rewrite Hd. subst step. unfold subscribed. by rewrite Hlv, Htv0. }
    exists lv'. split; [done|]. rewrite Hc. cbn [CLEANUP set_CLEANUP default].
    simpl. rewrite Hheap1, length_app. cbn [length].
    replace (length (heap s) + 1)%nat with (S (length (heap s))) by lia.
    unfold output_cleanup. cbn [seq flat_map]. by rewrite <- app_assoc.
Qed.

End Folded.

(** [getCleanup] keeps the state ready for the loop. *)
Lemma getCleanup_ready s lView tView tCleanup slots0 lv :
  loop_ready lView tView tCleanup s slots0 ->
  lviews s !! lView = Some lv ->
  exists s3,
    getCleanup lView s = Done (default [] (CLEANUP lv)) s3
    /\ loop_ready lView tView tCleanup s3 slots0
    /\ lviews s3 !! lView = Some (set_CLEANUP (Some (default [] (CLEANUP lv))) lv)
    /\ heap s3 = heap s /\ trace s3 = trace s /\ ngDevMode s3 = ngDevMode s.
Proof.
  intros (lv0 & tv0 & Hlv0 & Hslots & Htv0 & Htc0) Hlv.
  assert (lv0 = lv) as -> by congruence.
  eexists. split; [by apply getCleanup_done|].
  assert (Hl : (<[lView := set_CLEANUP (Some (default [] (CLEANUP lv))) lv]> (lviews s))
               !! lView = Some (set_CLEANUP (Some (default [] (CLEANUP lv))) lv)).
  { apply list_lookup_insert_eq. by eapply lookup_lt_Some. }
  split; [|done]. eexists _, tv0. split; [exact Hl|]. done.
Qed.

(** The outputs of the event, all of them streams: each is subscribed once,
    with the listener [fn], and gets its own subscription and its own two
    cleanup entries. *)
Lemma outputs_step_all s lView tView tCleanup tn eventName fn slots0 lv os :
  loop_ready lView tView tCleanup s slots0 ->
  lviews s !! lView = Some lv ->
  Forall2 (stream_in (heap s) slots0) (props_for X tn eventName) os ->
  exists s' lv',
    outputs_step X lView tView tCleanup tn eventName fn s = Done tt s'
    /\ trace s' = trace s ++ map (fun o => Subscribe o fn) os
    /\ heap s' = heap s ++ replicate (length os) subscription_object
    /\ lviews s' !! lView = Some lv'
    /\ default [] (CLEANUP lv')
       = default [] (CLEANUP lv) ++ output_cleanup fn (seq (length (heap s)) (length os)).
Proof.
  intros Hready Hlv Hall. unfold outputs_step.
  destruct (props_for X tn eventName) as [|p props] eqn:Hprops.
  - apply Forall2_nil_inv_l in Hall as ->. exists s, lv. cbn.
    rewrite !app_nil_r. done.
  - destruct (getCleanup_ready s lView tView tCleanup slots0 lv Hready Hlv)
      as (s3 & Hget & Hready3 & Hlv3 & Hh3 & Ht3 & Hd3).
    rewrite (bind_done _ _ _ _ _ Hget).
    rewrite <- Hh3 in Hall.
    rewrite (subscribeOutputs_all lView tView tCleanup eventName (index tn) fn
               _ os s3 slots0 Hready3 Hall).
    destruct (foldl_subscribed lView tView tCleanup eventName (index tn) fn os
                s3 slots0 _ Hready3 Hlv3) as (_ & Ht & Hh & _ & lv' & Hlv' & Hc).
    eexists _, lv'. split; [reflexivity|]. rewrite Ht, Hh, Hc, Ht3, Hh3. done.
Qed.

(** The outputs of the event up to the first that is no stream. *)
Lemma outputs_step_stops s lView tView tCleanup tn eventName fn slots0 lv os
    props p props' c v :
  loop_ready lView tView tCleanup s slots0 ->
  lviews s !! lView = Some lv ->
  slots lv = slots0 ->
  props_for X tn eventName = props ++ p :: props' ->
  Forall2 (stream_in (heap s) slots0) props os ->
  not_observable_at (heap s) lv p c v ->
  exists s',
    outputs_step X lView tView tCleanup tn eventName fn s
    = Raised (if bool_decide (is_Some (ngDevMode s))
              then Error (output_not_initialized (minifiedName p) c)
              else TypeError) s'
    /\ trace s' = trace s ++ map (fun o => Subscribe o fn) os.
Proof.
  intros Hready Hlv Hslots Hprops Hall Hbad. unfold outputs_step. rewrite Hprops.
  destruct (getCleanup_ready s lView tView tCleanup slots0 lv Hready Hlv)
    as (s3 & Hget & Hready3 & Hlv3 & Hh3 & Ht3 & Hd3).
  assert (Hgo :
    (getCleanup lView ;;
     subscribeOutputs lView tView tCleanup eventName (index tn) fn (props ++ p :: props')) s
    = Raised (if bool_decide (is_Some (ngDevMode s))
              then Error (output_not_initialized (minifiedName p) c)
              else TypeError)
        (foldl (subscribed lView tView tCleanup eventName (index tn) fn) s3 os)).
  { rewrite (bind_done _ _ _ _ _ Hget). rewrite <- Hd3.
    eapply subscribeOutputs_stops; [exact Hready3 | exact Hslots | by rewrite Hh3 |].
    by rewrite Hh3. }
  destruct (foldl_subscribed lView tView tCleanup eventName (index tn) fn os
              s3 slots0 _ Hready3 Hlv3) as (_ & Ht & _).
  exists (foldl (subscribed lView tView tCleanup eventName (index tn) fn) s3 os).
  split; [|by rewrite Ht, Ht3].
  destruct props; exact Hgo.
Qed.

Section Split.

Variables (s : State) (lv : LView) (tv : TView) (tn : TNode).
Variables (eventName : string) (listenerFn : loc) (useCapture : bool)
  (eventTargetResolver : option GlobalTargetResolver)
  (loadRendererFn : option (TNode -> LView -> Renderer3)).

Hypothesis Hlv : lviews s !! currentLView s = Some lv.
Hypothesis Htv : tviews s !! TVIEW lv = Some tv.
Hypothesis Htn : tnodes s !! currentTNode s = Some tn.
Hypothesis Hassert :
  ngDevMode s = None \/ type tn ∈ [Element; Container; ElementContainer].

Variables (fn : JsVal) (s1 : State).

Hypothesis Hnative :
  native_step X (currentLView s) (currentTNode s) (TVIEW lv) (firstTemplatePass tv)
    tn eventName listenerFn useCapture eventTargetResolver loadRendererFn
    (tCleanup_ready (TVIEW lv) tv s) = Done fn s1.

(** The state when the outputs are reached. *)
Let s2 : State := with_tnodes (<[currentTNode s := outputs_cached X tn]> (tnodes s1)) s1.

Lemma native_step_frame : install_frame (tCleanup_ready (TVIEW lv) tv s) s1.
Proof.
  unfold native_step in Hnative.
  destruct (bool_decide (type tn = Element)).
  - pose proof (install_frame_addNativeListener X (currentLView s) (currentTNode s)
                  (TVIEW lv) (firstTemplatePass tv) eventName (VRef listenerFn)
                  useCapture eventTargetResolver loadRendererFn
                  (tCleanup_ready (TVIEW lv) tv s)) as Hframe.
    by rewrite Hnative in Hframe.
  - injection Hnative as <- <-. reflexivity.
Qed.

Lemma listenerInternal_split :
  listenerInternal X eventName listenerFn useCapture eventTargetResolver
    loadRendererFn s
  = outputs_step X (currentLView s) (TVIEW lv) (firstTemplatePass tv) tn eventName fn s2.
Proof.
  unfold native_step in Hnative.
  destruct (decide (type tn = Element)) as [Hel|Hne].
  - rewrite bool_decide_eq_true_2 in Hnative by done.
    by eapply listenerInternal_element.
  - rewrite bool_decide_eq_false_2 in Hnative by done.
    injection Hnative as <- <-.
    eapply listenerInternal_other_node; [done | done | done | done |].
    destruct Hassert as [Hdev|Hin]; [by left | right].
    apply elem_of_cons in Hin as [?|Hin]; done.
Qed.

(** The view and the template view as the native step leaves them. *)
Lemma native_step_leaves :
  loop_ready (currentLView s) (TVIEW lv) (firstTemplatePass tv) s2 (slots lv)
  /\ heap s2 = heap s1 /\ trace s2 = trace s1
  /\ (is_Some (ngDevMode s2) <-> is_Some (ngDevMode s))
  /\ lviews s2 = lviews s1.
Proof.
  destruct native_step_frame as (Hn & Hcl & Hct & Hd & Hk & Hv & Htvs).
  destruct (tCleanup_ready_same s lv tv) as (Hh0 & Ht0 & Hl0 & Hn0 & Hd0 & Hcl0 & Hct0).
  destruct (tCleanup_ready_lookup s _ _ Htv) as [Htv0 Htc0].
  destruct (Hv (currentLView s) lv) as (lv1 & Hlv1 & _ & _ & _ & Hslots);
    [by rewrite Hl0|].
  destruct (Htvs (TVIEW lv) (tv_ready tv) Htv0) as (tv1 & Htv1 & Hfirst & Hsome).
  split; [|split; [done|split; [done|split; [by rewrite <- Hd0|done]]]].
  exists lv1, tv1. split; [done|]. split; [done|]. split; [done|].
  intros Hpass. by apply Hsome, Htc0.
Qed.

End Split.

(** C6 (amended). Every output of the node that the event name matches is
    subscribed once, with the value that [listenerFn] has when the native
    step is over, and the subscriptions are never coalesced: each output
    gets a call of [subscribe], a subscription of its own, and two cleanup
    entries of its own in the view.  The listener subscribed is the original
    handler when the node is not an element or when the handler was
    coalesced onto an existing listener; it is the closure that marks the
    view dirty when the native step has just attached one, directly or
    through [renderer.listen]. *)
Theorem C6_outputs_subscribe_the_listener_in_force :
  (forall s lv tv tn eventName listenerFn useCapture eventTargetResolver
      loadRendererFn fn s1 lv1 os,
      lviews s !! currentLView s = Some lv ->
      tviews s !! TVIEW lv = Some tv ->
      tnodes s !! currentTNode s = Some tn ->
      (ngDevMode s = None \/ type tn ∈ [Element; Container; ElementContainer]) ->
      native_step X (currentLView s) (currentTNode s) (TVIEW lv) (firstTemplatePass tv)
        tn eventName listenerFn useCapture eventTargetResolver loadRendererFn
        (tCleanup_ready (TVIEW lv) tv s) = Done fn s1 ->
      lviews s1 !! currentLView s = Some lv1 ->
      Forall2 (stream_in (heap s1) (slots lv)) (props_for X tn eventName) os ->
      exists s' lv',
        listenerInternal X eventName listenerFn useCapture eventTargetResolver
          loadRendererFn s = Done tt s'
        /\ trace s' = trace s1 ++ map (fun o => Subscribe o fn) os
        /\ heap s' = heap s1 ++ replicate (length os) subscription_object
        /\ lviews s' !! currentLView s = Some lv'
        /\ default [] (CLEANUP lv')
           = default [] (CLEANUP lv1)
             ++ output_cleanup fn (seq (length (heap s1)) (length os)))
  /\ (forall st lView tNode tView tCleanup tn eventName listenerFn useCapture
        eventTargetResolver loadRendererFn,
        type tn <> Element ->
        native_step X lView tNode tView tCleanup tn eventName listenerFn useCapture
          eventTargetResolver loadRendererFn st = Done (VRef listenerFn) st)
  /\ (forall st lView tNode tView tCleanup tn lv tv eventName listenerFn useCapture
        eventTargetResolver loadRendererFn r o_r o_f,
        tnodes st !! tNode = Some tn ->
        lviews st !! lView = Some lv ->
        tviews st !! tView = Some tv ->
        type tn = Element ->
        isProceduralRenderer (renderer_of loadRendererFn tn lv) = true ->
        TVIEW lv = tView ->
        eventTargetResolver = None ->
        findExistingListener_in (cleanup tv) (Some (default [] (CLEANUP lv)))
          eventName (index tn) = Some (Normal (VRef r)) ->
        heap st !! r = Some o_r ->
        heap st !! listenerFn = Some o_f ->
        exists s1,
          native_step X lView tNode tView tCleanup tn eventName listenerFn useCapture
            eventTargetResolver loadRendererFn st = Done (VRef listenerFn) s1)
  /\ (forall st lView tNode tView tCleanup tn lv tv eventName listenerFn useCapture
        eventTargetResolver loadRendererFn,
        tnodes st !! tNode = Some tn ->
        lviews st !! lView = Some lv ->
        tviews st !! tView = Some tv ->
        (tCleanup = true -> is_Some (cleanup tv)) ->
        type tn = Element ->
        (isProceduralRenderer (renderer_of loadRendererFn tn lv) = true ->
         TVIEW lv = tView
         /\ (eventTargetResolver = None ->
             findExistingListener_in (cleanup tv) (Some (default [] (CLEANUP lv)))
               eventName (index tn) = Some (Normal VNull))) ->
        exists w s1,
          native_step X lView tNode tView tCleanup tn eventName listenerFn useCapture
            eventTargetResolver loadRendererFn st = Done (VRef w) s1
          /\ heap st !! w = None
          /\ kind <$> heap s1 !! w
             = Some (WrappedListener tNode lView (VRef listenerFn)
                       (negb (isProceduralRenderer (renderer_of loadRendererFn tn lv))))).
Proof.
  split; [|split; [|split]].
  - intros s lv tv tn eventName listenerFn useCapture eventTargetResolver
      loadRendererFn fn s1 lv1 os Hlv Htv Htn Hassert Hnative Hlv1 Hall.
    rewrite (listenerInternal_split s lv tv tn eventName listenerFn useCapture
               eventTargetResolver loadRendererFn Hlv Htv Htn Hassert fn s1 Hnative).
    destruct (native_step_leaves s lv tv tn eventName listenerFn useCapture
                eventTargetResolver loadRendererFn Hlv Htv fn s1 Hnative)
      as (Hready & Hh & Ht & Hd & Hl).
    rewrite <- Hh, <- Ht. rewrite <- Hh in Hall.
    apply (outputs_step_all _ _ _ _ _ _ _ (slots lv)); [done | by rewrite Hl | done].
  - intros st lView tNode tView tCleanup tn eventName listenerFn useCapture
      eventTargetResolver loadRendererFn Hne.
    unfold native_step. by rewrite bool_decide_eq_false_2.
  - intros st lView tNode tView tCleanup tn lv tv eventName listenerFn useCapture
      eventTargetResolver loadRendererFn r o_r o_f Htn Hlv Htv Hel Hproc HtView Hres
      Hfound Hr Hf.
    unfold native_step. rewrite bool_decide_eq_true_2 by done.
    eexists. by eapply (addNativeListener_coalesce X st lView tNode tView tn lv tv).
  - intros st lView tNode tView tCleanup tn lv tv eventName listenerFn useCapture
      eventTargetResolver loadRendererFn Htn Hlv Htv Htc Hel Hfresh.
    unfold native_step. rewrite bool_decide_eq_true_2 by done.
    destruct (isProceduralRenderer (renderer_of loadRendererFn tn lv)) eqn:Hproc.
    + destruct (Hfresh eq_refl) as [HtView Hnull].
      eexists _, _. split.
      { by eapply (addNativeListener_listen X st lView tNode tView tn lv tv). }
      split.
      * apply lookup_ge_None. lia.
      * cbn. by rewrite lookup_new_object.
    + eexists _, _. split.
      { by eapply (addNativeListener_direct X st lView tNode tView tn lv tv). }
      split.
      * apply lookup_ge_None. lia.
      * cbn. by rewrite lookup_new_object.
Qed.

(** C8 (amended). When an output that the event name matches is not a
    subscribable stream, the install ends there with an error and makes no
    subscription for that output or for the outputs after it.  Under
    [ngDevMode] the error is the descriptive one, which names the property
    and the type that owns it; without [ngDevMode] it is the TypeError of the
    call of [subscribe]. *)
Theorem C8_misconfigured_output_aborts_the_install
    s lv tv tn eventName listenerFn useCapture eventTargetResolver loadRendererFn
    fn s1 props p props' os c v :
  lviews s !! currentLView s = Some lv ->
  tviews s !! TVIEW lv = Some tv ->
  tnodes s !! currentTNode s = Some tn ->
  (ngDevMode s = None \/ type tn ∈ [Element; Container; ElementContainer]) ->
  native_step X (currentLView s) (currentTNode s) (TVIEW lv) (firstTemplatePass tv)
    tn eventName listenerFn useCapture eventTargetResolver loadRendererFn
    (tCleanup_ready (TVIEW lv) tv s) = Done fn s1 ->
  props_for X tn eventName = props ++ p :: props' ->
  Forall2 (stream_in (heap s1) (slots lv)) props os ->
  not_observable_at (heap s1) lv p c v ->
  exists s',
    listenerInternal X eventName listenerFn useCapture eventTargetResolver
      loadRendererFn s
    = Raised (if bool_decide (is_Some (ngDevMode s))
              then Error (output_not_initialized (minifiedName p) c)
              else TypeError) s'
    /\ trace s' = trace s1 ++ map (fun o => Subscribe o fn) os.
Proof.
  intros Hlv Htv Htn Hassert Hnative Hprops Hall Hbad.
  rewrite (listenerInternal_split s lv tv tn eventName listenerFn useCapture
             eventTargetResolver loadRendererFn Hlv Htv Htn Hassert fn s1 Hnative).
  destruct (native_step_leaves s lv tv tn eventName listenerFn useCapture
              eventTargetResolver loadRendererFn Hlv Htv fn s1 Hnative)
    as (Hready & Hh & Ht & Hd & Hl).
  pose proof Hready as (lv1 & tv1 & Hlv1 & Hslots1 & _).
  rewrite <- Hh in Hall, Hbad. rewrite <- Ht.
  rewrite <- (bool_decide_ext _ _ Hd).
  eapply (outputs_step_stops _ _ _ _ _ _ _ (slots lv) lv1);
    [done | done | done | done | done |].
  destruct Hbad as (d & dprops & Hd' & Hrest). exists d, dprops.
  split; [|done]. unfold lview_at in *. by rewrite Hslots1.
Qed.

End OutputClaims.

(** ** Coalescing *)

Section Coalescing.

Variable X : Externals.

Variables (s : State) (eventName : string) (lv : LView) (tv : TView) (tn : TNode).

Hypothesis Hground : coalescing_ground X s eventName lv tv tn.

Let lCleanup := default [] (CLEANUP lv).
Let tCleanup := default [] (cleanup tv).
Let w := length (heap s).

Lemma cleanup_tv_ready : cleanup (tv_ready tv) = Some tCleanup.
Proof.
  subst tCleanup. unfold tv_ready. rewrite (cg_first_pass _ _ _ _ _ _ Hground).
  destruct (cleanup tv) as [c|] eqn:Hc; cbn [andb].
  - by rewrite bool_decide_eq_true_2 by (by eexists).
  - by rewrite bool_decide_eq_false_2 by (by intros [? ?]).
Qed.

Lemma props_for_cached tn0 name :
  props_for X (outputs_cached X tn0) name = props_for X tn0 name.
Proof.
  unfold props_for, outputs_cached.
  destruct (outputs tn0) eqn:Hout; cbn; rewrite ?Hout; try done.
  by destruct (generatePropertyAliases X tn0).
Qed.

(** The lookup finds nothing before the first bind. *)
Lemma nothing_bound_yet :
  findExistingListener_in (cleanup (tv_ready tv)) (Some lCleanup) eventName (index tn)
  = Some (Normal VNull).
Proof.
  rewrite cleanup_tv_ready. cbn [findExistingListener_in].
  apply (loop_without_match _ _ _ _ _ 0);
    [intros; apply (cg_unbound _ _ _ _ _ _ Hground) | lia | lia].
Qed.

(** The first bind registers a native listener. *)
Lemma first_bind h :
  Δlistener X eventName h None None s
  = Done tt (after_first_bind X s eventName lv tv tn h).
Proof.
  pose proof Hground as [Hlv Htv Htn Hel Hproc Hfirst Hnone Hblocks Hunbound].
  destruct (tCleanup_ready_same s lv tv) as (Hh & Ht & Hl & Hn & Hd & Hcl & Hct).
  destruct (tCleanup_ready_lookup s _ _ Htv) as [Htv0 Htc0].
  unfold Δlistener. cbn [default].
  erewrite listenerInternal_element; [| done | done | done | done |].
  2:{ apply (addNativeListener_listen X (tCleanup_ready (TVIEW lv) tv s)
               (currentLView s) (currentTNode s) (TVIEW lv) tn lv (tv_ready tv));
      [by rewrite Hn | by rewrite Hl | done | exact Htc0 | done | done |].
      intros _. apply nothing_bound_yet. }
  unfold outputs_step. rewrite Hnone. unfold ret. f_equal.
  unfold after_first_bind, with_tnodes, with_trace, with_ngDevMode, with_tviews,
    with_lviews, with_heap, tviews_pushed, listen_on, target_of.
  cbn. rewrite Hfirst, Hh, Ht, Hl, Hn, Hd, Hcl, Hct, cleanup_tv_ready. cbn.
  rewrite Nat.add_0_r. f_equal.
  unfold tCleanup_ready, tv_ready. rewrite Hfirst. cbn [andb].
  destruct (negb (bool_decide (is_Some (cleanup tv)))); cbn; [|done].
  by rewrite list_insert_insert_eq.
Qed.

Lemma array_at_app_l (a b : list JsVal) i :
  (i < length a)%nat -> array_at (a ++ b) i = array_at a i.
Proof. intros Hi. unfold array_at. by rewrite lookup_app_l. Qed.

Lemma array_at_app_r (a b : list JsVal) i :
  array_at (a ++ b) (length a + i) = array_at b i.
Proof.
  unfold array_at. rewrite lookup_app_r by lia.
  by replace (length a + i - length a)%nat with i by lia.
Qed.

Lemma entry_matches_app_l (a b : list JsVal) name idx i :
  (i + 1 < length a)%nat ->
  entry_matches (a ++ b) name idx i = entry_matches a name idx i.
Proof.
  intros Hi. unfold entry_matches. by rewrite !array_at_app_l by lia.
Qed.

(** After the first bind, the lookup finds its closure. *)
Lemma found_after_first_bind d :
  findExistingListener_in
    (Some (tCleanup ++ [VStr eventName; VNum (index tn);
                        VNum (Z.of_nat (length lCleanup));
                        VNum (Z.of_nat (length lCleanup) + 1)]))
    (Some (lCleanup ++ [VRef w; d])) eventName (index tn)
  = Some (Normal (VRef w)).
Proof.
  destruct (cg_blocks _ _ _ _ _ _ Hground) as [k Hk]. fold tCleanup in Hk.
  cbn [findExistingListener_in].
  rewrite (loop_first_match _ _ _ _ _ 0 k); [| lia | | | rewrite length_app; cbn; lia].
  - unfold existing_at.
    replace (4 * k + 2)%nat with (length tCleanup + 2)%nat by lia.
    rewrite array_at_app_r. cbn [array_at lookup list_lookup default from_option id].
    unfold num_gt. cbn [to_number]. rewrite length_app. cbn [length].
    destruct (Z.of_nat (length lCleanup) <? Z.of_nat (length lCleanup + 2)) eqn:Hlt;
      [|apply Z.ltb_ge in Hlt; lia].
    cbn [array_get]. destruct (0 <=? Z.of_nat (length lCleanup)) eqn:Hpos;
      [|apply Z.leb_gt in Hpos; lia].
    rewrite Nat2Z.id.
    replace (length lCleanup) with (length lCleanup + 0)%nat at 1 by lia.
    by rewrite array_at_app_r.
  - unfold entry_matches. rewrite <- Hk.
    replace (length tCleanup) with (length tCleanup + 0)%nat at 1 by lia.
    rewrite !array_at_app_r. cbn. unfold strict_eq.
    by rewrite !bool_decide_eq_true_2.
  - intros k' _ Hk'. rewrite entry_matches_app_l by lia.
    apply (cg_unbound _ _ _ _ _ _ Hground).
Qed.

Lemma outputs_cached_twice tn0 : outputs_cached X (outputs_cached X tn0) = outputs_cached X tn0.
Proof.
  unfold outputs_cached. destruct (outputs tn0) eqn:Hout; cbn; rewrite ?Hout; try done.
  by destruct (generatePropertyAliases X tn0).
Qed.

Lemma outputs_cached_same tn0 :
  type (outputs_cached X tn0) = type tn0 /\ index (outputs_cached X tn0) = index tn0.
Proof. unfold outputs_cached. by destruct (outputs tn0). Qed.

(** Every later bind links its handler behind the closure of the first, and
    changes nothing but the two links. *)
Lemma next_bind h1 (hp : list Obj) f o_w o_f :
  hp !! w = Some o_w ->
  hp !! f = Some o_f ->
  Δlistener X eventName f None None
    (with_heap hp (after_first_bind X s eventName lv tv tn h1))
  = Done tt
      (with_heap
         (<[w := {| kind := kind o_w; ngNextListenerFn := VRef f |}]>
            (<[f := {| kind := kind o_f; ngNextListenerFn := ngNextListenerFn o_w |}]> hp))
         (after_first_bind X s eventName lv tv tn h1)).
Proof.
  intros Hw Hf.
  pose proof Hground as [Hlv Htv Htn Hel Hproc Hfirst Hnone Hblocks Hunbound].
  set (s1 := after_first_bind X s eventName lv tv tn h1).
  set (lv1 := set_CLEANUP (Some (lCleanup ++ [VRef w; VRef (S w)])) lv).
  set (tv1 := set_cleanup
                (Some (tCleanup ++ [VStr eventName; VNum (index tn);
                                    VNum (Z.of_nat (length lCleanup));
                                    VNum (Z.of_nat (length lCleanup) + 1)])) tv).
  assert (Hlv1 : lviews (with_heap hp s1) !! currentLView (with_heap hp s1) = Some lv1).
  { cbn. apply list_lookup_insert_eq. by eapply lookup_lt_Some. }
  assert (Htv1 : tviews (with_heap hp s1) !! TVIEW lv1 = Some tv1).
  { cbn. apply list_lookup_insert_eq. by eapply lookup_lt_Some. }
  assert (Htn1 : tnodes (with_heap hp s1) !! currentTNode (with_heap hp s1)
                 = Some (outputs_cached X tn)).
  { cbn. apply list_lookup_insert_eq. by eapply lookup_lt_Some. }
  destruct (outputs_cached_same tn) as [Htype1 Hindex1].
  assert (Hready : tCleanup_ready (TVIEW lv1) tv1 (with_heap hp s1) = with_heap hp s1).
  { unfold tCleanup_ready. cbn [cleanup tv1 set_cleanup].
    rewrite bool_decide_eq_true_2 by (by eexists). by rewrite andb_false_r. }
  unfold Δlistener. cbn [default].
  erewrite (listenerInternal_element X (with_heap hp s1) lv1 tv1 (outputs_cached X tn));
    [| exact Hlv1 | exact Htv1 | exact Htn1 | by rewrite Htype1 |].
  2:{ rewrite Hready.
      eapply addNativeListener_coalesce
        with (tn := outputs_cached X tn) (lv := lv1) (tv := tv1) (r := w)
             (o_r := o_w) (o_f := o_f);
        [exact Htn1 | exact Hlv1 | exact Htv1 | exact Hproc | done | done | done
        | | exact Hw | exact Hf].
      rewrite Hindex1. apply found_after_first_bind. }
  unfold outputs_step. rewrite props_for_cached, Hnone. unfold ret. f_equal.
  rewrite outputs_cached_twice.
  unfold with_tnodes, with_lviews, with_heap. subst s1 lv1. cbn.
  unfold after_first_bind. cbn. f_equal.
  - rewrite list_insert_insert_eq. done.
  - rewrite list_insert_insert_eq. done.
Qed.



Lemma with_heap_same st : with_heap (heap st) st = st.
Proof. by destruct st. Qed.


End Coalescing.

(** ** The claim on the order of a coalesced chain *)

Section ChainOrderClaim.

Variable X : Externals.




End ChainOrderClaim.

(** ** The claims at the sample views *)

Section Samples.

Import Sample.

Lemma entry_matches_beyond (tCleanup : list JsVal) eventName tNodeIdx i :
  (length tCleanup <= i + 1)%nat ->
  entry_matches tCleanup eventName tNodeIdx i = false.
Proof.
  intros Hlen. destruct (entry_matches tCleanup eventName tNodeIdx i) eqn:Hm; [|done].
  apply entry_matches_in_range in Hm. lia.
Qed.

Lemma bound_is_wrapped :
  wrapped_listener bound 2 0 0 button (view (ObjectOrientedRenderer3 0) []) true
    (0%nat, returns (VBool true)) [(1%nat, throws 1)].
Proof.
  constructor.
  - exists (VRef 1%nat). split; [reflexivity|].
    apply (chain_link _ 1%nat (throws 1) VUndef []); [reflexivity | by apply chain_end].
  - by exists VUndef.
  - reflexivity.
  - reflexivity.
Qed.

Lemma fresh_is_ground :
  coalescing_ground X0 fresh "click" (view (ProceduralRenderer3 0) []) template button.
Proof.
  constructor; try reflexivity. by exists 0%nat.
Qed.


End Samples.

Import Sample.

(** C1 (failing input). In a view that has registered one destroy hook, whose
    block of two slots comes first in the cleanup array of the template,
    binding H1 and then H2 to the click of the same button calls
    [renderer.listen] twice: the second bind does not find the entry of the
    first, which begins at slot 2. *)
Theorem C1_destroy_hook_block_defeats_coalescing :
  exists s',
    bind_all X0 "click" [0; 1]%nat with_destroy_hook = Done tt s'
    /\ List.filter is_listen (trace s')
       = [RendererListen (ProceduralRenderer3 0) (TargetNode 20%nat) "click" (VRef 5%nat);
          RendererListen (ProceduralRenderer3 0) (TargetNode 20%nat) "click" (VRef 7%nat)]
    /\ (ngNextListenerFn <$> heap s' !! 5%nat) = Some VUndef.
Proof. eexists. split; [reflexivity|]. split; reflexivity. Qed.



Lemma C3_witness :
  exists result t,
    invoke X0 3 (VRef 2%nat) 7%nat bound = Done result (with_trace (trace bound ++ t) bound)
    /\ marks_of t = [0%nat].
Proof.
  apply (C3_dirty_mark_target X0 bound 2 0 0 button (view (ObjectOrientedRenderer3 0) [])
           true (0%nat, returns (VBool true)) [(1%nat, throws 1)] 7%nat 3%nat).
  - exact bound_is_wrapped.
  - simpl. lia.
Defined.

Lemma C4_witness :
  exists result t,
    invoke X0 3 (VRef 2%nat) 7%nat bound = Done result (with_trace (trace bound ++ t) bound)
    /\ calls_of t = [0; 1]%nat
    /\ (forall (hd : Handler) error,
          hd ∈ [(0%nat, returns (VBool true)); (1%nat, throws 1)] ->
          hd.2 7%nat = Throw error ->
          exists t1 t2, t = t1 ++ HandlerCall hd.1 7%nat :: HandleError 0 error :: t2)
    /\ (exists hd : Handler,
          last [(0%nat, returns (VBool true)); (1%nat, throws 1)] = Some hd
          /\ result = match hd.2 7%nat with
                      | Normal v => v
                      | Throw _ => VBool false
                      end).
Proof.
  apply (C4_throwing_handler_is_isolated X0 bound 2 0 0 button
           (view (ObjectOrientedRenderer3 0) []) true
           (0%nat, returns (VBool true)) [(1%nat, throws 1)] 7%nat 3%nat).
  - exact bound_is_wrapped.
  - simpl. lia.
Defined.

Lemma C7_witness :
  exists result startView t,
    invoke X0 3 (VRef 2%nat) 7%nat bound
    = Done result (with_trace (trace bound ++ MarkViewDirty startView :: t) bound)
    /\ calls_of t = [0; 1]%nat
    /\ marks_of t = [].
Proof.
  apply (C7_mark_precedes_handlers X0 bound 2 0 0 button
           (view (ObjectOrientedRenderer3 0) []) true
           (0%nat, returns (VBool true)) [(1%nat, throws 1)] 7%nat 3%nat).
  - exact bound_is_wrapped.
  - simpl. lia.
  - reflexivity.
Defined.

Lemma C10_witness :
  findExistingListener_in
    (Some [VRef 3%nat; VNum 0; VStr "click"; VNum 20; VNum 1; VNum 2])
    (Some [VRef 4%nat; VRef 5%nat; VRef 6%nat]) "click" 20
  = Some (Normal VNull)
  /\ findExistingListener_in (Some [VStr "click"; VNum 20; VNum 0; VNum 1])
       (Some [VRef 3%nat; VRef 4%nat]) "click" 20
     = Some (Normal (VRef 3%nat))
  /\ findExistingListener_in (Some [VStr "click"; VNum 20; VNum 0; VNum 1])
       (Some []) "click" 20
     = Some (Normal VNull).
Proof.
  split; [|split].
  - apply (proj1 (C10_lookup_strides_by_four
                    [VRef 3%nat; VNum 0; VStr "click"; VNum 20; VNum 1; VNum 2]
                    [VRef 4%nat; VRef 5%nat; VRef 6%nat] "click" 20)).
    intros [|[|k]]; [reflexivity | reflexivity |].
    apply entry_matches_beyond. simpl. lia.
  - apply (proj1 (proj2 (C10_lookup_strides_by_four
                           [VStr "click"; VNum 20; VNum 0; VNum 1]
                           [VRef 3%nat; VRef 4%nat] "click" 20)) 0%nat).
    + reflexivity.
    + intros k' Hk'. lia.
  - apply (proj2 (proj2 (C10_lookup_strides_by_four
                           [VStr "click"; VNum 20; VNum 0; VNum 1] [] "click" 20))
             0%nat 0).
    + reflexivity.
    + intros k' Hk'. lia.
    + reflexivity.
    + simpl. lia.
Defined.



(** C6 (counterexample). On a button with a directive whose output is bound to
    the event, in a view with a procedural renderer, the output is subscribed
    with the closure that the install has just registered (object 3, which
    wraps the handler), not with the handler itself (object 0). *)
Lemma C6_counterexample :
  exists s',
    Δlistener X0 "click" 0%nat None None with_output = Done tt s'
    /\ List.filter is_subscribe (trace s') = [Subscribe 2%nat (VRef 3%nat)]
    /\ kind <$> heap s' !! 3%nat = Some (WrappedListener 0 0 (VRef 0%nat) false)
    /\ VRef 3%nat <> VRef 0%nat.
Proof.
  eexists. split; [vm_compute; reflexivity|].
  split; [reflexivity|]. split; [reflexivity | discriminate].
Qed.

Lemma C6_witness :
  (exists s' lv',
      listenerInternal X0 "click" 0%nat false None None with_output = Done tt s'
      /\ trace s' = [RendererListen (ProceduralRenderer3 0) (TargetNode 20%nat) "click"
                       (VRef 3%nat);
                     Subscribe 2%nat (VRef 3%nat)]
      /\ heap s' = heap with_output
                   ++ [object (WrappedListener 0 0 (VRef 0%nat) false); object CleanupFn;
                       subscription_object]
      /\ lviews s' !! 0%nat = Some lv'
      /\ default [] (CLEANUP lv') = [VRef 3%nat; VRef 4%nat; VRef 3%nat; VRef 5%nat])
  /\ native_step X0 0 0 0 true anchor "click" 0%nat false None None on_container
     = Done (VRef 0%nat) on_container
  /\ (exists w s1,
        native_step X0 0 0 0 false button "click" 0%nat false None None fresh_dom
        = Done (VRef w) s1
        /\ heap fresh_dom !! w = None
        /\ kind <$> heap s1 !! w = Some (WrappedListener 0 0 (VRef 0%nat) true)).
Proof.
  destruct (C6_outputs_subscribe_the_listener_in_force X0)
    as (Houtputs & Hother & Hcoalesce & Hattach).
  split; [|split].
  - apply (Houtputs with_output (view (ProceduralRenderer3 0) [VRef 1%nat]) template
             (directed button) "click"%string 0%nat false None None (VRef 3%nat)
             (after_first_bind X0 with_output "click" (view (ProceduralRenderer3 0) [VRef 1%nat])
                template (directed button) 0%nat)
             (set_CLEANUP (Some [VRef 3%nat; VRef 4%nat])
                (view (ProceduralRenderer3 0) [VRef 1%nat]))
             [2%nat]).
    + reflexivity.
    + reflexivity.
    + reflexivity.
    + by left.
    + reflexivity.
    + reflexivity.
    + constructor; [|constructor].
      exists (view (ProceduralRenderer3 0) [VRef 1%nat]), "ClickDirective"%string.
      split; [reflexivity|].
      exists 1%nat, {[ "clk"%string := VRef 2%nat ]}.
      repeat split; reflexivity.
  - apply (Hother on_container 0%nat 0%nat 0%nat true anchor "click"%string 0%nat false
             None None).
    discriminate.
  - apply (Hattach fresh_dom 0%nat 0%nat 0%nat false button
             (view (ObjectOrientedRenderer3 0) []) template
             "click"%string 0%nat false None None).
    all: try reflexivity.
    all: discriminate.
Defined.

(** C8 (counterexample). Without [ngDevMode], an install on a button whose
    directive claims the event as an output but holds no stream there ends
    with a TypeError, not with the descriptive error. *)
Lemma C8_counterexample :
  exists s',
    Δlistener X0 "click" 0%nat None None (with_missing_output None) = Raised TypeError s'
    /\ TypeError <> Error (output_not_initialized "clk" "ClickDirective").
Proof. eexists. split; [vm_compute; reflexivity | discriminate]. Qed.

Lemma C8_witness :
  exists s',
    listenerInternal X0 "click" 0%nat false None None (with_missing_output (Some 0%nat))
    = Raised (Error "@Output clk not initialized in 'ClickDirective'.") s'
    /\ trace s' = [RendererListen (ProceduralRenderer3 0) (TargetNode 20%nat) "click"
                     (VRef 2%nat)].
Proof.
  apply (C8_misconfigured_output_aborts_the_install X0
           (with_missing_output (Some 0%nat)) (view (ProceduralRenderer3 0) [VRef 1%nat])
           template (directed button) "click"%string 0%nat false None None (VRef 2%nat)
           (after_first_bind X0 (with_missing_output (Some 0%nat)) "click"
              (view (ProceduralRenderer3 0) [VRef 1%nat]) template (directed button) 0%nat)
           [] click_alias [] [] "ClickDirective"%string VUndef).
  - reflexivity.
  - reflexivity.
  - reflexivity.
  - right. simpl. apply list_elem_of_here.
  - reflexivity.
  - reflexivity.
  - constructor.
  - exists 1%nat, ∅. repeat split; reflexivity.
Defined.

(** C9 (counterexample). On a container node, an install attaches no native
    listener: it makes no call of [renderer.listen] or [addEventListener]. *)
Lemma C9_counterexample :
  type anchor = Container
  /\ exists s',
       Δlistener X0 "click" 0%nat None None on_container = Done tt s'
       /\ List.filter is_native (trace s') = [].
Proof. split; [reflexivity|]. eexists. split; [vm_compute; reflexivity | reflexivity]. Qed.

Lemma C9_witness :
  ((exists t, trace container_after = trace on_container ++ t
              /\ forallb is_subscribe t = true)
   /\ (exists h', heap container_after = heap on_container ++ h'))
  /\ (exists s',
        listenerInternal X0 "click" 0%nat false None None on_container = Done tt s'
        /\ trace s' = trace on_container /\ heap s' = heap on_container)
  /\ (exists s' ev,
        listenerInternal X0 "click" 0%nat false None None fresh = Done tt s'
        /\ trace s' = trace fresh ++ [ev] /\ is_native ev = true).
Proof.
  destruct (C9_native_listener_on_elements_only X0) as (Hnever & Hcontainer & Helement).
  split; [|split].
  - apply (Hnever on_container (view (ProceduralRenderer3 0) []) template anchor
             "click"%string 0%nat false None None container_after).
    + reflexivity.
    + reflexivity.
    + reflexivity.
    + discriminate.
    + reflexivity.
  - apply (Hcontainer on_container (view (ProceduralRenderer3 0) []) template anchor
             "click"%string 0%nat false None None).
    + reflexivity.
    + reflexivity.
    + reflexivity.
    + simpl. apply list_elem_of_here.
    + reflexivity.
  - apply (Helement fresh (view (ProceduralRenderer3 0) []) template button
             "click"%string 0%nat false None None).
    + reflexivity.
    + reflexivity.
    + reflexivity.
    + reflexivity.
    + reflexivity.
    + intros _ _. reflexivity.
Defined.

(** * Further properties of the code *)

(** ** The lookup, whatever the arrays hold *)

Lemma array_at_after (a b : list JsVal) i :
  array_at (a ++ b) (length a + i) = array_at b i.
Proof.
  unfold array_at. rewrite lookup_app_r by lia.
  by replace (length a + i - length a)%nat with i by lia.
Qed.

Lemma entry_matches_before (a b : list JsVal) name idx i :
  (i + 1 < length a)%nat ->
  entry_matches (a ++ b) name idx i = entry_matches a name idx i.
Proof.
  intros Hi. unfold entry_matches, array_at. by rewrite !lookup_app_l by lia.
Qed.

(** An entry recorded with a target getter matches no lookup: its second
    slot is a function, and the lookup compares it to a number. *)
Lemma entry_matches_getter (a : list JsVal) name g x y name' idx' :
  entry_matches (a ++ [VStr name; VRef g; x; y]) name' idx' (length a) = false.
Proof.
  unfold entry_matches. rewrite (array_at_after a _ 1). cbn.
  unfold strict_eq at 2. rewrite bool_decide_eq_false_2 by done.
  apply andb_false_r.
Qed.

Lemma array_at_answer (a : list JsVal) i : array_at a i = VUndef \/ array_at a i ∈ a.
Proof.
  unfold array_at. destruct (a !! i) as [x|] eqn:Hx; [|by left].
  right. by eapply list_elem_of_lookup_2.
Qed.

Lemma array_get_answer (a : list JsVal) k : array_get a k = VUndef \/ array_get a k ∈ a.
Proof.
  destruct k; cbn [array_get]; try (by left).
  - destruct (0 <=? n); [apply array_at_answer | by left].
  - destruct (canonical_index s); [apply array_at_answer | by left].
Qed.

Lemma existing_at_answer tCleanup lCleanup i :
  exists v,
    existing_at tCleanup (Some lCleanup) i = Normal v
    /\ (v = VNull \/ v = VUndef \/ v ∈ lCleanup).
Proof.
  unfold existing_at. eexists. split; [done|].
  destruct (num_gt _ _); [|by left].
  right. apply array_get_answer.
Qed.

Lemma loop_answer tCleanup lCleanup eventName tNodeIdx fuel : forall i r,
  findExistingListener_loop fuel tCleanup (Some lCleanup) eventName tNodeIdx i = Some r ->
  exists v, r = Normal v /\ (v = VNull \/ v = VUndef \/ v ∈ lCleanup).
Proof.
  induction fuel as [|fuel IH]; intros i r; cbn [findExistingListener_loop]; [done|].
  destruct (Z.of_nat i <? Z.of_nat (length tCleanup) - 1).
  - destruct (entry_matches tCleanup eventName tNodeIdx i); [|apply IH].
    intros [= <-]. apply existing_at_answer.
  - intros [= <-]. exists VNull. by split; [|left].
Qed.

(** X1. When the view has a cleanup array, [findExistingListener] always
    returns, whatever the two arrays hold (a template array that is null,
    empty, of odd length, or not made of blocks of four): it does not throw
    and its loop ends.  What it returns is null, undefined (when the index
    recorded in the entry names no element), or an entry of the cleanup
    array of the view; it never makes up a listener. *)
Theorem X1_lookup_answers_with_an_entry_of_the_view tCleanup lCleanup eventName
    tNodeIdx :
  exists v,
    findExistingListener_in tCleanup (Some lCleanup) eventName tNodeIdx = Some (Normal v)
    /\ (v = VNull \/ v = VUndef \/ v ∈ lCleanup).
Proof.
  destruct (findExistingListener_in_total tCleanup (Some lCleanup) eventName tNodeIdx)
    as [r Hr].
  rewrite Hr. destruct tCleanup as [tc|]; cbn [findExistingListener_in] in Hr.
  - destruct (loop_answer _ _ _ _ _ _ _ Hr) as (v & -> & Hv). by exists v.
  - injection Hr as <-. exists VNull. by split; [|left].
Qed.

Lemma loop_foreign_block (tc blk : list JsVal) lc name idx k fuel :
  length tc = (4 * k)%nat ->
  length blk = 4%nat ->
  entry_matches blk name idx 0 = false ->
  forall fuel' m,
    (length tc + 8 <= 4 * m + 4 * fuel)%nat ->
    (length tc + 4 <= 4 * m + 4 * fuel')%nat ->
    (0 < fuel)%nat ->
    (0 < fuel')%nat ->
    findExistingListener_loop fuel (tc ++ blk) lc name idx (4 * m)
    = findExistingListener_loop fuel' tc lc name idx (4 * m).
Proof.
  intros Htc Hblk Hforeign.
  induction fuel as [|fuel IH]; intros fuel' m Hfuel Hfuel' Hpos0 Hpos; [lia|].
  destruct fuel' as [|fuel']; [lia|].
  cbn [findExistingListener_loop]. rewrite length_app, Hblk.
  destruct (decide (m < k)%nat) as [Hlt|Hge].
  - destruct (Z.of_nat (4 * m) <? Z.of_nat (length tc + 4) - 1) eqn:H1;
      [|apply Z.ltb_ge in H1; lia].
    destruct (Z.of_nat (4 * m) <? Z.of_nat (length tc) - 1) eqn:H2;
      [|apply Z.ltb_ge in H2; lia].
    rewrite entry_matches_before by lia.
    destruct (entry_matches tc name idx (4 * m)).
    + unfold existing_at, array_at. by rewrite lookup_app_l by lia.
    + replace (4 * m + 2 + 2)%nat with (4 * S m)%nat by lia.
      destruct (decide (S m < k)%nat) as [Hlt'|Hge'].
      * apply IH; lia.
      * destruct fuel' as [|fuel'']; [lia|]. apply IH; lia.
  - destruct (Z.of_nat (4 * m) <? Z.of_nat (length tc) - 1) eqn:H2;
      [apply Z.ltb_lt in H2; lia|].
    destruct (Z.of_nat (4 * m) <? Z.of_nat (length tc + 4) - 1) eqn:H1; [|done].
    apply Z.ltb_lt in H1. assert (m = k) as -> by lia.
    assert (Hno : entry_matches (tc ++ blk) name idx (4 * k) = false).
    { unfold entry_matches in *. rewrite <- Htc.
      rewrite <- (Nat.add_0_r (length tc)) at 1. by rewrite !array_at_after. }
    rewrite Hno. replace (4 * k + 2 + 2)%nat with (4 * S k)%nat by lia.
    destruct fuel as [|fuel]; [lia|]. cbn [findExistingListener_loop].
    rewrite length_app, Hblk.
    destruct (Z.of_nat (4 * S k) <? Z.of_nat (length tc + 4) - 1) eqn:H3; [|done].
    apply Z.ltb_lt in H3. lia.
Qed.

(** X2. On a template cleanup array made of blocks of four slots, an entry
    appended for another event, for another node, or for a global target
    (whose second slot is a function) does not change what
    [findExistingListener] answers for this event on this node: the lookup
    is per pair of event name and node index. *)
Theorem X2_foreign_entries_do_not_change_the_lookup (tCleanup block : list JsVal)
    lCleanup eventName tNodeIdx k :
  length tCleanup = (4 * k)%nat ->
  length block = 4%nat ->
  entry_matches block eventName tNodeIdx 0 = false ->
  findExistingListener_in (Some (tCleanup ++ block)) lCleanup eventName tNodeIdx
  = findExistingListener_in (Some tCleanup) lCleanup eventName tNodeIdx.
Proof.
  intros Htc Hblk Hforeign. cbn [findExistingListener_in].
  rewrite length_app, Hblk.
  apply (loop_foreign_block tCleanup block lCleanup eventName tNodeIdx k _ Htc Hblk
           Hforeign _ 0); lia.
Qed.

Lemma findExistingListener_with_array s lView lv c eventName tNodeIdx :
  lviews s !! lView = Some lv ->
  CLEANUP lv = Some c ->
  thrown (findExistingListener lView eventName tNodeIdx s) = None.
Proof.
  intros Hlv Hc. unfold findExistingListener.
  rewrite (bind_done _ _ _ _ _ (readLView_done _ _ _ Hlv)).
  unfold bind, readTView. destruct (tviews s !! TVIEW lv) as [tv|]; cbn; [|done].
  rewrite Hc.
  destruct (findExistingListener_in_total (cleanup tv) (Some c) eventName tNodeIdx)
    as [r Hr].
  rewrite Hr. destruct (cleanup tv) as [tc|]; cbn [findExistingListener_in] in Hr.
  - by destruct (loop_answer _ _ _ _ _ _ _ Hr) as (v & -> & _).
  - by injection Hr as <-.
Qed.

(** X3. [findExistingListener] reads [lView[CLEANUP]!] without a test: on a
    view whose cleanup array is still null and whose template has recorded
    an entry that matches, it throws a TypeError.  Its caller calls
    [getCleanup(lView)] first, and after that call the lookup never throws,
    in any state. *)
Theorem X3_lookup_relies_on_getCleanup :
  (forall lView eventName tNodeIdx s,
      thrown ((getCleanup lView ;; findExistingListener lView eventName tNodeIdx) s)
      = None)
  /\ (exists lView eventName tNodeIdx s,
        thrown (findExistingListener lView eventName tNodeIdx s) = Some TypeError).
Proof.
  split.
  - intros lView eventName tNodeIdx s. unfold bind at 1.
    destruct (lviews s !! lView) as [lv|] eqn:Hlv.
    + rewrite (getCleanup_done _ _ _ Hlv).
      eapply findExistingListener_with_array.
      * cbn. apply list_lookup_insert_eq. by eapply lookup_lt_Some.
      * done.
    + unfold getCleanup, bind, readLView. by rewrite Hlv.
  - by exists 0%nat, "click"%string, 20, Sample.later_view.
Qed.

(** ** The state after an install on an element *)

Section InstallStates.

Variable X : Externals.

Variables (s : State) (lv : LView) (tv : TView) (tn : TNode).
Variables (eventName : string) (listenerFn : loc) (useCapture : bool)
  (eventTargetResolver : option GlobalTargetResolver)
  (loadRendererFn : option (TNode -> LView -> Renderer3)).

Hypothesis Hlv : lviews s !! currentLView s = Some lv.
Hypothesis Htv : tviews s !! TVIEW lv = Some tv.
Hypothesis Htn : tnodes s !! currentTNode s = Some tn.
Hypothesis Htype : type tn = Element.
Hypothesis Hnone : props_for X tn eventName = [].

Lemma cleanup_tv_ready_default :
  default [] (cleanup (tv_ready tv)) = default [] (cleanup tv).
Proof.
  unfold tv_ready. destruct (firstTemplatePass tv); [|done].
  destruct (cleanup tv) eqn:Hc; cbn [andb].
  - rewrite bool_decide_eq_true_2 by (by eexists). cbn. by rewrite Hc.
  - by rewrite bool_decide_eq_false_2 by (by intros [? ?]).
Qed.

(** With a procedural renderer and nothing to coalesce onto. *)
Lemma install_listen_state :
  isProceduralRenderer (renderer_of loadRendererFn tn lv) = true ->
  (eventTargetResolver = None ->
   findExistingListener_in (cleanup (tv_ready tv)) (Some (default [] (CLEANUP lv)))
     eventName (index tn) = Some (Normal VNull)) ->
  listenerInternal X eventName listenerFn useCapture eventTargetResolver loadRendererFn s
  = Done tt (after_listen X s eventName lv tv tn listenerFn eventTargetResolver
               loadRendererFn).
Proof.
  intros Hproc Hfresh.
  destruct (tCleanup_ready_same s lv tv) as (Hh & Ht & Hl & Hn & Hd & Hcl & Hct).
  destruct (tCleanup_ready_lookup s _ _ Htv) as [Htv0 Htc0].
  erewrite listenerInternal_element; [| done | done | done | done |].
  2:{ apply (addNativeListener_listen X (tCleanup_ready (TVIEW lv) tv s)
               (currentLView s) (currentTNode s) (TVIEW lv) tn lv (tv_ready tv));
      [by rewrite Hn | by rewrite Hl | done | done | done | done | done]. }
  unfold outputs_step. rewrite Hnone. unfold ret. f_equal.
  unfold after_listen, with_tnodes, with_trace, with_ngDevMode, with_tviews,
    with_lviews, with_heap, tviews_pushed.
  cbn. rewrite Hh, Ht, Hl, Hn, Hd, Hcl, Hct, cleanup_tv_ready_default. f_equal.
  unfold tCleanup_ready, tv_ready.
  destruct (firstTemplatePass tv) eqn:Hfirst; cbn [andb]; [|done].
  destruct (negb (bool_decide (is_Some (cleanup tv)))); cbn; [|done].
  by rewrite list_insert_insert_eq.
Qed.

(** Without a procedural renderer. *)
Lemma install_direct_state :
  isProceduralRenderer (renderer_of loadRendererFn tn lv) = false ->
  listenerInternal X eventName listenerFn useCapture eventTargetResolver loadRendererFn s
  = Done tt (after_direct X s eventName lv tv tn listenerFn useCapture
               eventTargetResolver).
Proof.
  intros Hdirect.
  destruct (tCleanup_ready_same s lv tv) as (Hh & Ht & Hl & Hn & Hd & Hcl & Hct).
  destruct (tCleanup_ready_lookup s _ _ Htv) as [Htv0 Htc0].
  erewrite listenerInternal_element; [| done | done | done | done |].
  2:{ apply (addNativeListener_direct X (tCleanup_ready (TVIEW lv) tv s)
               (currentLView s) (currentTNode s) (TVIEW lv) tn lv (tv_ready tv));
      [by rewrite Hn | by rewrite Hl | done | done | done]. }
  unfold outputs_step. rewrite Hnone. unfold ret. f_equal.
  unfold after_direct, with_tnodes, with_trace, with_ngDevMode, with_tviews,
    with_lviews, with_heap, tviews_pushed.
  cbn. rewrite Hh, Ht, Hl, Hn, Hd, Hcl, Hct, cleanup_tv_ready_default. f_equal.
  unfold tCleanup_ready, tv_ready.
  destruct (firstTemplatePass tv) eqn:Hfirst; cbn [andb]; [|done].
  destruct (negb (bool_decide (is_Some (cleanup tv)))); cbn; [|done].
  by rewrite list_insert_insert_eq.
Qed.

End InstallStates.

(** ** What the first bind records, and what a later bind changes *)

Section RoundTrip.

Variable X : Externals.

Lemma findExistingListener_done s lView lv tv eventName tNodeIdx v :
  lviews s !! lView = Some lv ->
  tviews s !! TVIEW lv = Some tv ->
  findExistingListener_in (cleanup tv) (CLEANUP lv) eventName tNodeIdx
  = Some (Normal v) ->
  findExistingListener lView eventName tNodeIdx s = Done v s.
Proof.
  intros Hlv Htv Hfind. unfold findExistingListener.
  rewrite (bind_done _ _ _ _ _ (readLView_done _ _ _ Hlv)).
  rewrite (bind_done _ _ _ _ _ (readTView_done _ _ _ Htv)).
  by rewrite Hfind.
Qed.

(** X4. Install, then look up.  On the ground where handlers coalesce,
    [findExistingListener] answers null for the event on the node before the
    first bind; the bind registers a closure that wraps the handler and has
    nothing chained; and the same lookup in the state after the bind answers
    that closure: the entries that [listenerInternal] pushes to the two
    cleanup arrays are the ones that [findExistingListener] reads. *)
Theorem X4_lookup_finds_the_closure_of_the_first_bind s eventName lv tv tn h :
  coalescing_ground X s eventName lv tv tn ->
  exists s1,
    findExistingListener (currentLView s) eventName (index tn) s = Done VNull s
    /\ Δlistener X eventName h None None s = Done tt s1
    /\ findExistingListener (currentLView s) eventName (index tn) s1
       = Done (VRef (length (heap s))) s1
    /\ heap s1 !! length (heap s)
       = Some {| kind := WrappedListener (currentTNode s) (currentLView s) (VRef h) false;
                 ngNextListenerFn := VUndef |}.
Proof.
  intros Hground.
  pose proof Hground as [Hlv Htv Htn Hel Hproc Hpass Hnone Hblocks Hunbound].
  exists (after_first_bind X s eventName lv tv tn h). split; [|split; [|split]].
  - apply (findExistingListener_done s _ lv tv); [done | done |].
    destruct (cleanup tv) as [tc|] eqn:Hc; [|done].
    cbn [findExistingListener_in default] in *.
    apply (loop_without_match _ _ _ _ _ 0); [intros; apply Hunbound | lia | lia].
  - by apply first_bind.
  - eapply findExistingListener_done.
    + cbn. apply list_lookup_insert_eq. by eapply lookup_lt_Some.
    + cbn. apply list_lookup_insert_eq. by eapply lookup_lt_Some.
    + cbn [cleanup CLEANUP set_cleanup set_CLEANUP].
      by apply (found_after_first_bind X s eventName lv tv tn).
  - cbn. by apply list_lookup_middle.
Qed.

(** X5. On that ground, the bind of a second handler for the same event on
    the same node changes two links and nothing else: the new handler takes
    over what was chained behind the closure (nothing, here), and the
    closure points to the new handler.  The cleanup arrays of the view and
    of the template, the node, the counter of [ngDevMode] and the trace are
    as the first bind left them: a coalesced handler gets no cleanup entry
    of its own, and no call is made for it. *)
Theorem X5_coalesced_bind_changes_two_links s eventName lv tv tn h1 h2 o2 :
  coalescing_ground X s eventName lv tv tn ->
  heap s !! h2 = Some o2 ->
  exists s1,
    Δlistener X eventName h1 None None s = Done tt s1
    /\ Δlistener X eventName h2 None None s1
       = Done tt
           (with_heap
              (<[length (heap s) :=
                   {| kind := WrappedListener (currentTNode s) (currentLView s) (VRef h1)
                                false;
                      ngNextListenerFn := VRef h2 |}]>
                 (<[h2 := {| kind := kind o2; ngNextListenerFn := VUndef |}]> (heap s1)))
              s1).
Proof.
  intros Hground Hh2.
  exists (after_first_bind X s eventName lv tv tn h1). split; [by apply first_bind|].
  rewrite <- (with_heap_same (after_first_bind X s eventName lv tv tn h1)) at 1.
  apply (next_bind X s eventName lv tv tn Hground h1 _ h2
           {| kind := WrappedListener (currentTNode s) (currentLView s) (VRef h1) false;
              ngNextListenerFn := VUndef |} o2).
  - cbn. by apply list_lookup_middle.
  - cbn. by apply lookup_app_l_Some.
Qed.

End RoundTrip.

(** ** Coalescing in a later view of the same template *)

Section Replay.

Variable X : Externals.

Variables (s : State) (eventName : string) (lv : LView) (tv : TView) (tn : TNode)
  (tCleanup : list JsVal) (k : nat).

Hypothesis Hground : replay_ground X s eventName lv tv tn tCleanup k.

(** The lookup reads the index that the first pass recorded and compares it
    to the length of the cleanup array of this view. *)
Lemma replay_lookup lc :
  findExistingListener_in (Some tCleanup) (Some lc) eventName (index tn)
  = Some (Normal (if Z.of_nat (length (default [] (CLEANUP lv))) <? Z.of_nat (length lc)
                  then array_at lc (length (default [] (CLEANUP lv))) else VNull)).
Proof.
  pose proof Hground as [_ _ _ _ _ _ _ _ Hentry Hfirst Hindex].
  pose proof (entry_matches_in_range _ _ _ _ Hentry) as Hrange.
  cbn [findExistingListener_in].
  rewrite (loop_first_match _ _ _ _ _ 0 k); [| lia | done | intros; apply Hfirst; lia | lia].
  unfold existing_at. rewrite Hindex. unfold num_gt. cbn [to_number array_get].
  destruct (0 <=? Z.of_nat (length (default [] (CLEANUP lv)))) eqn:Hpos;
    [|apply Z.leb_gt in Hpos; lia].
  by rewrite Nat2Z.id.
Qed.

Lemma replay_first_bind h1 :
  Δlistener X eventName h1 None None s = Done tt (after_replay X s eventName lv tn h1).
Proof.
  pose proof Hground as [Hlv Htv Htn Hel Hproc Hpass Hnone Hcleanup Hentry Hfirst Hindex].
  unfold Δlistener. cbn [default].
  rewrite (install_listen_state X s lv tv tn eventName h1 false None None
             Hlv Htv Htn Hel Hnone Hproc).
  - unfold after_listen, after_replay. rewrite Hpass. cbn.
    by rewrite Nat.add_0_r.
  - intros _. unfold tv_ready. rewrite Hpass. cbn [andb].
    rewrite Hcleanup, replay_lookup. by rewrite Z.ltb_irrefl.
Qed.

Lemma replay_next_bind h1 h2 o2 :
  heap s !! h2 = Some o2 ->
  Δlistener X eventName h2 None None (after_replay X s eventName lv tn h1)
  = Done tt
      (with_heap
         (<[length (heap s) :=
              {| kind := WrappedListener (currentTNode s) (currentLView s) (VRef h1) false;
                 ngNextListenerFn := VRef h2 |}]>
            (<[h2 := {| kind := kind o2; ngNextListenerFn := VUndef |}]>
               (heap (after_replay X s eventName lv tn h1))))
         (after_replay X s eventName lv tn h1)).
Proof.
  intros Hh2.
  pose proof Hground as [Hlv Htv Htn Hel Hproc Hpass Hnone Hcleanup Hentry Hfirst Hindex].
  set (s1 := after_replay X s eventName lv tn h1).
  set (lCleanup := default [] (CLEANUP lv)).
  set (w := length (heap s)).
  set (lv1 := set_CLEANUP (Some (lCleanup ++ [VRef w; VRef (S w)])) lv).
  assert (Hlv1 : lviews s1 !! currentLView s1 = Some lv1).
  { cbn. apply list_lookup_insert_eq. by eapply lookup_lt_Some. }
  assert (Htv1 : tviews s1 !! TVIEW lv1 = Some tv) by done.
  assert (Htn1 : tnodes s1 !! currentTNode s1 = Some (outputs_cached X tn)).
  { cbn. apply list_lookup_insert_eq. by eapply lookup_lt_Some. }
  destruct (outputs_cached_same X tn) as [Htype1 Hindex1].
  assert (Hready : tCleanup_ready (TVIEW lv1) tv s1 = s1).
  { unfold tCleanup_ready. by rewrite Hpass. }
  unfold Δlistener. cbn [default].
  erewrite (listenerInternal_element X s1 lv1 tv (outputs_cached X tn));
    [| exact Hlv1 | exact Htv1 | exact Htn1 | by rewrite Htype1 |].
  2:{ rewrite Hready.
      eapply addNativeListener_coalesce
        with (tn := outputs_cached X tn) (lv := lv1) (tv := tv) (r := w) (f := h2);
        [exact Htn1 | exact Hlv1 | exact Htv1 | exact Hproc | done | done | done | | |].
      - change (default [] (CLEANUP lv1)) with (lCleanup ++ [VRef w; VRef (S w)]).
        rewrite Hindex1, Hcleanup, replay_lookup. fold lCleanup.
        rewrite length_app. cbn [length].
        destruct (Z.of_nat (length lCleanup) <? Z.of_nat (length lCleanup + 2)) eqn:Hlt;
          [|apply Z.ltb_ge in Hlt; lia].
        unfold array_at. by rewrite list_lookup_middle.
      - cbn. subst w. by apply list_lookup_middle.
      - cbn. apply lookup_app_l_Some. exact Hh2. }
  unfold outputs_step. rewrite props_for_cached, Hnone. unfold ret. f_equal.
  rewrite outputs_cached_twice.
  unfold with_tnodes, with_lviews, with_heap. cbn.
  rewrite !list_insert_insert_eq. done.
Qed.

End Replay.

Section ReplayProperty.

Variable X : Externals.

(** X6. Coalescing works in every later view of a template, not only in
    the first pass.  In a later view (first template pass over, template
    cleanup array as the first pass left it), at the point where the first
    pass recorded the listener entry, the first bind finds the entry but no
    listener yet in this view (the recorded index is not below the length of
    its cleanup array), so it registers a closure with [renderer.listen];
    the second bind for the same event then finds that closure through the
    recorded index and links its handler behind it, with no second call.
    The template is not written. *)
Theorem X6_later_view_coalesces_on_the_recorded_entry s eventName lv tv tn tCleanup k
    h1 h2 o2 :
  replay_ground X s eventName lv tv tn tCleanup k ->
  heap s !! h2 = Some o2 ->
  exists s',
    bind_all X eventName [h1; h2] s = Done tt s'
    /\ trace s' = trace s ++ [RendererListen (RENDERER lv)
                                (TargetNode (getNativeByTNode X tn lv)) eventName
                                (VRef (length (heap s)))]
    /\ heap s' !! length (heap s)
       = Some {| kind := WrappedListener (currentTNode s) (currentLView s) (VRef h1) false;
                 ngNextListenerFn := VRef h2 |}
    /\ tviews s' = tviews s.
Proof.
  intros Hground Hh2. eexists. split; [|split; [|split]].
  - cbn [bind_all].
    rewrite (bind_done _ _ _ _ _
               (replay_first_bind X s eventName lv tv tn tCleanup k Hground h1)).
    rewrite (bind_done _ _ _ _ _
               (replay_next_bind X s eventName lv tv tn tCleanup k Hground h1 h2 o2 Hh2)).
    reflexivity.
  - reflexivity.
  - cbn. apply list_lookup_insert_eq. rewrite length_insert, length_app. cbn. lia.
  - reflexivity.
Qed.

End ReplayProperty.

(** ** Listeners on a global target, and listeners attached directly *)

Section GlobalTargets.

Variable X : Externals.

(** X7. An install with a target resolver never looks for an existing
    listener, and its entry is found by a later lookup only through an
    output.  (1) With a target resolver and a procedural renderer, on an
    element with no output bound to the event, an install in any state,
    whatever the cleanup arrays hold, returns after it has created the
    target getter, wrapped the handler in a new closure and given it to
    [renderer.listen]; no object that existed is relinked.  (2) Whatever
    outputs the node has, every run of such an install that ends has made
    that call of [renderer.listen] with the new closure first and then only
    calls of [subscribe], and has kept every object that existed.  (3) The
    entry of the listener holds the getter, a function, where a listener on
    the element holds the node index, so on the ground where handlers
    coalesce, where no output is bound to the event, a bind with a resolver
    followed by a bind without makes two calls of [renderer.listen] and two
    closures, neither chained to the other.  (4) With an output bound to
    the event this fails: the entry of the output subscription, name, node
    index, position of the listener and minus the position of the
    subscription, matches the later lookup; at the sample view with a
    directive output [click], after a bind on [document] the bind of H2
    without a resolver makes no call of [renderer.listen] and chains H2
    behind the closure registered on [document]. *)
Theorem X7_global_target_listener_skips_the_lookup :
  (forall s lv tv tn eventName listenerFn useCapture resolver loadRendererFn,
      lviews s !! currentLView s = Some lv ->
      tviews s !! TVIEW lv = Some tv ->
      tnodes s !! currentTNode s = Some tn ->
      type tn = Element ->
      props_for X tn eventName = [] ->
      isProceduralRenderer (renderer_of loadRendererFn tn lv) = true ->
      exists s',
        listenerInternal X eventName listenerFn useCapture (Some resolver)
          loadRendererFn s = Done tt s'
        /\ trace s' = trace s
                      ++ [RendererListen (renderer_of loadRendererFn tn lv)
                            (listen_on X (Some resolver) tn lv) eventName
                            (VRef (S (length (heap s))))]
        /\ heap s' = heap s
                     ++ [{| kind := TargetGetter resolver (index tn);
                            ngNextListenerFn := VUndef |};
                         {| kind := WrappedListener (currentTNode s) (currentLView s)
                                      (VRef listenerFn) false;
                            ngNextListenerFn := VUndef |};
                         {| kind := CleanupFn; ngNextListenerFn := VUndef |}])
  /\ (forall s lv tv tn eventName listenerFn useCapture resolver loadRendererFn s',
        lviews s !! currentLView s = Some lv ->
        tviews s !! TVIEW lv = Some tv ->
        tnodes s !! currentTNode s = Some tn ->
        type tn = Element ->
        isProceduralRenderer (renderer_of loadRendererFn tn lv) = true ->
        final_state (listenerInternal X eventName listenerFn useCapture (Some resolver)
                       loadRendererFn s) = Some s' ->
        exists t h',
          trace s' = trace s
                     ++ RendererListen (renderer_of loadRendererFn tn lv)
                          (listen_on X (Some resolver) tn lv) eventName
                          (VRef (S (length (heap s)))) :: t
          /\ forallb is_subscribe t = true
          /\ heap s' = heap s
                       ++ [{| kind := TargetGetter resolver (index tn);
                              ngNextListenerFn := VUndef |};
                           {| kind := WrappedListener (currentTNode s) (currentLView s)
                                        (VRef listenerFn) false;
                              ngNextListenerFn := VUndef |};
                           {| kind := CleanupFn; ngNextListenerFn := VUndef |}]
                       ++ h')
  /\ (forall s eventName lv tv tn resolver h1 h2,
        coalescing_ground X s eventName lv tv tn ->
        exists s' ev1 ev2,
          (Δlistener X eventName h1 None (Some resolver) ;;
           Δlistener X eventName h2 None None) s = Done tt s'
          /\ trace s' = trace s ++ [ev1; ev2]
          /\ is_listen ev1 = true /\ is_listen ev2 = true
          /\ heap s' = heap s
                       ++ [{| kind := TargetGetter resolver (index tn);
                              ngNextListenerFn := VUndef |};
                           {| kind := WrappedListener (currentTNode s) (currentLView s)
                                        (VRef h1) false;
                              ngNextListenerFn := VUndef |};
                           {| kind := CleanupFn; ngNextListenerFn := VUndef |};
                           {| kind := WrappedListener (currentTNode s) (currentLView s)
                                        (VRef h2) false;
                              ngNextListenerFn := VUndef |};
                           {| kind := CleanupFn; ngNextListenerFn := VUndef |}])
  /\ (exists s',
        (Δlistener X "click" 0%nat None (Some Sample.on_document) ;;
         Δlistener X "click" 3%nat None None) Sample.with_output_two = Done tt s'
        /\ List.filter is_native (trace s')
           = [RendererListen (ProceduralRenderer3 0) (TargetName "document") "click"
                (VRef 5%nat)]
        /\ heap s' !! 5%nat
           = Some {| kind := WrappedListener 0 0 (VRef 0%nat) false;
                     ngNextListenerFn := VRef 3%nat |}).
Proof.
  split; [|split; [|split]].
  - intros s lv tv tn eventName listenerFn useCapture resolver loadRendererFn
      Hlv Htv Htn Htype Hnone Hproc.
    eexists. split; [|split].
    + by apply (install_listen_state X s lv tv tn).
    + cbn. by rewrite Nat.add_1_r.
    + reflexivity.
  - intros s lv tv tn eventName listenerFn useCapture resolver loadRendererFn s'
      Hlv Htv Htn Htype Hproc Hfinal.
    destruct (tCleanup_ready_same s lv tv) as (Hh & Ht & Hl & Hn & Hd & Hcl & Hct).
    destruct (tCleanup_ready_lookup s _ _ Htv) as [Htv0 Htc0].
    erewrite listenerInternal_element in Hfinal; [| done | done | done | done |].
    2:{ apply (addNativeListener_listen X (tCleanup_ready (TVIEW lv) tv s)
                 (currentLView s) (currentTNode s) (TVIEW lv) tn lv (tv_ready tv));
        [by rewrite Hn | by rewrite Hl | done | done | done | done | done]. }
    match type of Hfinal with
    | final_state (outputs_step _ ?lView ?tView ?tCleanup _ _ ?fn ?s1) = _ =>
        pose proof (outputs_frame_outputs_step X lView tView tCleanup tn eventName fn s1)
          as Hframe
    end.
    destruct (outputs_step _ _ _ _ _ _ _ _) as [[] s2|error s2| |];
      cbn in Hfinal; try done; injection Hfinal as <-;
      destruct Hframe as ([h' Hheap] & t & Htrace & Hsub);
      cbn in Hheap, Htrace; rewrite Hh in Hheap; rewrite Ht in Htrace;
      exists t, h'; rewrite Htrace, Hheap, Hh, Nat.add_1_r, <- !app_assoc; done.
  - intros s eventName lv tv tn resolver h1 h2 Hground.
    pose proof Hground as [Hlv Htv Htn Hel Hproc Hpass Hnone [k Hk] Hunbound].
    set (s1 := after_listen X s eventName lv tv tn h1 (Some resolver) None).
    set (lCleanup := default [] (CLEANUP lv)).
    set (tCleanup := default [] (cleanup tv)).
    set (w := S (length (heap s))).
    set (lv1 := set_CLEANUP (Some (lCleanup ++ [VRef w; VRef (S w)])) lv).
    set (tv1 := set_cleanup
                  (Some (tCleanup ++ [VStr eventName; VRef (length (heap s));
                                      VNum (Z.of_nat (length lCleanup));
                                      VNum (Z.of_nat (length lCleanup) + 1)])) tv).
    assert (Hlv1 : lviews s1 !! currentLView s1 = Some lv1).
    { subst s1 lv1 w. cbn. rewrite Nat.add_1_r.
      apply list_lookup_insert_eq. by eapply lookup_lt_Some. }
    assert (Htv1 : tviews s1 !! TVIEW lv1 = Some tv1).
    { subst s1. cbn. rewrite Hpass. apply list_lookup_insert_eq. by eapply lookup_lt_Some. }
    assert (Htn1 : tnodes s1 !! currentTNode s1 = Some (outputs_cached X tn)).
    { subst s1. cbn. apply list_lookup_insert_eq. by eapply lookup_lt_Some. }
    destruct (outputs_cached_same X tn) as [Htype1 Hindex1].
    assert (Hfresh : findExistingListener_in (cleanup (tv_ready tv1))
                       (Some (default [] (CLEANUP lv1))) eventName
                       (index (outputs_cached X tn)) = Some (Normal VNull)).
    { unfold tv_ready. cbn [tv1 cleanup set_cleanup].
      rewrite bool_decide_eq_true_2 by (by eexists). rewrite andb_false_r.
      cbn [tv1 cleanup set_cleanup findExistingListener_in]. rewrite Hindex1.
      apply (loop_without_match _ _ _ _ _ 0); [| lia | lia].
      intros k' _. destruct (decide (k' < k)%nat) as [Hlt|Hge].
      - rewrite entry_matches_before by (fold tCleanup in Hk; lia). apply Hunbound.
      - destruct (decide (k' = k)) as [->|Hne].
        + fold tCleanup in Hk. rewrite <- Hk. apply entry_matches_getter.
        + apply entry_matches_beyond. rewrite length_app. fold tCleanup in Hk.
          cbn [length]. lia. }
    eexists _, _, _. split; [|split; [|split; [|split]]].
    + unfold Δlistener. cbn [default].
      erewrite bind_done; cycle 1.
      { by apply (install_listen_state X s lv tv tn). }
      fold s1.
      apply (install_listen_state X s1 lv1 tv1 (outputs_cached X tn));
        [done | done | done | by rewrite Htype1 | by rewrite props_for_cached | done
        | by intros _].
    + cbn. rewrite <- app_assoc. reflexivity.
    + reflexivity.
    + reflexivity.
    + cbn. rewrite <- !app_assoc. reflexivity.
  - eexists. split; [vm_compute; reflexivity|]. split; reflexivity.
Qed.

End GlobalTargets.

Section DirectBinds.

Variable X : Externals.

Lemma direct_ground_next s eventName lv tv tn h :
  direct_ground X s eventName lv tv tn ->
  exists lv' tv',
    direct_ground X (after_direct X s eventName lv tv tn h false None) eventName
      lv' tv' (outputs_cached X tn).
Proof.
  intros [Hlv Htv Htn Hel Hdirect Hnone].
  unfold after_direct. destruct (firstTemplatePass tv);
    eexists _, _; constructor; cbn.
  - apply list_lookup_insert_eq. by eapply lookup_lt_Some.
  - apply list_lookup_insert_eq. by eapply lookup_lt_Some.
  - apply list_lookup_insert_eq. by eapply lookup_lt_Some.
  - by destruct (outputs_cached_same X tn) as [-> _].
  - done.
  - by rewrite props_for_cached.
  - apply list_lookup_insert_eq. by eapply lookup_lt_Some.
  - exact Htv.
  - apply list_lookup_insert_eq. by eapply lookup_lt_Some.
  - by destruct (outputs_cached_same X tn) as [-> _].
  - done.
  - by rewrite props_for_cached.
Qed.

(** X8. Without a procedural renderer nothing is coalesced: binding N
    handlers to the same event on the same element, in a view whose
    renderer has no [listen], makes N calls of [addEventListener], one per
    handler and in the order of the binds, each with a closure of its own
    that wraps that handler with suppression on and has nothing chained
    behind it. *)
Theorem X8_direct_listeners_are_never_coalesced s eventName lv tv tn hs :
  direct_ground X s eventName lv tv tn ->
  exists s' t,
    bind_all X eventName hs s = Done tt s'
    /\ trace s' = trace s ++ t
    /\ Forall2 (attached eventName) t (seq (length (heap s)) (length hs))
    /\ heap s' = heap s ++ map (direct_closure (currentTNode s) (currentLView s)) hs.
Proof.
  revert s lv tv tn. induction hs as [|h hs IH]; intros s lv tv tn Hground.
  - exists s, []. cbn. rewrite !app_nil_r. by repeat split.
  - pose proof Hground as [Hlv Htv Htn Hel Hdirect Hnone].
    destruct (direct_ground_next s eventName lv tv tn h Hground) as (lv' & tv' & Hnext).
    destruct (IH _ _ _ _ Hnext) as (s' & t & Hrun & Htrace & Hatt & Hheap).
    exists s', (AddEventListener (target_of X None tn lv) eventName
                  (VRef (length (heap s))) false :: t).
    split; [|split; [|split]].
    + cbn [bind_all]. unfold Δlistener. cbn [default].
      erewrite bind_done; [exact Hrun|].
      by apply (install_direct_state X s lv tv tn).
    + rewrite Htrace. cbn. rewrite Nat.add_0_r. by rewrite <- app_assoc.
    + cbn [length seq]. constructor; [by eexists|].
      cbn in Hatt. rewrite length_app in Hatt. cbn in Hatt.
      by rewrite Nat.add_1_r in Hatt.
    + rewrite Hheap. cbn. by rewrite <- app_assoc.
Qed.


End DirectBinds.

(** ** What the lookup does not look at *)

Section AcrossRenderers.

Variable X : Externals.


End AcrossRenderers.

Section Capture.

Variable X : Externals.

Lemma addNativeListener_ignores_capture s lView tNode tView tCleanup tn lv eventName
    listenerFn useCapture eventTargetResolver loadRendererFn :
  tnodes s !! tNode = Some tn ->
  lviews s !! lView = Some lv ->
  isProceduralRenderer (renderer_of loadRendererFn tn lv) = true ->
  addNativeListener X lView tNode tView tCleanup eventName listenerFn useCapture
    eventTargetResolver loadRendererFn s
  = addNativeListener X lView tNode tView tCleanup eventName listenerFn false
      eventTargetResolver loadRendererFn s.
Proof.
  intros Htn Hlv Hproc. unfold addNativeListener.
  rewrite !(bind_done _ _ _ _ _ (readTNode_done _ _ _ Htn)).
  rewrite !(bind_done _ _ _ _ _ (readLView_done _ _ _ Hlv)).
  by rewrite Hproc.
Qed.

(** X11. With a procedural renderer the capture flag has no effect: an
    install with [useCapture] set ends as the same install without it, in
    the same state and with the same calls.  The flag reaches
    [addEventListener] only; [renderer.listen] is not given it, and the
    entry recorded for the listener holds the index of the disposer in its
    place. *)
Theorem X11_useCapture_is_ignored_by_a_procedural_renderer s lv tv tn eventName
    listenerFn useCapture eventTargetResolver loadRendererFn :
  lviews s !! currentLView s = Some lv ->
  tviews s !! TVIEW lv = Some tv ->
  tnodes s !! currentTNode s = Some tn ->
  isProceduralRenderer (renderer_of loadRendererFn tn lv) = true ->
  listenerInternal X eventName listenerFn useCapture eventTargetResolver loadRendererFn s
  = listenerInternal X eventName listenerFn false eventTargetResolver loadRendererFn s.
Proof.
  intros Hlv Htv Htn Hproc.
  rewrite !(listenerInternal_run X _ _ _ _ _ _ _ _ _ Hlv Htv Htn).
  destruct (tCleanup_ready_same s lv tv) as (Hh & Ht & Hl & Hn & Hd & Hcl & Hct).
  unfold bind at 1 3. destruct (when _ _ _) as [a s0|e s0| |] eqn:Hassert; try done.
  assert (Hs0 : s0 = tCleanup_ready (TVIEW lv) tv s).
  { unfold when, assertNodeOfPossibleTypes in Hassert.
    destruct (bool_decide (is_Some (ngDevMode s))); [|by injection Hassert].
    destruct (bool_decide (type tn ∈ [Element; Container; ElementContainer]));
      [by injection Hassert | done]. }
  subst s0. unfold bind at 1 2.
  destruct (bool_decide (type tn = Element)); [|done].
  by rewrite (addNativeListener_ignores_capture _ _ _ _ _ tn lv)
    by (by rewrite ?Hn, ?Hl).
Qed.

End Capture.

(** ** What every install keeps, however it ends *)

Section ListenerInternalKeeps.

Variable X : Externals.

Context (R : State -> State -> Prop) `{!Reflexive R} `{!Transitive R}.

(** A relation that each part of [listenerInternal] keeps is kept by the
    whole, whether it returns or throws. *)
Lemma listenerInternal_keeps s lv tv tn eventName listenerFn useCapture
    eventTargetResolver loadRendererFn s' :
  lviews s !! currentLView s = Some lv ->
  tviews s !! TVIEW lv = Some tv ->
  tnodes s !! currentTNode s = Some tn ->
  R s (tCleanup_ready (TVIEW lv) tv s) ->
  stepwise R
    (addNativeListener X (currentLView s) (currentTNode s) (TVIEW lv)
       (firstTemplatePass tv) eventName (VRef listenerFn) useCapture
       eventTargetResolver loadRendererFn) ->
  (forall fn,
      stepwise R
        (subscribeToOutputs X (currentLView s) (currentTNode s) (TVIEW lv)
           (firstTemplatePass tv) eventName fn)) ->
  final_state (listenerInternal X eventName listenerFn useCapture eventTargetResolver
                 loadRendererFn s) = Some s' ->
  R s s'.
Proof.
  intros Hlv Htv Htn Hready Hnative Houtputs.
  rewrite (listenerInternal_run X _ _ _ _ _ _ _ _ _ Hlv Htv Htn).
  match goal with
  | |- final_state (?c _) = _ -> _ => assert (Hstep : stepwise R c)
  end.
  { unfold assertNodeOfPossibleTypes. stepwise_go; first [done | apply Houtputs]. }
  specialize (Hstep (tCleanup_ready (TVIEW lv) tv s)).
  intros Hfinal.
  match type of Hfinal with
  | final_state ?r = _ => destruct r
  end; cbn in Hfinal; try done; injection Hfinal as <-; by etrans.
Qed.

End ListenerInternalKeeps.

Section Counter.

Variable X : Externals.

(** An install that ends has read the current view, its template and the
    current node. *)
Lemma listenerInternal_ends s eventName listenerFn useCapture eventTargetResolver
    loadRendererFn s' :
  final_state (listenerInternal X eventName listenerFn useCapture eventTargetResolver
                 loadRendererFn s) = Some s' ->
  exists lv tv tn,
    lviews s !! currentLView s = Some lv
    /\ tviews s !! TVIEW lv = Some tv
    /\ tnodes s !! currentTNode s = Some tn.
Proof.
  unfold listenerInternal, getLView, getPreviousOrParentTNode, gets.
  unfold bind at 1 2 3. unfold readLView at 1.
  destruct (lviews s !! currentLView s) as [lv|] eqn:Hlv;
    cbn [of_option ret unmodelled]; [|done].
  unfold bind at 1. unfold readTView at 1.
  destruct (tviews s !! TVIEW lv) as [tv|] eqn:Htv;
    cbn [of_option ret unmodelled]; [|done].
  erewrite bind_done with (s' := tCleanup_ready (TVIEW lv) tv s); cycle 1.
  { unfold tCleanup_ready, when.
    by destruct (firstTemplatePass tv && negb (bool_decide (is_Some (cleanup tv)))). }
  destruct (tCleanup_ready_same s lv tv) as (_ & _ & _ & Hnodes & _).
  unfold bind at 1. unfold readTNode at 1. rewrite Hnodes.
  destruct (tnodes s !! currentTNode s) as [tn|] eqn:Htn;
    cbn [of_option ret unmodelled]; [|done].
  intros _. by exists lv, tv, tn.
Qed.

#[global] Instance counts_native_refl : Reflexive counts_native.
Proof.
  intros s. exists []. rewrite app_nil_r. split; [done|].
  destruct (ngDevMode s) as [n|]; cbn; [|done]. by rewrite Nat.add_0_r.
Qed.

#[global] Instance counts_native_trans : Transitive counts_native.
Proof.
  intros s1 s2 s3 (t1 & Ht1 & Hd1) (t2 & Ht2 & Hd2). exists (t1 ++ t2).
  split; [by rewrite Ht2, Ht1, app_assoc|].
  rewrite Hd2, Hd1, List.filter_app, length_app.
  destruct (ngDevMode s1) as [n|]; cbn; [|done]. f_equal. lia.
Qed.

Lemma counts_native_same s s' :
  trace s' = trace s -> ngDevMode s' = ngDevMode s -> counts_native s s'.
Proof.
  intros Ht Hd. exists []. rewrite app_nil_r, Ht, Hd. split; [done|].
  destruct (ngDevMode s) as [n|]; cbn; [|done]. by rewrite Nat.add_0_r.
Qed.

Lemma counts_native_modify f :
  (forall s, trace (f s) = trace s) ->
  (forall s, ngDevMode (f s) = ngDevMode s) ->
  stepwise counts_native (modify f).
Proof. intros Ht Hd s. by apply counts_native_same. Qed.

Ltac counter_leaf :=
  first [ by apply counts_native_modify
        | intros ?; by apply counts_native_same ].

Lemma counts_native_getCleanup lView : stepwise counts_native (getCleanup lView).
Proof. unfold getCleanup, readLView, writeLView. stepwise_go. counter_leaf. Qed.

Lemma counts_native_lCleanup_push lView items :
  stepwise counts_native (lCleanup_push lView items).
Proof. unfold lCleanup_push, readLView, writeLView. stepwise_go. counter_leaf. Qed.

Lemma counts_native_tCleanup_push tCleanup tView items :
  stepwise counts_native (tCleanup_push tCleanup tView items).
Proof. unfold tCleanup_push, readTView, writeTView. stepwise_go. counter_leaf. Qed.

Lemma counts_native_get_next v : stepwise counts_native (get_next v).
Proof. unfold get_next, readObj. destruct v; stepwise_go. Qed.

Lemma counts_native_set_next v x : stepwise counts_native (set_next v x).
Proof. unfold set_next, readObj. destruct v; stepwise_go. counter_leaf. Qed.

Lemma counts_native_alloc k : stepwise counts_native (alloc k).
Proof. intros s. by apply counts_native_same. Qed.

(** A call of [subscribe] is no native registration. *)
Lemma counts_native_subscribe output listenerFn :
  stepwise counts_native (subscribe output listenerFn).
Proof.
  unfold subscribe, isObservable, readObj. stepwise_go;
    try apply counts_native_alloc.
  intros s. exists [Subscribe r listenerFn]. split; [done|].
  cbn. destruct (ngDevMode s) as [n|]; cbn; [|done]. by rewrite Nat.add_0_r.
Qed.

(** A native registration and the increment that follows it. *)
Lemma counts_native_registration {A} (k : M A) ev s s1 :
  is_native ev = true ->
  trace s1 = trace s ++ [ev] ->
  ngDevMode s1 = S <$> ngDevMode s ->
  stepwise counts_native k ->
  match k s1 with
  | Done _ s' | Raised _ s' => counts_native s s'
  | _ => True
  end.
Proof.
  intros Hev Ht Hd Hk. specialize (Hk s1).
  assert (Hs1 : counts_native s s1).
  { exists [ev]. split; [done|]. cbn. rewrite Hev, Hd. cbn.
    destruct (ngDevMode s) as [n|]; cbn; [|done]. f_equal. lia. }
  destruct (k s1); try done; by etrans.
Qed.

Lemma counts_native_addNativeListener lView tNode tView tCleanup eventName listenerFn
    useCapture eventTargetResolver loadRendererFn :
  stepwise counts_native
    (addNativeListener X lView tNode tView tCleanup eventName listenerFn useCapture
       eventTargetResolver loadRendererFn).
Proof.
  unfold addNativeListener, readTNode, readLView.
  stepwise_step; [stepwise_step|]. stepwise_step; [stepwise_step|].
  stepwise_step; [apply counts_native_getCleanup|].
  stepwise_step.
  { destruct eventTargetResolver; stepwise_go. apply counts_native_alloc. }
  destruct (isProceduralRenderer _).
  - stepwise_step.
    { destruct eventTargetResolver; [stepwise_step|].
      unfold findExistingListener, readLView, readTView. stepwise_go. }
    destruct (negb _).
    + stepwise_go;
        first [ apply counts_native_get_next | apply counts_native_set_next ].
    + unfold wrapListener. stepwise_step.
      { stepwise_step; [apply counts_native_alloc | stepwise_step]. }
      intros s. unfold bind at 1 2. rewrite renderer_listen_done, count_done.
      eapply counts_native_registration; [| reflexivity | reflexivity |]; [done|].
      stepwise_go;
        first [ apply counts_native_lCleanup_push | apply counts_native_tCleanup_push ].
  - unfold wrapListener. stepwise_step.
    { stepwise_step; [apply counts_native_alloc | stepwise_step]. }
    intros s. unfold bind at 1 2. rewrite emit_done, count_done.
    eapply counts_native_registration; [| reflexivity | reflexivity |]; [done|].
    stepwise_go;
      first [ apply counts_native_lCleanup_push | apply counts_native_tCleanup_push ].
Qed.

Lemma counts_native_subscribeOutputs lView tView tCleanup eventName tNodeIndex
    listenerFn props :
  stepwise counts_native
    (subscribeOutputs lView tView tCleanup eventName tNodeIndex listenerFn props).
Proof.
  induction props as [|p props IH]; cbn [subscribeOutputs]; [stepwise_step|].
  unfold readLView, devMode, assertDataInRange, get_prop, isObservable,
    constructor_name, readObj.
  stepwise_go;
    first [ apply counts_native_subscribe | apply counts_native_getCleanup
          | apply counts_native_lCleanup_push | apply counts_native_tCleanup_push
          | apply IH ].
Qed.

Lemma counts_native_subscribeToOutputs lView tNode tView tCleanup eventName listenerFn :
  stepwise counts_native
    (subscribeToOutputs X lView tNode tView tCleanup eventName listenerFn).
Proof.
  unfold subscribeToOutputs, readTNode, writeTNode.
  stepwise_go;
    first [ by apply counts_native_modify | apply counts_native_getCleanup
          | apply counts_native_subscribeOutputs ].
Qed.

(** X12. The counter [ngDevMode.rendererAddEventListener] counts the native
    registrations.  Over any install that ends, by returning or by throwing,
    the counter has advanced by exactly the number of calls of
    [renderer.listen] and [addEventListener] the install has made: a
    coalesced handler and a subscription to an output do not count.  When
    [ngDevMode] is off it stays off. *)
Theorem X12_counter_counts_native_registrations s eventName listenerFn useCapture
    eventTargetResolver loadRendererFn s' :
  final_state (listenerInternal X eventName listenerFn useCapture eventTargetResolver
                 loadRendererFn s) = Some s' ->
  exists t,
    trace s' = trace s ++ t
    /\ ngDevMode s'
       = (fun n => (n + length (List.filter is_native t))%nat) <$> ngDevMode s.
Proof.
  intros Hfinal.
  destruct (listenerInternal_ends _ _ _ _ _ _ _ Hfinal) as (lv & tv & tn & Hlv & Htv & Htn).
  eapply (listenerInternal_keeps X counts_native); try done.
  - apply counts_native_same;
      by destruct (tCleanup_ready_same s lv tv) as (? & ? & ? & ? & ? & ?).
  - apply counts_native_addNativeListener.
  - intros fn. apply counts_native_subscribeToOutputs.
Qed.

End Counter.

Section CleanupGrows.

Variable X : Externals.

#[global] Instance cleanup_grows_refl lView tView tCleanup :
  Reflexive (cleanup_grows lView tView tCleanup).
Proof.
  intros s. split; [|split]; [| |done].
  - intros i lv Hlv. exists lv. by repeat split.
  - intros i tv Htv. exists tv. by repeat split.
Qed.

#[global] Instance cleanup_grows_trans lView tView tCleanup :
  Transitive (cleanup_grows lView tView tCleanup).
Proof.
  intros s1 s2 s3 (Hl1 & Ht1 & Hc1) (Hl2 & Ht2 & Hc2). split; [|split].
  - intros i lv Hlv.
    destruct (Hl1 i lv Hlv) as (lv' & Hlv' & (H1 & H2 & H3 & H4) & Hp & Ho).
    destruct (Hl2 i lv' Hlv') as (lv'' & Hlv'' & (H1' & H2' & H3' & H4') & Hp' & Ho').
    exists lv''. split; [done|]. split; [repeat split; congruence|].
    split; [by etrans|]. intros Hi. rewrite Ho', Ho; done.
  - intros i tv Htv.
    destruct (Ht1 i tv Htv) as (tv' & Htv' & Hf & Hp & Hs & Ho).
    destruct (Ht2 i tv' Htv') as (tv'' & Htv'' & Hf' & Hp' & Hs' & Ho').
    exists tv''. split; [done|]. split; [congruence|].
    split; [by etrans|]. split; [eauto|]. intros Hi. rewrite Ho', Ho; done.
  - intros Hc. rewrite Hc2, Hc1; done.
Qed.

Lemma cleanup_grows_same lView tView tCleanup s s' :
  lviews s' = lviews s -> tviews s' = tviews s -> cleanup_grows lView tView tCleanup s s'.
Proof.
  intros Hl Ht. split; [|split]; [| |done].
  - intros i lv Hlv. exists lv. rewrite Hl. by repeat split.
  - intros i tv Htv. exists tv. rewrite Ht. by repeat split.
Qed.

Lemma cleanup_grows_modify lView tView tCleanup f :
  (forall s, lviews (f s) = lviews s) ->
  (forall s, tviews (f s) = tviews s) ->
  stepwise (cleanup_grows lView tView tCleanup) (modify f).
Proof. intros Hl Ht s. by apply cleanup_grows_same. Qed.

(** The array of the view, from what it holds to [c']. *)
Lemma cleanup_grows_lviews lView tView tCleanup s v c' :
  lviews s !! lView = Some v ->
  default [] (CLEANUP v) `prefix_of` c' ->
  cleanup_grows lView tView tCleanup s
    (with_lviews (<[lView := set_CLEANUP (Some c') v]> (lviews s)) s).
Proof.
  intros Hv Hp. split; [|split]; [| |done].
  - intros i lv Hlv. cbn. destruct (decide (lView = i)) as [<-|Hne].
    + rewrite list_lookup_insert_eq by (by eapply lookup_lt_Some).
      rewrite Hv in Hlv. injection Hlv as <-.
      eexists; split; [done|]. by repeat split.
    + rewrite list_lookup_insert_ne by done. exists lv. by repeat split.
  - intros i tv Htv. exists tv. by repeat split.
Qed.

(** The array of the template, from what it holds to [c']. *)
Lemma cleanup_grows_tviews lView tView s t c' :
  tviews s !! tView = Some t ->
  default [] (cleanup t) `prefix_of` c' ->
  cleanup_grows lView tView true s
    (with_tviews (<[tView := set_cleanup (Some c') t]> (tviews s)) s).
Proof.
  intros Ht Hp. split; [|split]; [| |done].
  - intros i lv Hlv. exists lv. by repeat split.
  - intros i tv Htv. cbn. destruct (decide (tView = i)) as [<-|Hne].
    + rewrite list_lookup_insert_eq by (by eapply lookup_lt_Some).
      rewrite Ht in Htv. injection Htv as <-.
      eexists; split; [done|]. by repeat split.
    + rewrite list_lookup_insert_ne by done. exists tv. by repeat split.
Qed.

Lemma cleanup_grows_getCleanup lView tView tCleanup :
  stepwise (cleanup_grows lView tView tCleanup) (getCleanup lView).
Proof.
  intros s. unfold getCleanup, bind, readLView.
  destruct (lviews s !! lView) as [v|] eqn:Hv; cbn; [|done].
  destruct (CLEANUP v) eqn:Hc; cbn; [reflexivity|].
  apply cleanup_grows_lviews; [done|]. by rewrite Hc.
Qed.

Lemma cleanup_grows_lCleanup_push lView tView tCleanup items :
  stepwise (cleanup_grows lView tView tCleanup) (lCleanup_push lView items).
Proof.
  intros s. unfold lCleanup_push, bind, readLView.
  destruct (lviews s !! lView) as [v|] eqn:Hv; cbn; [|done].
  destruct (CLEANUP v) eqn:Hc; cbn; [|done].
  apply cleanup_grows_lviews; [done|]. rewrite Hc. by apply prefix_app_r.
Qed.

Lemma cleanup_grows_tCleanup_push lView tView tCleanup items :
  stepwise (cleanup_grows lView tView tCleanup) (tCleanup_push tCleanup tView items).
Proof.
  intros s. unfold tCleanup_push, when, bind, readTView.
  destruct tCleanup; cbn; [|reflexivity].
  destruct (tviews s !! tView) as [t|] eqn:Ht; cbn; [|done].
  destruct (cleanup t) eqn:Hc; cbn; [|done].
  apply cleanup_grows_tviews; [done|]. rewrite Hc. by apply prefix_app_r.
Qed.

Ltac grows_leaf :=
  first [ by apply cleanup_grows_modify
        | intros ?; by apply cleanup_grows_same
        | apply cleanup_grows_getCleanup
        | apply cleanup_grows_lCleanup_push
        | apply cleanup_grows_tCleanup_push ].

Lemma cleanup_grows_addNativeListener lView tNode tView tCleanup eventName listenerFn
    useCapture eventTargetResolver loadRendererFn :
  stepwise (cleanup_grows lView tView tCleanup)
    (addNativeListener X lView tNode tView tCleanup eventName listenerFn useCapture
       eventTargetResolver loadRendererFn).
Proof.
  unfold addNativeListener, wrapListener, renderer_listen, findExistingListener,
    get_next, set_next, alloc, emit, count_rendererAddEventListener,
    readTNode, readLView, readTView, readObj.
  stepwise_go; grows_leaf.
Qed.

Lemma cleanup_grows_subscribeOutputs lView tView tCleanup eventName tNodeIndex
    listenerFn props :
  stepwise (cleanup_grows lView tView tCleanup)
    (subscribeOutputs lView tView tCleanup eventName tNodeIndex listenerFn props).
Proof.
  induction props as [|p props IH]; cbn [subscribeOutputs]; [stepwise_step|].
  unfold readLView, devMode, assertDataInRange, get_prop, isObservable,
    constructor_name, subscribe, isObservable, alloc, emit, readObj.
  stepwise_go; first [ apply IH | grows_leaf ].
Qed.

Lemma cleanup_grows_subscribeToOutputs lView tNode tView tCleanup eventName listenerFn :
  stepwise (cleanup_grows lView tView tCleanup)
    (subscribeToOutputs X lView tNode tView tCleanup eventName listenerFn).
Proof.
  unfold subscribeToOutputs, readTNode, writeTNode.
  stepwise_go; first [ apply cleanup_grows_subscribeOutputs | grows_leaf ].
Qed.

Lemma cleanup_grows_ready s lv tv :
  tviews s !! TVIEW lv = Some tv ->
  cleanup_grows (currentLView s) (TVIEW lv) (firstTemplatePass tv) s
    (tCleanup_ready (TVIEW lv) tv s).
Proof.
  intros Htv. unfold tCleanup_ready.
  destruct (firstTemplatePass tv); cbn [andb]; [|reflexivity].
  destruct (cleanup tv) eqn:Hc.
  - rewrite bool_decide_eq_true_2 by (by eexists). reflexivity.
  - rewrite bool_decide_eq_false_2 by (by intros [? ?]). cbn [negb].
    apply cleanup_grows_tviews; [done|]. by rewrite Hc.
Qed.

(** From the state in which the cleanup array of the template exists to the
    end of the install. *)
Lemma cleanup_grows_after_ready s lv tv tn eventName listenerFn useCapture
    eventTargetResolver loadRendererFn s' :
  lviews s !! currentLView s = Some lv ->
  tviews s !! TVIEW lv = Some tv ->
  tnodes s !! currentTNode s = Some tn ->
  final_state (listenerInternal X eventName listenerFn useCapture eventTargetResolver
                 loadRendererFn s) = Some s' ->
  cleanup_grows (currentLView s) (TVIEW lv) (firstTemplatePass tv)
    (tCleanup_ready (TVIEW lv) tv s) s'.
Proof.
  intros Hlv Htv Htn Hfinal.
  rewrite (listenerInternal_run X _ _ _ _ _ _ _ _ _ Hlv Htv Htn) in Hfinal.
  match type of Hfinal with
  | final_state (?c _) = _ =>
      assert (Hstep : stepwise (cleanup_grows (currentLView s) (TVIEW lv)
                                  (firstTemplatePass tv)) c)
  end.
  { unfold assertNodeOfPossibleTypes.
    stepwise_go;
      first [ apply cleanup_grows_addNativeListener
            | apply cleanup_grows_subscribeToOutputs ]. }
  specialize (Hstep (tCleanup_ready (TVIEW lv) tv s)).
  match type of Hfinal with
  | final_state ?r = _ => destruct r
  end; cbn in Hfinal; try done; by injection Hfinal as <-.
Qed.

(** X13. The cleanup arrays only grow.  Over any install that ends, by
    returning or by throwing, the cleanup array of every view and of every
    template holds what it held, at the same positions, followed by what
    the install has pushed; the views other than the current one and the
    templates other than its template are not written at all.  So an index
    that an earlier entry of the template records still names the same
    entry of the view. *)
Theorem X13_cleanup_arrays_only_grow s eventName listenerFn useCapture
    eventTargetResolver loadRendererFn s' :
  final_state (listenerInternal X eventName listenerFn useCapture eventTargetResolver
                 loadRendererFn s) = Some s' ->
  exists lv,
    lviews s !! currentLView s = Some lv
    /\ (forall i lv0, lviews s !! i = Some lv0 ->
          exists lv', lviews s' !! i = Some lv'
            /\ default [] (CLEANUP lv0) `prefix_of` default [] (CLEANUP lv')
            /\ (i <> currentLView s -> lv' = lv0))
    /\ (forall i tv0, tviews s !! i = Some tv0 ->
          exists tv', tviews s' !! i = Some tv'
            /\ default [] (cleanup tv0) `prefix_of` default [] (cleanup tv')
            /\ (i <> TVIEW lv -> tv' = tv0)).
Proof.
  intros Hfinal.
  destruct (listenerInternal_ends X _ _ _ _ _ _ _ Hfinal) as (lv & tv & tn & Hlv & Htv & Htn).
  assert (Hgrows : cleanup_grows (currentLView s) (TVIEW lv) (firstTemplatePass tv) s s').
  { etrans; [by apply cleanup_grows_ready | by eapply cleanup_grows_after_ready]. }
  destruct Hgrows as (Hl & Ht & _).
  exists lv. split; [done|]. split.
  - intros i lv0 Hlv0. destruct (Hl i lv0 Hlv0) as (lv' & ? & ? & ? & ?). by exists lv'.
  - intros i tv0 Htv0. destruct (Ht i tv0 Htv0) as (tv' & ? & ? & ? & ? & ?).
    by exists tv'.
Qed.

(** X14. The template is written in its first pass only.  Over any install
    that ends, by returning or by throwing: when the first template pass is
    over, the templates are exactly as they were; in the first pass, the
    cleanup array of the template exists afterwards, created empty if it
    was null, even when the install has pushed nothing or has thrown. *)
Theorem X14_template_is_written_in_the_first_pass_only s eventName listenerFn
    useCapture eventTargetResolver loadRendererFn s' :
  final_state (listenerInternal X eventName listenerFn useCapture eventTargetResolver
                 loadRendererFn s) = Some s' ->
  exists lv tv,
    lviews s !! currentLView s = Some lv
    /\ tviews s !! TVIEW lv = Some tv
    /\ (firstTemplatePass tv = false -> tviews s' = tviews s)
    /\ (firstTemplatePass tv = true ->
        exists tv', tviews s' !! TVIEW lv = Some tv' /\ is_Some (cleanup tv')).
Proof.
  intros Hfinal.
  destruct (listenerInternal_ends X _ _ _ _ _ _ _ Hfinal) as (lv & tv & tn & Hlv & Htv & Htn).
  exists lv, tv. split; [done|]. split; [done|].
  destruct (cleanup_grows_after_ready _ _ _ _ _ _ _ _ _ _ Hlv Htv Htn Hfinal)
    as (_ & Ht & Hsame).
  destruct (tCleanup_ready_lookup s _ _ Htv) as [Htv0 Hsome].
  split.
  - intros Hpass. rewrite (Hsame Hpass). unfold tCleanup_ready. by rewrite Hpass.
  - intros Hpass. destruct (Ht _ _ Htv0) as (tv' & Htv' & _ & _ & Hkeep & _).
    exists tv'. split; [done|]. by apply Hkeep, Hsome.
Qed.

End CleanupGrows.

Section NodeOutputs.

Variable X : Externals.

#[global] Instance same_nodes_refl : Reflexive same_nodes.
Proof. by intros s. Qed.

#[global] Instance same_nodes_trans : Transitive same_nodes.
Proof. unfold same_nodes. intros s1 s2 s3 H1 H2. congruence. Qed.

Lemma bind_done_inv {A B} (c : M A) (k : A -> M B) s b s' :
  bind c k s = Done b s' -> exists a s1, c s = Done a s1 /\ k a s1 = Done b s'.
Proof. unfold bind. destruct (c s) as [a s1| | |]; try done. by exists a, s1. Qed.

Lemma same_nodes_modify f :
  (forall s, tnodes (f s) = tnodes s) -> stepwise same_nodes (modify f).
Proof. intros Hf s. apply Hf. Qed.

Lemma same_nodes_outputs_step lView tView tCleanup tn eventName fn :
  stepwise same_nodes (outputs_step X lView tView tCleanup tn eventName fn).
Proof.
  unfold outputs_step.
  assert (Hloop : forall props,
    stepwise same_nodes
      (subscribeOutputs lView tView tCleanup eventName (index tn) fn props)).
  { induction props as [|p props IH]; cbn [subscribeOutputs]; [stepwise_step|].
    unfold readLView, devMode, assertDataInRange, get_prop, isObservable,
      constructor_name, subscribe, isObservable, getCleanup, lCleanup_push,
      tCleanup_push, alloc, emit, readLView, readTView, writeLView, writeTView, readObj.
    stepwise_go;
      first [ apply IH | by apply same_nodes_modify | intros ?; reflexivity ]. }
  destruct (props_for X tn eventName); [stepwise_step|].
  unfold getCleanup, readLView, writeLView.
  stepwise_go; first [ apply Hloop | by apply same_nodes_modify ].
Qed.

(** X15. The outputs of a node are computed once.  An install that returns
    leaves all nodes as they were, but for the outputs of the current node:
    when they were undefined they now hold what [generatePropertyAliases]
    gave (null when the node has no output); when they were already
    computed, null included, the node is not written. *)
Theorem X15_outputs_of_the_node_are_computed_once s eventName listenerFn useCapture
    eventTargetResolver loadRendererFn s' :
  listenerInternal X eventName listenerFn useCapture eventTargetResolver
    loadRendererFn s = Done tt s' ->
  exists tn,
    tnodes s !! currentTNode s = Some tn
    /\ tnodes s' = <[currentTNode s := outputs_cached X tn]> (tnodes s)
    /\ outputs (outputs_cached X tn) <> OutputsUndefined
    /\ (outputs tn <> OutputsUndefined -> tnodes s' = tnodes s).
Proof.
  intros Hrun.
  destruct (listenerInternal_ends X s eventName listenerFn useCapture eventTargetResolver
              loadRendererFn s') as (lv & tv & tn & Hlv & Htv & Htn);
    [by rewrite Hrun|].
  exists tn. split; [done|].
  assert (Hcached : outputs (outputs_cached X tn) <> OutputsUndefined).
  { unfold outputs_cached. destruct (outputs tn) eqn:Hout; cbn; rewrite ?Hout; try done.
    by destruct (generatePropertyAliases X tn). }
  assert (Hnodes : tnodes s' = <[currentTNode s := outputs_cached X tn]> (tnodes s)).
  { rewrite (listenerInternal_run X _ _ _ _ _ _ _ _ _ Hlv Htv Htn) in Hrun.
    destruct (tCleanup_ready_same s lv tv) as (_ & _ & _ & Hn0 & _).
    apply bind_done_inv in Hrun as ([] & sA & Hassert & Hrun).
    assert (HsA : sA = tCleanup_ready (TVIEW lv) tv s).
    { unfold when, assertNodeOfPossibleTypes in Hassert.
      destruct (bool_decide (is_Some (ngDevMode s))); [|by injection Hassert].
      destruct (bool_decide (type tn ∈ [Element; Container; ElementContainer]));
        [by injection Hassert | done]. }
    subst sA.
    apply bind_done_inv in Hrun as (fn & s1 & Hnative & Hrun).
    assert (Hn1 : tnodes s1 = tnodes s).
    { rewrite <- Hn0. destruct (bool_decide (type tn = Element)).
      - pose proof (install_frame_addNativeListener X (currentLView s) (currentTNode s)
                      (TVIEW lv) (firstTemplatePass tv) eventName (VRef listenerFn)
                      useCapture eventTargetResolver loadRendererFn
                      (tCleanup_ready (TVIEW lv) tv s)) as Hframe.
        rewrite Hnative in Hframe. by destruct Hframe as (? & _).
      - by injection Hnative as _ <-. }
    rewrite (subscribeToOutputs_run X _ _ _ _ _ _ _ tn) in Hrun by (by rewrite Hn1).
    pose proof (same_nodes_outputs_step (currentLView s) (TVIEW lv) (firstTemplatePass tv)
                  tn eventName fn
                  (with_tnodes (<[currentTNode s := outputs_cached X tn]> (tnodes s1)) s1))
      as Hstep.
    unfold outputs_step in Hstep. rewrite Hrun in Hstep.
    unfold same_nodes in Hstep. cbn in Hstep. by rewrite Hstep, Hn1. }
  split; [done|]. split; [done|].
  intros Hout. rewrite Hnodes. apply list_insert_id.
  rewrite Htn. f_equal. unfold outputs_cached. by destruct (outputs tn).
Qed.

End NodeOutputs.

(** ** The cleanup entries of the outputs *)

Section OutputEntries.

Variable X : Externals.

Section Folded.

Variables (lView tView : nat) (eventName : string) (tNodeIndex : Z) (fn : JsVal).

Lemma foldl_subscribed_template os : forall s slots0 lv tv,
  loop_ready lView tView true s slots0 ->
  lviews s !! lView = Some lv ->
  tviews s !! tView = Some tv ->
  exists tv',
    tviews (foldl (subscribed lView tView true eventName tNodeIndex fn) s os) !! tView
    = Some tv'
    /\ default [] (cleanup tv')
       = default [] (cleanup tv)
         ++ output_entries eventName tNodeIndex (length os)
              (Z.of_nat (length (default [] (CLEANUP lv)))).
Proof.
  induction os as [|o os IH]; intros s slots0 lv tv Hready Hlv Htv.
  - exists tv. cbn. by rewrite app_nil_r.
  - cbn [foldl].
    pose proof (subscribed_ready lView tView true eventName tNodeIndex fn
                  s slots0 o Hready) as Hready'.
    set (s1 := subscribed lView tView true eventName tNodeIndex fn s o) in *.
    assert (Hlv1 : lviews s1 !! lView
                   = Some (set_CLEANUP
                             (Some (default [] (CLEANUP lv) ++ [fn; VRef (length (heap s))]))
                             lv)).
    { subst s1. unfold subscribed. rewrite Hlv, Htv. cbn.
      apply list_lookup_insert_eq. by eapply lookup_lt_Some. }
    assert (Htv1 : tviews s1 !! tView
                   = Some (set_cleanup
                             (Some (default [] (cleanup tv)
                                    ++ [VStr eventName; VNum tNodeIndex;
                                        VNum (Z.of_nat (length (default [] (CLEANUP lv))));
                                        VNum (- (Z.of_nat (length (default [] (CLEANUP lv)))
                                                 + 1))]))
                             tv)).
    { subst s1. unfold subscribed. rewrite Hlv, Htv. cbn.
      apply list_lookup_insert_eq. by eapply lookup_lt_Some. }
    destruct (IH s1 slots0 _ _ Hready' Hlv1 Htv1) as (tv' & Htv' & Hc).
    exists tv'. split; [done|]. rewrite Hc.
    cbn [cleanup set_cleanup CLEANUP set_CLEANUP length output_entries]. simpl default.
    rewrite length_app. cbn [length].
    replace (Z.of_nat (length (default [] (CLEANUP lv)) + 2))
      with (Z.of_nat (length (default [] (CLEANUP lv))) + 2) by lia.
    by rewrite <- app_assoc.
Qed.

End Folded.

Lemma outputs_step_entries s lView tView tn eventName fn slots0 lv tv os :
  loop_ready lView tView true s slots0 ->
  lviews s !! lView = Some lv ->
  tviews s !! tView = Some tv ->
  Forall2 (stream_in (heap s) slots0) (props_for X tn eventName) os ->
  exists s' tv',
    outputs_step X lView tView true tn eventName fn s = Done tt s'
    /\ tviews s' !! tView = Some tv'
    /\ default [] (cleanup tv')
       = default [] (cleanup tv)
         ++ output_entries eventName (index tn) (length os)
              (Z.of_nat (length (default [] (CLEANUP lv)))).
Proof.
  intros Hready Hlv Htv Hall. unfold outputs_step.
  destruct (props_for X tn eventName) as [|p props] eqn:Hprops.
  - apply Forall2_nil_inv_l in Hall as ->. exists s, tv. cbn.
    by rewrite app_nil_r.
  - destruct (getCleanup_ready s lView tView true slots0 lv Hready Hlv)
      as (s3 & Hget & Hready3 & Hlv3 & Hh3 & Ht3 & Hd3).
    assert (Htv3 : tviews s3 !! tView = Some tv).
    { rewrite (getCleanup_done _ _ _ Hlv) in Hget. by injection Hget as <-. }
    rewrite (bind_done _ _ _ _ _ Hget).
    rewrite <- Hh3 in Hall.
    rewrite (subscribeOutputs_all lView tView true eventName (index tn) fn
               _ os s3 slots0 Hready3 Hall).
    destruct (foldl_subscribed_template lView tView eventName (index tn) fn os
                s3 slots0 _ _ Hready3 Hlv3 Htv3) as (tv' & Htv' & Hc).
    eexists _, tv'. split; [reflexivity|]. split; [done|]. by rewrite Hc.
Qed.

(** X16. Each subscription to an output is recorded so that it can be
    found again.  In the first template pass, when all the outputs that the
    event name matches are streams, the install pushes for each of them the
    listener and the subscription to the cleanup array of the view, at two
    successive positions, and to the cleanup array of the template an entry
    of four slots: the event name, the node index, the position of the
    listener in the array of the view, and minus the position of the
    subscription, which follows it.  The negative fourth slot is what sets
    the entry of a subscription apart from the entry of a listener. *)
Theorem X16_output_entries_name_their_subscriptions
    s lv tv tn eventName listenerFn useCapture eventTargetResolver loadRendererFn
    fn s1 lv1 tv1 os :
  lviews s !! currentLView s = Some lv ->
  tviews s !! TVIEW lv = Some tv ->
  tnodes s !! currentTNode s = Some tn ->
  firstTemplatePass tv = true ->
  (ngDevMode s = None \/ type tn ∈ [Element; Container; ElementContainer]) ->
  native_step X (currentLView s) (currentTNode s) (TVIEW lv) (firstTemplatePass tv)
    tn eventName listenerFn useCapture eventTargetResolver loadRendererFn
    (tCleanup_ready (TVIEW lv) tv s) = Done fn s1 ->
  lviews s1 !! currentLView s = Some lv1 ->
  tviews s1 !! TVIEW lv = Some tv1 ->
  Forall2 (stream_in (heap s1) (slots lv)) (props_for X tn eventName) os ->
  exists s' lv' tv',
    listenerInternal X eventName listenerFn useCapture eventTargetResolver
      loadRendererFn s = Done tt s'
    /\ lviews s' !! currentLView s = Some lv'
    /\ tviews s' !! TVIEW lv = Some tv'
    /\ default [] (CLEANUP lv')
       = default [] (CLEANUP lv1)
         ++ output_cleanup fn (seq (length (heap s1)) (length os))
    /\ default [] (cleanup tv')
       = default [] (cleanup tv1)
         ++ output_entries eventName (index tn) (length os)
              (Z.of_nat (length (default [] (CLEANUP lv1)))).
Proof.
  intros Hlv Htv Htn Hpass Hassert Hnative Hlv1 Htv1 Hall.
  rewrite (listenerInternal_split X s lv tv tn eventName listenerFn useCapture
             eventTargetResolver loadRendererFn Hlv Htv Htn Hassert fn s1 Hnative).
  destruct (native_step_leaves X s lv tv tn eventName listenerFn useCapture
              eventTargetResolver loadRendererFn Hlv Htv fn s1 Hnative)
    as (Hready & Hh2 & Ht2 & Hd2 & Hl2).
  rewrite Hpass in *.
  set (s2 := with_tnodes (<[currentTNode s := outputs_cached X tn]> (tnodes s1)) s1) in *.
  assert (Hlv2 : lviews s2 !! currentLView s = Some lv1) by (by rewrite Hl2).
  assert (Htv2 : tviews s2 !! TVIEW lv = Some tv1) by done.
  assert (Hall2 : Forall2 (stream_in (heap s2) (slots lv)) (props_for X tn eventName) os)
    by (by rewrite Hh2).
  destruct (outputs_step_all X s2 (currentLView s) (TVIEW lv) true tn eventName fn
              (slots lv) lv1 os Hready Hlv2 Hall2)
    as (s' & lv' & Hrun & _ & _ & Hlv' & Hc).
  destruct (outputs_step_entries s2 (currentLView s) (TVIEW lv) tn eventName fn
              (slots lv) lv1 tv1 os Hready Hlv2 Htv2 Hall2)
    as (s'' & tv' & Hrun' & Htv' & Hc').
  rewrite Hrun in Hrun'. injection Hrun' as <-.
  exists s', lv', tv'. rewrite Hh2 in Hc. done.
Qed.

End OutputEntries.

(** ** Dispatch, whatever is chained *)

Section NeverThrows.

Variable X : Externals.

Lemma never_throws_ret {A} (a : A) : never_throws (ret a).
Proof. by intros s. Qed.

Lemma never_throws_bind {A B} (c : M A) (k : A -> M B) :
  never_throws c -> (forall a, never_throws (k a)) -> never_throws (bind c k).
Proof.
  intros Hc Hk s. unfold bind. specialize (Hc s).
  destruct (c s) as [a s1|e s1| |]; try done. apply Hk.
Qed.

Lemma never_throws_read {A} (f : State -> option A) :
  never_throws (fun s => of_option (f s) s).
Proof. intros s. by destruct (f s). Qed.

Lemma never_throws_when b (c : M unit) : never_throws c -> never_throws (when b c).
Proof. destruct b; [done | intros _; apply never_throws_ret]. Qed.

Lemma never_throws_emit ev : never_throws (emit ev).
Proof. by intros s. Qed.

(** The [try] of [executeListenerWithErrorHandling] lets no error out,
    whatever is called. *)
Lemma never_throws_execute call lView listenerFn e :
  never_throws (executeListenerWithErrorHandling call lView listenerFn e).
Proof.
  intros s. unfold executeListenerWithErrorHandling, try_catch.
  by destruct (call listenerFn e s).
Qed.

(** Reading [__ngNextListenerFn__] of a value that has passed the test of
    the [while] loop does not throw. *)
Lemma never_throws_get_next v : truthy v = true -> never_throws (get_next v).
Proof.
  destruct v; cbn [truthy get_next]; try done; intros _; try apply never_throws_ret.
  apply never_throws_bind; [apply (never_throws_read (fun s => heap s !! r))|].
  intros o. apply never_throws_ret.
Qed.

Lemma never_throws_walk_chain call lView e fuel : forall nextListenerFn result,
  never_throws (walk_chain call fuel lView e nextListenerFn result).
Proof.
  induction fuel as [|fuel IH]; intros nextListenerFn result; cbn [walk_chain]; [done|].
  destruct (truthy nextListenerFn) eqn:Hnext; [|apply never_throws_ret].
  apply never_throws_bind; [apply never_throws_execute|]. intros result'.
  apply never_throws_bind; [by apply never_throws_get_next|]. intros next. apply IH.
Qed.

Lemma never_throws_wrapper call fuel self tNode lView listenerFn pd e :
  never_throws
    (wrapListenerIn_markDirtyAndPreventDefault X call fuel self tNode lView listenerFn
       pd e).
Proof.
  unfold wrapListenerIn_markDirtyAndPreventDefault.
  apply never_throws_bind; [apply (never_throws_read (fun s => tnodes s !! tNode))|].
  intros tn.
  apply never_throws_bind; [apply (never_throws_read (fun s => lviews s !! lView))|].
  intros lv.
  apply never_throws_bind; [apply never_throws_when, never_throws_emit|]. intros _.
  apply never_throws_bind; [apply never_throws_execute|]. intros result.
  apply never_throws_bind; [by apply never_throws_get_next|]. intros next.
  apply never_throws_bind; [apply never_throws_walk_chain|]. intros result'.
  apply never_throws_bind; [|intros _; apply never_throws_ret].
  apply never_throws_when.
  apply never_throws_bind; [apply never_throws_emit|]. intros _. apply never_throws_emit.
Qed.

(** X17. No error leaves a wrapped listener, whatever it wraps and whatever
    is chained behind it: a handler that throws, a value that is no
    function (calling it is a TypeError, raised inside the [try]), another
    wrapped listener.  The two calls of handlers are the only places of the
    closure where user code runs, and both go through
    [executeListenerWithErrorHandling]; reading the next link of a value
    that passed the loop test cannot throw.  (The calls that leave the
    file, [markViewDirty] and [preventDefault], are taken not to throw.) *)
Theorem X17_wrapped_listener_never_throws s w tNode lView listenerFn pd next fuel e :
  heap s !! w = Some {| kind := WrappedListener tNode lView listenerFn pd;
                        ngNextListenerFn := next |} ->
  thrown (invoke X fuel (VRef w) e s) = None.
Proof.
  intros Hw. destruct fuel as [|fuel]; [done|]. cbn [invoke].
  rewrite (bind_done _ _ _ _ _ (readObj_done _ _ _ Hw)). cbn [kind].
  apply never_throws_wrapper.
Qed.

End NeverThrows.

Section DispatchFrame.

Variable X : Externals.

#[global] Instance only_calls_refl : Reflexive only_calls.
Proof. intros s. exists []. split; [|done]. by rewrite app_nil_r. Qed.

#[global] Instance only_calls_trans : Transitive only_calls.
Proof.
  intros s1 s2 s3 (t1 & Ht1 & H1) (t2 & Ht2 & H2). exists (t1 ++ t2).
  split; [|by rewrite forallb_app, H1, H2].
  by rewrite Ht2, Ht1, app_assoc.
Qed.

Lemma only_calls_emit ev : is_dispatch_call ev = true -> stepwise only_calls (emit ev).
Proof. intros Hev s. exists [ev]. split; [done|]. cbn. by rewrite Hev. Qed.

Lemma only_calls_get_next v : stepwise only_calls (get_next v).
Proof. unfold get_next, readObj. destruct v; stepwise_go. Qed.

Lemma only_calls_execute call lView listenerFn e :
  stepwise only_calls (call listenerFn e) ->
  stepwise only_calls (executeListenerWithErrorHandling call lView listenerFn e).
Proof.
  intros Hcall. unfold executeListenerWithErrorHandling.
  stepwise_go; [done | by apply only_calls_emit].
Qed.

Lemma only_calls_walk_chain call lView e fuel :
  (forall f, stepwise only_calls (call f e)) ->
  forall nextListenerFn result,
    stepwise only_calls (walk_chain call fuel lView e nextListenerFn result).
Proof.
  intros Hcall. induction fuel as [|fuel IH]; intros nextListenerFn result;
    cbn [walk_chain]; [stepwise_step|].
  destruct (truthy nextListenerFn); [|stepwise_step].
  stepwise_step; [by apply only_calls_execute|].
  stepwise_step; [apply only_calls_get_next | apply IH].
Qed.

Lemma only_calls_invoke fuel : forall f e, stepwise only_calls (invoke X fuel f e).
Proof.
  induction fuel as [|fuel IH]; intros f e; cbn [invoke]; [stepwise_step|].
  destruct f; try (by stepwise_step).
  unfold readObj. stepwise_step; [stepwise_step|].
  destruct (kind a); try (by stepwise_step).
  - stepwise_step; [by apply only_calls_emit|]. destruct (body e); stepwise_step.
  - unfold wrapListenerIn_markDirtyAndPreventDefault, readTNode, readLView.
    stepwise_go;
      first [ by apply only_calls_emit | apply only_calls_get_next
            | by apply only_calls_execute | by apply only_calls_walk_chain ].
Qed.

(** X18. A dispatch registers nothing.  The calls that a call of a handler
    or of a wrapped listener makes, with whatever is chained and however the
    run ends, are dirty marks, calls of handlers, reports to the error sink
    and the suppression of the default action: the code of the listener
    never calls [renderer.listen], [addEventListener] or [subscribe].  (What
    the body of a handler does, and what [markViewDirty] writes, is outside
    this statement.) *)
Theorem X18_dispatch_registers_nothing fuel f e s s' :
  final_state (invoke X fuel f e s) = Some s' ->
  exists t, trace s' = trace s ++ t /\ forallb is_dispatch_call t = true.
Proof.
  intros Hfinal. pose proof (only_calls_invoke fuel f e s) as Hstep.
  destruct (invoke X fuel f e s); cbn in Hfinal; try done; by injection Hfinal as <-.
Qed.

End DispatchFrame.

Section SelfLoop.

Variable X : Externals.

(** The [while] loop on a handler that is its own successor. *)
Lemma walk_chain_self_loop k lView e f body fuel : forall s result,
  heap s !! f = Some {| kind := UserFunction body; ngNextListenerFn := VRef f |} ->
  walk_chain (invoke X (S k)) fuel lView e (VRef f) result s = OutOfFuel.
Proof.
  induction fuel as [|fuel IH]; intros s result Hf; [done|].
  cbn [walk_chain truthy].
  rewrite (bind_done _ _ _ _ _ (execute_user_handler X k lView f body _ e s Hf)).
  erewrite bind_done; [| apply (get_next_done _ f); cbn; exact Hf ].
  by apply IH.
Qed.

Lemma when_emit_done b ev s :
  when b (emit ev) s = Done tt (with_trace (trace s ++ (if b then [ev] else [])) s).
Proof.
  destruct b; [done|]. cbn. unfold ret, with_trace. rewrite app_nil_r. by destruct s.
Qed.

Lemma dispatch_self_loop s w tNode lView tn lv pd h1 body1 next1 f body fuel e :
  heap s !! w = Some {| kind := WrappedListener tNode lView (VRef h1) pd;
                        ngNextListenerFn := VRef f |} ->
  heap s !! h1 = Some {| kind := UserFunction body1; ngNextListenerFn := next1 |} ->
  heap s !! f = Some {| kind := UserFunction body; ngNextListenerFn := VRef f |} ->
  tnodes s !! tNode = Some tn ->
  lviews s !! lView = Some lv ->
  invoke X fuel (VRef w) e s = OutOfFuel.
Proof.
  intros Hw Hh1 Hf Htn Hlv. destruct fuel as [|fuel]; [done|].
  cbn [invoke]. rewrite (bind_done _ _ _ _ _ (readObj_done _ _ _ Hw)). cbn [kind].
  unfold wrapListenerIn_markDirtyAndPreventDefault.
  rewrite (bind_done _ _ _ _ _ (readTNode_done _ _ _ Htn)).
  rewrite (bind_done _ _ _ _ _ (readLView_done _ _ _ Hlv)).
  rewrite (bind_done _ _ _ _ _ (when_emit_done _ _ _)).
  destruct fuel as [|k]; [done|].
  erewrite bind_done;
    [| apply (execute_user_handler X k lView h1 body1 next1); cbn; exact Hh1 ].
  erewrite bind_done; [| apply (get_next_done _ w); cbn; exact Hw ].
  cbn [ngNextListenerFn].
  unfold bind at 1. by rewrite (walk_chain_self_loop k lView e f body).
Qed.

(** X19. Binding the same function twice in a row makes the dispatch loop
    for ever.  On the ground where handlers coalesce, after a first handler
    has been bound, binding a function [h] and then [h] again links [h] to
    itself: the second of the two binds copies the successor of the closure,
    which is [h], into [h.__ngNextListenerFn__].  The [while] loop of the
    closure then never reaches a falsy link: for every amount of fuel the
    dispatch runs out of it, so the wrapped listener never returns. *)
Theorem X19_binding_a_handler_twice_in_a_row_loops s eventName lv tv tn
    (first h : Handler) e fuel :
  coalescing_ground X s eventName lv tv tn ->
  is_user (heap s) first ->
  is_user (heap s) h ->
  (bind_all X eventName [first.1; h.1; h.1] ;;
   invoke X fuel (VRef (length (heap s))) e) s = OutOfFuel.
Proof.
  intros Hground [next1 Hfirst] [nexth Hh].
  destruct first as [h1 body1], h as [f body]. cbn [fst snd] in *.
  pose proof Hground as [Hlv Htv Htn Hel Hproc Hpass Hnone Hblocks Hunbound].
  set (w := length (heap s)).
  set (s1 := after_first_bind X s eventName lv tv tn h1).
  assert (Hfw : f <> w) by (apply lookup_lt_Some in Hh; subst w; lia).
  assert (Hh1w : h1 <> w) by (apply lookup_lt_Some in Hfirst; subst w; lia).
  assert (Hlen1 : (w < length (heap s1))%nat).
  { subst s1 w. cbn. rewrite length_app. cbn. lia. }
  assert (Hw1 : heap s1 !! w
                = Some {| kind := WrappedListener (currentTNode s) (currentLView s)
                                    (VRef h1) false;
                          ngNextListenerFn := VUndef |}).
  { subst s1 w. cbn. by apply list_lookup_middle. }
  assert (Hf1 : heap s1 !! f
                = Some {| kind := UserFunction body; ngNextListenerFn := nexth |}).
  { subst s1. cbn. by apply lookup_app_l_Some. }
  assert (Hflen : (f < length (heap s1))%nat) by (by eapply lookup_lt_Some).
  set (hp2 := <[w := {| kind := WrappedListener (currentTNode s) (currentLView s)
                                   (VRef h1) false;
                         ngNextListenerFn := VRef f |}]>
                (<[f := {| kind := UserFunction body; ngNextListenerFn := VUndef |}]>
                   (heap s1))).
  set (hp3 := <[w := {| kind := WrappedListener (currentTNode s) (currentLView s)
                                   (VRef h1) false;
                         ngNextListenerFn := VRef f |}]>
                (<[f := {| kind := UserFunction body; ngNextListenerFn := VRef f |}]>
                   hp2)).
  assert (Hw2 : hp2 !! w
                = Some {| kind := WrappedListener (currentTNode s) (currentLView s)
                                    (VRef h1) false;
                          ngNextListenerFn := VRef f |}).
  { subst hp2. apply list_lookup_insert_eq. by rewrite length_insert. }
  assert (Hf2 : hp2 !! f
                = Some {| kind := UserFunction body; ngNextListenerFn := VUndef |}).
  { subst hp2. rewrite list_lookup_insert_ne by done. by apply list_lookup_insert_eq. }
  assert (Hlen2 : length hp2 = length (heap s1)).
  { subst hp2. by rewrite !length_insert. }
  assert (Hbind : bind_all X eventName [h1; f; f] s = Done tt (with_heap hp3 s1)).
  { cbn [bind_all].
    rewrite (bind_done _ _ _ _ _ (first_bind X s eventName lv tv tn Hground h1)).
    fold s1. rewrite <- (with_heap_same s1) at 1.
    rewrite (bind_done _ _ _ _ _
               (next_bind X s eventName lv tv tn Hground h1 (heap s1) f _ _ Hw1 Hf1)).
    cbn [kind ngNextListenerFn]. fold s1 w hp2.
    rewrite (bind_done _ _ _ _ _
               (next_bind X s eventName lv tv tn Hground h1 hp2 f _ _ Hw2 Hf2)).
    done. }
  rewrite (bind_done _ _ _ _ _ Hbind).
  assert (Hf3 : hp3 !! f
                = Some {| kind := UserFunction body; ngNextListenerFn := VRef f |}).
  { subst hp3. rewrite list_lookup_insert_ne by done.
    apply list_lookup_insert_eq. by rewrite Hlen2. }
  assert (Hh13 : exists next, hp3 !! h1
                 = Some {| kind := UserFunction body1; ngNextListenerFn := next |}).
  { destruct (decide (h1 = f)) as [->|Hne].
    - rewrite Hf3. rewrite Hfirst in Hh. injection Hh as <- _. by eexists.
    - exists next1. subst hp3 hp2. rewrite !list_lookup_insert_ne by done.
      subst s1. cbn. by apply lookup_app_l_Some. }
  destruct Hh13 as [next Hh13].
  eapply (dispatch_self_loop _ w (currentTNode s) (currentLView s) _ _ false h1 body1 next
            f body).
  - subst hp3. cbn. apply list_lookup_insert_eq. by rewrite length_insert, Hlen2.
  - exact Hh13.
  - exact Hf3.
  - subst s1. cbn. apply list_lookup_insert_eq. by eapply lookup_lt_Some.
  - subst s1. cbn. apply list_lookup_insert_eq. by eapply lookup_lt_Some.
Qed.

End SelfLoop.

(** ** The further properties at the sample views *)

Lemma later_view_is_ground :
  replay_ground X0 later_view "click" (view (ProceduralRenderer3 0) [])
    {| cleanup := Some [VStr "click"; VNum 20; VNum 0; VNum 1];
       firstTemplatePass := false |}
    button [VStr "click"; VNum 20; VNum 0; VNum 1] 0.
Proof. constructor; try reflexivity. intros k' Hk'. lia. Qed.

Lemma fresh_dom_is_ground :
  direct_ground X0 fresh_dom "click" (view (ObjectOrientedRenderer3 0) []) template button.
Proof. constructor; reflexivity. Qed.

Lemma X2_witness :
  findExistingListener_in
    (Some ([VStr "click"; VNum 20; VNum 0; VNum 1]
           ++ [VStr "keyup"; VNum 20; VNum 2; VNum 3]))
    (Some [VRef 3%nat; VRef 4%nat]) "click" 20
  = findExistingListener_in (Some [VStr "click"; VNum 20; VNum 0; VNum 1])
      (Some [VRef 3%nat; VRef 4%nat]) "click" 20.
Proof.
  apply (X2_foreign_entries_do_not_change_the_lookup
           [VStr "click"; VNum 20; VNum 0; VNum 1]
           [VStr "keyup"; VNum 20; VNum 2; VNum 3]
           (Some [VRef 3%nat; VRef 4%nat]) "click" 20 1%nat); reflexivity.
Defined.

Lemma X4_witness :
  exists s1,
    findExistingListener 0 "click" 20 fresh = Done VNull fresh
    /\ Δlistener X0 "click" 0%nat None None fresh = Done tt s1
    /\ findExistingListener 0 "click" 20 s1 = Done (VRef 3%nat) s1
    /\ heap s1 !! 3%nat
       = Some {| kind := WrappedListener 0 0 (VRef 0%nat) false;
                 ngNextListenerFn := VUndef |}.
Proof.
  apply (X4_lookup_finds_the_closure_of_the_first_bind X0 fresh "click"
           (view (ProceduralRenderer3 0) []) template button 0%nat).
  exact fresh_is_ground.
Defined.

Lemma X5_witness :
  exists s1,
    Δlistener X0 "click" 0%nat None None fresh = Done tt s1
    /\ Δlistener X0 "click" 1%nat None None s1
       = Done tt
           (with_heap
              (<[3%nat := {| kind := WrappedListener 0 0 (VRef 0%nat) false;
                             ngNextListenerFn := VRef 1%nat |}]>
                 (<[1%nat := {| kind := UserFunction (returns VUndef);
                                ngNextListenerFn := VUndef |}]> (heap s1)))
              s1).
Proof.
  apply (X5_coalesced_bind_changes_two_links X0 fresh "click"
           (view (ProceduralRenderer3 0) []) template button 0%nat 1%nat
           (function (returns VUndef))).
  - exact fresh_is_ground.
  - reflexivity.
Defined.

Lemma X6_witness :
  exists s',
    bind_all X0 "click" [0; 1]%nat later_view = Done tt s'
    /\ trace s' = [RendererListen (ProceduralRenderer3 0) (TargetNode 20%nat) "click"
                     (VRef 3%nat)]
    /\ heap s' !! 3%nat
       = Some {| kind := WrappedListener 0 0 (VRef 0%nat) false;
                 ngNextListenerFn := VRef 1%nat |}
    /\ tviews s' = tviews later_view.
Proof.
  apply (X6_later_view_coalesces_on_the_recorded_entry X0 later_view "click"
           (view (ProceduralRenderer3 0) [])
           {| cleanup := Some [VStr "click"; VNum 20; VNum 0; VNum 1];
              firstTemplatePass := false |}
           button [VStr "click"; VNum 20; VNum 0; VNum 1] 0 0%nat 1%nat
           (function (returns VUndef))).
  - exact later_view_is_ground.
  - reflexivity.
Defined.

Lemma X7_witness :
  exists s' ev1 ev2,
    (Δlistener X0 "click" 0%nat None (Some on_document) ;;
     Δlistener X0 "click" 1%nat None None) fresh = Done tt s'
    /\ trace s' = [ev1; ev2]
    /\ is_listen ev1 = true /\ is_listen ev2 = true
    /\ heap s' = handlers
                 ++ [{| kind := TargetGetter on_document 20; ngNextListenerFn := VUndef |};
                     {| kind := WrappedListener 0 0 (VRef 0%nat) false;
                        ngNextListenerFn := VUndef |};
                     {| kind := CleanupFn; ngNextListenerFn := VUndef |};
                     {| kind := WrappedListener 0 0 (VRef 1%nat) false;
                        ngNextListenerFn := VUndef |};
                     {| kind := CleanupFn; ngNextListenerFn := VUndef |}].
Proof.
  destruct (X7_global_target_listener_skips_the_lookup X0) as (_ & _ & Htwo & _).
  apply (Htwo fresh "click"%string (view (ProceduralRenderer3 0) []) template button
           on_document 0%nat 1%nat).
  exact fresh_is_ground.
Defined.

Lemma X8_witness :
  exists s' t,
    bind_all X0 "click" [0; 1; 2]%nat fresh_dom = Done tt s'
    /\ trace s' = t
    /\ Forall2 (attached "click") t [3; 4; 5]%nat
    /\ heap s' = handlers ++ map (direct_closure 0 0) [0; 1; 2]%nat.
Proof.
  apply (X8_direct_listeners_are_never_coalesced X0 fresh_dom "click"
           (view (ObjectOrientedRenderer3 0) []) template button [0; 1; 2]%nat).
  exact fresh_dom_is_ground.
Defined.




Lemma X11_witness :
  listenerInternal X0 "click" 0%nat true None None fresh
  = listenerInternal X0 "click" 0%nat false None None fresh.
Proof.
  apply (X11_useCapture_is_ignored_by_a_procedural_renderer X0 fresh
           (view (ProceduralRenderer3 0) []) template button "click" 0%nat true None None);
    reflexivity.
Defined.

Lemma X12_witness :
  exists t,
    trace (after_listen X0 fresh_dev "click" (view (ProceduralRenderer3 0) []) template
             button 0%nat None None)
    = trace fresh_dev ++ t
    /\ ngDevMode (after_listen X0 fresh_dev "click" (view (ProceduralRenderer3 0) [])
                    template button 0%nat None None)
       = (fun n => (n + length (List.filter is_native t))%nat) <$> ngDevMode fresh_dev.
Proof.
  apply (X12_counter_counts_native_registrations X0 fresh_dev "click" 0%nat false
           None None).
  vm_compute. reflexivity.
Defined.

Lemma X13_witness :
  exists lv,
    lviews fresh !! currentLView fresh = Some lv
    /\ (forall i lv0, lviews fresh !! i = Some lv0 ->
          exists lv',
            lviews (after_listen X0 fresh "click" (view (ProceduralRenderer3 0) [])
                      template button 0%nat None None) !! i = Some lv'
            /\ default [] (CLEANUP lv0) `prefix_of` default [] (CLEANUP lv')
            /\ (i <> currentLView fresh -> lv' = lv0))
    /\ (forall i tv0, tviews fresh !! i = Some tv0 ->
          exists tv',
            tviews (after_listen X0 fresh "click" (view (ProceduralRenderer3 0) [])
                      template button 0%nat None None) !! i = Some tv'
            /\ default [] (cleanup tv0) `prefix_of` default [] (cleanup tv')
            /\ (i <> TVIEW lv -> tv' = tv0)).
Proof.
  apply (X13_cleanup_arrays_only_grow X0 fresh "click" 0%nat false None None).
  vm_compute. reflexivity.
Defined.

Lemma X14_witness :
  exists lv tv,
    lviews on_container !! currentLView on_container = Some lv
    /\ tviews on_container !! TVIEW lv = Some tv
    /\ (firstTemplatePass tv = false -> tviews container_after = tviews on_container)
    /\ (firstTemplatePass tv = true ->
        exists tv', tviews container_after !! TVIEW lv = Some tv'
                    /\ is_Some (cleanup tv')).
Proof.
  apply (X14_template_is_written_in_the_first_pass_only X0 on_container "click" 0%nat
           false None None).
  vm_compute. reflexivity.
Defined.

Lemma X15_witness :
  exists tn,
    tnodes on_container !! currentTNode on_container = Some tn
    /\ tnodes container_after
       = <[currentTNode on_container := outputs_cached X0 tn]> (tnodes on_container)
    /\ outputs (outputs_cached X0 tn) <> OutputsUndefined
    /\ (outputs tn <> OutputsUndefined -> tnodes container_after = tnodes on_container).
Proof.
  apply (X15_outputs_of_the_node_are_computed_once X0 on_container "click" 0%nat false
           None None).
  vm_compute. reflexivity.
Defined.

Lemma X16_witness :
  exists s' lv' tv',
    listenerInternal X0 "click" 0%nat false None None with_output = Done tt s'
    /\ lviews s' !! 0%nat = Some lv'
    /\ tviews s' !! 0%nat = Some tv'
    /\ default [] (CLEANUP lv') = [VRef 3%nat; VRef 4%nat] ++ [VRef 3%nat; VRef 5%nat]
    /\ default [] (cleanup tv')
       = [VStr "click"; VNum 20; VNum 0; VNum 1]
         ++ [VStr "click"; VNum 20; VNum 2; VNum (-3)].
Proof.
  apply (X16_output_entries_name_their_subscriptions X0 with_output
           (view (ProceduralRenderer3 0) [VRef 1%nat]) template (directed button)
           "click"%string 0%nat false None None (VRef 3%nat)
           (after_first_bind X0 with_output "click"
              (view (ProceduralRenderer3 0) [VRef 1%nat]) template (directed button)
              0%nat)
           (set_CLEANUP (Some [VRef 3%nat; VRef 4%nat])
              (view (ProceduralRenderer3 0) [VRef 1%nat]))
           (set_cleanup (Some [VStr "click"; VNum 20; VNum 0; VNum 1]) template)
           [2%nat]).
  - reflexivity.
  - reflexivity.
  - reflexivity.
  - reflexivity.
  - by left.
  - reflexivity.
  - reflexivity.
  - reflexivity.
  - constructor; [|constructor].
    exists (view (ProceduralRenderer3 0) [VRef 1%nat]), "ClickDirective"%string.
    split; [reflexivity|].
    exists 1%nat, {[ "clk"%string := VRef 2%nat ]}.
    repeat split; reflexivity.
Defined.

Lemma X17_witness : thrown (invoke X0 3 (VRef 2%nat) 7%nat bound) = None.
Proof.
  apply (X17_wrapped_listener_never_throws X0 bound 2%nat 0%nat 0%nat (VRef 0%nat) true
           (VRef 1%nat) 3%nat 7%nat).
  reflexivity.
Defined.

Lemma X18_witness :
  exists t,
    trace (with_trace
      [MarkViewDirty 0; HandlerCall 0 7; HandlerCall 1 7; HandleError 0 (UserError 1);
       PreventDefault 7; SetReturnValueFalse 7]%nat bound)
    = trace bound ++ t
    /\ forallb is_dispatch_call t = true.
Proof.
  apply (X18_dispatch_registers_nothing X0 3%nat (VRef 2%nat) 7%nat bound).
  vm_compute. reflexivity.
Defined.

Lemma X19_witness :
  (bind_all X0 "click" [0; 1; 1]%nat ;; invoke X0 5 (VRef 3%nat) 7%nat) fresh = OutOfFuel.
Proof.
  apply (X19_binding_a_handler_twice_in_a_row_loops X0 fresh "click"
           (view (ProceduralRenderer3 0) []) template button
           (0%nat, returns VUndef) (1%nat, returns VUndef) 7%nat 5%nat).
  - exact fresh_is_ground.
  - by exists VUndef.
  - by exists VUndef.
Defined.
